(** * Resumable batch translation of RISEBench instructions

    A shallow embedding of [translate_instructions.py]: the retrying
    translation client ([call_api_batch]), the progress store
    ([_build_progress_state], [_validate_progress_state],
    [_atomic_write_json]) and the per-language orchestration
    ([translate_dataset], [main]), followed by the properties of the
    design document that the code is checked against and by further
    properties of the code, among them of the unwrapping of a reply
    ([_strip_code_fence]).

    Conventions of the embedding.
    - JSON documents are values of [json]; a Python [dict] is an association
      list in insertion order ([pydict]), [None] is [JNull].  Numbers are
      integers; Python floats are not represented.
    - A file holds the JSON value that was passed to [json.dumps]; the bytes
      on disk are a function of that value, and [json.loads] gives it back.
    - The output directory is a finite map from file names to contents.
    - Exceptions are values of [error]; an effectful function returns its
      result together with the world it leaves behind, also when it raises.
    - Python's [int] on a string and [str.strip] are left open: the
      embedding takes them from a [PyRuntime].  Only for the text of a
      reply, taken as a list of code points, are [str.strip] and
      [str.splitlines] defined.
    - [print] is not modelled. *)

From stdpp Require Import gmap strings list sorting.
From Stdlib Require Import ZArith Lia Ascii.

Set Warnings "-register-all".
Local Open Scope Z_scope.

(** ** JSON values and Python dictionaries *)

Inductive json : Type :=
  | JNull
  | JBool (b : bool)
  | JNum (n : Z)
  | JStr (s : string)
  | JArr (l : list json)
  | JObj (o : list (string * json)).

Abbreviation pydict := (list (string * json)).

(** [d.get(k)] / [k in d]. *)
Fixpoint dict_get (k : string) (d : pydict) : option json :=
  match d with
  | [] => None
  | (k', v) :: d' => if String.eqb k k' then Some v else dict_get k d'
  end.

(** [d[k] = v]: an existing key keeps its place, a new key goes last. *)
Fixpoint dict_set (k : string) (v : json) (d : pydict) : pydict :=
  match d with
  | [] => [(k, v)]
  | (k', v') :: d' =>
      if String.eqb k k' then (k', v) :: d' else (k', v') :: dict_set k v d'
  end.

Definition dict_has (k : string) (d : pydict) : bool :=
  match dict_get k d with Some _ => true | None => false end.

(** [x is None] *)
Definition is_none (j : json) : bool :=
  match j with JNull => true | _ => false end.

(** [state.get(key) != value] for an integer [value]: Python compares
    [bool] and [int] numerically, so [True == 1]. *)
Definition py_ne_int (got : option json) (value : Z) : bool :=
  match got with
  | Some (JNum n) => negb (n =? value)
  | Some (JBool b) => negb ((if b then 1 else 0) =? value)
  | _ => true
  end.

(** [state.get(key) != value] for a string [value]. *)
Definition py_ne_str (got : option json) (value : string) : bool :=
  match got with
  | Some (JStr s) => negb (String.eqb s value)
  | _ => true
  end.

(** ** Exceptions

    The script raises [RuntimeError], [ValueError] and [SystemExit] with
    distinguishing messages; the constructors below carry the names the
    design document gives to those failures. *)

Inductive shape_fault : Type :=
  | ItemsShape          (* "`items` shape mismatch." *)
  | DoneNotList         (* "`done_indices` must be a list." *)
  | DoneOutOfRange      (* "`done_indices` out of range." *)
  | DoneItemNull        (* "index i marked done but item is null." *)
  | CacheNotObject.     (* "`cache` must be an object." *)

Inductive error : Type :=
  | ConfigError (msg : string)              (* ValueError / SystemExit at startup *)
  | KeyError (key : string)                 (* DEFAULT_LANGS[lang_code] *)
  | ProgressMismatch (fields : list string) (* "does not match current run" *)
  | InvalidProgressShape (f : shape_fault)  (* "Progress file ... is invalid" *)
  | IncompleteRun (ndone total : Z)         (* "Incomplete translation for ..." *)
  | TranslationFailure (attempts : Z) (last_err : option error)
                                            (* "API call failed after N attempts: last_err" *)
  | AttributeError                          (* [.get] on a value that is no dict *)
  | TypeError                               (* [int(None)], [int([])], ... *)
  | ValueError                              (* [int("x")] *)
  | IndexError
  | FileNotFoundError                       (* reading a file that is not there *)
  | TransportError (msg : string)           (* raised by [requests.post] *)
  | HTTPError (status : Z)                  (* [resp.raise_for_status()] *)
  | DecodeError (msg : string)              (* [resp.json()], the indexing, [json.loads] *)
  | EmptyTranslation                        (* "Empty translation returned by API." *)
  | NotAnArray                              (* "API response is not a JSON array." *)
  | LengthMismatch                          (* "API response length does not match ..." *)
  | MockError (msg : string)                (* raised by a substituted client *)
  | NonStringInstruction (idx : Z).         (* outside the input contract, see [instruction_of] *)

Inductive result (A : Type) : Type :=
  | Ok (a : A)
  | Err (e : error).
Arguments Ok {A} a.
Arguments Err {A} e.

Definition is_ok {A} (r : result A) : bool :=
  match r with Ok _ => true | Err _ => false end.

(** ** Constants of the script *)

Definition DEFAULT_LANGS : list (string * string) :=
  [ ("zh", "Simplified Chinese"); ("ar", "Arabic"); ("es", "Spanish");
    ("th", "Thai"); ("ko", "Korean"); ("fi", "Finnish"); ("ru", "Russian");
    ("bn", "Bengali"); ("ja", "Japanese"); ("he", "Hebrew"); ("yo", "Yoruba");
    ("sw", "Swahili"); ("iu", "Inuktitut") ].

Fixpoint lang_name_of (code : string) (tbl : list (string * string)) : option string :=
  match tbl with
  | [] => None
  | (c, n) :: tbl' => if String.eqb code c then Some n else lang_name_of code tbl'
  end.

Definition PROGRESS_VERSION : Z := 1.

(** ** The translation client: [call_api_batch] *)

(** What one [requests.post] attempt can give.  The reply body is given as
    decoded by the code: [resp.json()], the path
    [data["choices"][0]["message"]["content"]], [_strip_code_fence] and
    [json.loads] either raise, leave an empty string, or yield a value. *)
Inductive reply_body : Type :=
  | BodyRaises (e : error)
  | BodyEmpty
  | BodyJson (j : json).

Inductive attempt_outcome : Type :=
  | PostRaises (e : error)
  | Response (status_code : Z) (body : reply_body).

Definition transient_status (c : Z) : bool :=
  (c =? 429) || (c =? 500) || (c =? 502) || (c =? 503) || (c =? 504).

(** [resp.raise_for_status()]: 4xx and 5xx raise. *)
Definition raise_for_status (c : Z) : result unit :=
  if (400 <=? c) && (c <? 600) then Err (HTTPError c) else Ok tt.

(** The arguments [translate_dataset] passes to the client. *)
Record call_args : Type := CallArgs {
  ca_instructions : list string;
  ca_lang_name : string;
  ca_model : string;
  ca_base_url : string;
  ca_api_key : string;
  ca_timeout : Z;
  ca_max_retries : Z
}.

(** The remote endpoint: a state machine answering each POST. *)
Record endpoint (N : Type) : Type := Endpoint {
  post : N -> call_args -> attempt_outcome * N
}.
Arguments post {N} _ _ _.

(** State of the network side of a call: the endpoint's state and the
    delays slept so far, in half seconds ([1.5 * attempt] is [3 * attempt]). *)
Record net (N : Type) : Type := Net {
  net_state : N;
  net_slept : list Z;
  net_posts : nat
}.
Arguments Net {N} _ _ _.
Arguments net_state {N} _.
Arguments net_slept {N} _.
Arguments net_posts {N} _.

(** The body of the [try] block after [requests.post] returned. *)
Definition decode_response (n_instr : nat) (status_code : Z) (body : reply_body)
  : result (list json) :=
  match raise_for_status status_code with
  | Err e => Err e
  | Ok _ =>
      match body with
      | BodyRaises e => Err e
      | BodyEmpty => Err EmptyTranslation
      | BodyJson (JArr translations) =>
          if Nat.eqb (length translations) n_instr then Ok translations
          else Err LengthMismatch
      | BodyJson _ => Err NotAnArray
      end
  end.

(** The [for attempt in range(1, max_retries + 1)] loop; [remaining] counts
    the attempts still to make and [attempt] is the loop variable. *)
Fixpoint attempts_loop {N} (ep : endpoint N) (args : call_args)
    (remaining : nat) (attempt : Z) (last_err : option error) (s : net N)
  : result (list json) * net N :=
  match remaining with
  | O => (Err (TranslationFailure (ca_max_retries args) last_err), s)
  | S remaining' =>
      let '(out, n') := post ep (net_state s) args in
      let posted := S (net_posts s) in
      match out with
      | PostRaises e =>
          attempts_loop ep args remaining' (attempt + 1) (Some e)
            (Net n' (net_slept s ++ [3 * attempt]) posted)
      | Response status_code body =>
          if transient_status status_code then
            attempts_loop ep args remaining' (attempt + 1) last_err
              (Net n' (net_slept s ++ [3 * attempt]) posted)
          else
            match decode_response (length (ca_instructions args)) status_code body with
            | Ok translations => (Ok translations, Net n' (net_slept s) posted)
            | Err e =>
                attempts_loop ep args remaining' (attempt + 1) (Some e)
                  (Net n' (net_slept s ++ [3 * attempt]) posted)
            end
      end
  end.

Definition call_api_batch {N} (ep : endpoint N) (s : net N) (args : call_args)
  : result (list json) * net N :=
  attempts_loop ep args (Z.to_nat (ca_max_retries args)) 1 None s.

(** ** The world of a run: output directory, client, effect log *)

Inductive event : Type :=
  | EvCall (args : call_args)                 (* a call of the translation client *)
  | EvWrite (name : string) (payload : json)  (* [Path.write_text(json.dumps(payload))] *)
  | EvReplace (src dst : string)              (* [Path.replace] *)
  | EvUnlink (name : string).                 (* [Path.unlink] *)

Record world (S : Type) : Type := World {
  fs : gmap string json;    (* the files of [out_dir], by name *)
  cstate : S;               (* whatever state the client has *)
  log : list event          (* effects so far, oldest first *)
}.
Arguments World {S} _ _ _.
Arguments fs {S} _.
Arguments cstate {S} _.
Arguments log {S} _.

(** A translation client as [translate_dataset] sees it: the module-level
    name [call_api_batch], which tests replace by a substitute. *)
Definition client (S : Type) : Type := S -> call_args -> result (list json) * S.

(** [call_api_batch] over an endpoint is such a client. *)
Definition api_client {N} (ep : endpoint N) : client (net N) :=
  fun s args => call_api_batch ep s args.

(** Computations that may raise and that change the world. *)
Definition M (S A : Type) : Type := world S -> result A * world S.

Definition ret {S A} (a : A) : M S A := fun w => (Ok a, w).
Definition raise {S A} (e : error) : M S A := fun w => (Err e, w).
Definition bind {S A B} (m : M S A) (k : A -> M S B) : M S B :=
  fun w => match m w with
           | (Ok a, w') => k a w'
           | (Err e, w') => (Err e, w')
           end.
Definition lift {S A} (r : result A) : M S A := fun w => (r, w).

Notation "x <- m ;; k" := (bind m (fun x => k))
  (at level 100, m at next level, right associativity).
Notation "m ;;; k" := (bind m (fun _ => k))
  (at level 100, right associativity).

Fixpoint foldM {S A B} (f : A -> B -> M S A) (l : list B) (a : A) : M S A :=
  match l with
  | [] => ret a
  | b :: l' => a' <- f a b ;; foldM f l' a'
  end.

Fixpoint forM_ {S B} (f : B -> M S unit) (l : list B) : M S unit :=
  match l with
  | [] => ret tt
  | b :: l' => f b ;;; forM_ f l'
  end.

Definition emit {S} (e : event) (w : world S) : world S :=
  World (fs w) (cstate w) (log w ++ [e]).

Definition write_text {S} (name : string) (payload : json) : M S unit :=
  fun w => (Ok tt, emit (EvWrite name payload)
                     (World (<[name := payload]> (fs w)) (cstate w) (log w))).

Definition unlink {S} (name : string) : M S unit :=
  fun w => (Ok tt, emit (EvUnlink name)
                     (World (delete name (fs w)) (cstate w) (log w))).

(** [src.replace(dst)]: [dst] gets the content of [src], [src] is gone. *)
Definition replace_file {S} (src dst : string) : M S unit :=
  fun w =>
    let fs' := match fs w !! src with
               | Some c => delete src (<[dst := c]> (fs w))
               | None => fs w
               end in
    (Ok tt, emit (EvReplace src dst) (World fs' (cstate w) (log w))).

Definition file_exists {S} (name : string) : M S bool :=
  fun w => (Ok (bool_decide (is_Some (fs w !! name))), w).

Definition call_client {S} (cl : client S) (args : call_args) : M S (list json) :=
  fun w =>
    let '(r, s') := cl (cstate w) args in
    (r, emit (EvCall args) (World (fs w) s' (log w))).

(** ** Progress store *)

Definition _progress_path (base_name lang_code : string) : string :=
  ".translate_progress_" +:+ base_name +:+ "_" +:+ lang_code +:+ ".json".

Definition output_path (base_name lang_code : string) : string :=
  base_name +:+ "_" +:+ lang_code +:+ ".json".

Definition tmp_path (name : string) : string := name +:+ ".tmp".

Definition _atomic_write_json {S} (path : string) (payload : json) : M S unit :=
  write_text (tmp_path path) payload ;;;
  replace_file (tmp_path path) path.

(** [sorted(done_indices)] *)
Definition sorted_indices (done_indices : gset Z) : list Z :=
  merge_sort Z.le (elements done_indices).

(** Configuration of a run.  [source_path] is
    [str(Path(data_path).resolve())] and [base_name] is
    [Path(data_path).stem]. *)
Record config : Type := Config {
  source_path : string;
  base_name : string;
  model : string;
  base_url : string;
  api_key : string;
  batch_size : Z;
  timeout : Z;
  max_retries : Z;
  resume : bool;
  force_restart : bool
}.

Definition _build_progress_state (cfg : config) (total : Z) (lang_code : string)
    (done_indices : gset Z) (cache : pydict) (out_items : list json) : json :=
  JObj [ ("version", JNum PROGRESS_VERSION);
         ("source_path", JStr (source_path cfg));
         ("source_size", JNum total);
         ("model", JStr (model cfg));
         ("base_url", JStr (base_url cfg));
         ("lang_code", JStr lang_code);
         ("done_indices", JArr (JNum <$> sorted_indices done_indices));
         ("cache", JObj cache);
         ("items", JArr out_items) ].

(** The in-memory state of one language's run. *)
Record loop_state : Type := LoopState {
  done_indices : gset Z;
  cache : pydict;
  out_items : list json
}.

Fixpoint mapR {A B} (f : A -> result B) (l : list A) : result (list B) :=
  match l with
  | [] => Ok []
  | a :: l' =>
      match f a with
      | Err e => Err e
      | Ok b => match mapR f l' with
                | Err e => Err e
                | Ok bs => Ok (b :: bs)
                end
      end
  end.

(** The two built-ins of Python the script relies on and whose behaviour
    on arbitrary strings is left open: [int(s)] on a string ([None] when it
    raises [ValueError]) and [str.strip()]. *)
Class PyRuntime : Type := {
  py_int_of_str : string -> option Z;
  py_strip : string -> string
}.

(** [int(i)] on a decoded JSON value. *)
Definition py_int {PY : PyRuntime} (j : json) : result Z :=
  match j with
  | JNum n => Ok n
  | JBool b => Ok (if b then 1 else 0)
  | JStr s => match py_int_of_str s with
              | Some n => Ok n
              | None => Err ValueError
              end
  | _ => Err TypeError
  end.

(** The dictionary [expected] of [_validate_progress_state]. *)
Definition expected_run_key (cfg : config) (total : Z) (lang_code : string) : pydict :=
  [ ("version", JNum PROGRESS_VERSION);
    ("source_path", JStr (source_path cfg));
    ("source_size", JNum total);
    ("model", JStr (model cfg));
    ("base_url", JStr (base_url cfg));
    ("lang_code", JStr lang_code) ].

(** [state.get(key) != value]; the expected values are integers and
    strings only. *)
Definition py_ne (got : option json) (value : json) : bool :=
  match value with
  | JNum v => py_ne_int got v
  | JStr s => py_ne_str got s
  | _ => true
  end.

(** The keys of [expected] whose stored value differs, in the order of
    the dictionary. *)
Definition run_key_mismatches (state : pydict) (cfg : config) (total : Z)
    (lang_code : string) : list string :=
  fst <$> List.filter (fun '(key, value) => py_ne (dict_get key state) value)
            (expected_run_key cfg total lang_code).

Definition _validate_progress_state {PY : PyRuntime} (state : json) (cfg : config) (total : Z)
    (lang_code : string) : result loop_state :=
  match state with
  | JObj st =>
      match run_key_mismatches st cfg total lang_code with
      | (_ :: _) as mismatches => Err (ProgressMismatch mismatches)
      | [] =>
          match dict_get "items" st with
          | Some (JArr items) =>
              if negb (Z.of_nat (length items) =? total)
              then Err (InvalidProgressShape ItemsShape)
              else
                match dict_get "done_indices" st with
                | Some (JArr done_list) =>
                    match mapR py_int done_list with
                    | Err e => Err e
                    | Ok ints =>
                        let done_index_set : gset Z := list_to_set ints in
                        if existsb (fun i => (i <? 0) || (i >=? total)) (elements done_index_set)
                        then Err (InvalidProgressShape DoneOutOfRange)
                        else if existsb (fun i => match items !! Z.to_nat i with
                                                  | Some it => is_none it
                                                  | None => false
                                                  end) (elements done_index_set)
                        then Err (InvalidProgressShape DoneItemNull)
                        else
                          match dict_get "cache" st with
                          | Some (JObj cache) =>
                              Ok (LoopState done_index_set cache items)
                          | _ => Err (InvalidProgressShape CacheNotObject)
                          end
                    end
                | _ => Err (InvalidProgressShape DoneNotList)
                end
          | _ => Err (InvalidProgressShape ItemsShape)
          end
      end
  | _ => Err AttributeError
  end.

(** ** The dataset translator *)

(** [item.get("instruction", "")] *)
Definition instruction_of (item : pydict) : json :=
  match dict_get "instruction" item with
  | Some v => v
  | None => JStr ""
  end.

(** The input contract makes [instruction] a string.  The embedding stops
    with [NonStringInstruction] on any other value; the script would go on
    with a non-string dictionary key. *)
Definition source_text (idx : Z) (item : pydict) : result string :=
  match instruction_of item with
  | JStr s => Ok s
  | _ => Err (NonStringInstruction idx)
  end.

(** [range(0, total, step)].  A negative step gives the empty range, as
    [total] is not negative; step [0], for which Python raises, is excluded
    by the check on [batch_size] and gives the empty range here. *)
Definition range_step (total step : Z) : list Z :=
  if 0 <? step
  then (fun k => k * step) <$> seqZ 0 ((total + step - 1) `div` step)
  else [].

(** [range(start, min(start + batch_size, total))] *)
Definition batch_range (start batch_size total : Z) : list Z :=
  seqZ start (Z.min (start + batch_size) total - start).

(** The loop over [enumerate(batch_instructions)]: cached translations,
    [None] for the others, and the indices of the others. *)
Fixpoint scan_cache (cache : pydict) (i : nat) (batch_instructions : list string)
  : list json * list nat :=
  match batch_instructions with
  | [] => ([], [])
  | instruction :: rest =>
      let '(translations, missing_indices) := scan_cache cache (S i) rest in
      match dict_get instruction cache with
      | Some t => (t :: translations, missing_indices)
      | None => (JNull :: translations, i :: missing_indices)
      end
  end.

(** The body of the loop over [zip(missing_indices, batch_translations)]:
    [translations[i] = translated; cache[batch_instructions[i]] = translated]. *)
Definition merge_step (batch_instructions : list string)
    (acc : list json * pydict) (p : nat * json) : list json * pydict :=
  (<[p.1 := p.2]> acc.1, dict_set (batch_instructions !!! p.1) p.2 acc.2).

Definition merge_translations (batch_instructions : list string)
    (missing_indices : list nat) (batch_translations : list json)
    (translations : list json) (cache : pydict) : list json * pydict :=
  fold_left (merge_step batch_instructions)
    (zip missing_indices batch_translations) (translations, cache).

(** The body of the loop over
    [zip(pending_positions, batch_items, translations)]: the copy of the
    record with [instruction] assigned goes to [out_items[idx]], and [idx]
    to [done_indices]. *)
Definition commit_step (acc : gset Z * list json) (p : Z * pydict * json)
  : gset Z * list json :=
  ({[p.1.1]} ∪ acc.1,
   <[Z.to_nat p.1.1 := JObj (dict_set "instruction" p.2 p.1.2)]> acc.2).

Definition commit_batch (pending_positions : list Z) (batch_items : list pydict)
    (translations : list json) (done : gset Z) (items : list json)
  : gset Z * list json :=
  fold_left commit_step
    (zip (zip pending_positions batch_items) translations) (done, items).

Section Run.

Context {PY : PyRuntime} {S : Type}.
Variable call_api : client S.
Variable cfg : config.
Variable data : list pydict.

Definition data_item (idx : Z) : result pydict :=
  match data !! Z.to_nat idx with
  | Some item => Ok item
  | None => Err IndexError
  end.

(** One iteration of [for start in range(0, total, batch_size)]. *)
Definition process_batch (lang_code lang_name : string) (total : Z)
    (ls : loop_state) (start : Z) : M S loop_state :=
  let batch_positions := batch_range start (batch_size cfg) total in
  let pending_positions := filter (fun idx => idx ∉ done_indices ls) batch_positions in
  match pending_positions with
  | [] => ret ls
  | _ :: _ =>
      batch_items <- lift (mapR data_item pending_positions) ;;
      batch_instructions <-
        lift (mapR (fun '(idx, item) => source_text idx item)
                (zip pending_positions batch_items)) ;;
      let '(translations, missing_indices) :=
        scan_cache (cache ls) 0 batch_instructions in
      merged <-
        match missing_indices with
        | [] => ret (translations, cache ls)
        | _ :: _ =>
            let to_translate := (fun i => batch_instructions !!! i) <$> missing_indices in
            batch_translations <-
              call_client call_api
                (CallArgs to_translate lang_name (model cfg) (base_url cfg)
                   (api_key cfg) (timeout cfg) (max_retries cfg)) ;;
            ret (merge_translations batch_instructions missing_indices
                   batch_translations translations (cache ls))
        end ;;
      let '(done', items') :=
        commit_batch pending_positions batch_items merged.1
          (done_indices ls) (out_items ls) in
      let ls' := LoopState done' merged.2 items' in
      _atomic_write_json (_progress_path (base_name cfg) lang_code)
        (_build_progress_state cfg total lang_code done' merged.2 items') ;;;
      ret ls'
  end.

(** [set()], the empty dict and [[None] * total]. *)
Definition fresh_state : loop_state :=
  LoopState ∅ [] (replicate (length data) JNull).

(** The end of the loop body: the completeness check, the output file and
    the removal of the progress file. *)
Definition finalize (lang_code : string) (total : Z) (ls : loop_state) : M S unit :=
  if negb (Z.of_nat (size (done_indices ls)) =? total) || existsb is_none (out_items ls)
  then raise (IncompleteRun (Z.of_nat (size (done_indices ls))) total)
  else
    write_text (output_path (base_name cfg) lang_code) (JArr (out_items ls)) ;;;
    ex <- file_exists (_progress_path (base_name cfg) lang_code) ;;
    if ex : bool then unlink (_progress_path (base_name cfg) lang_code) else ret tt.

(** [json.loads(progress_path.read_text())] *)
Definition _load_progress_state (progress_path : string) : M S json :=
  fun w =>
    match fs w !! progress_path with
    | Some state => (Ok state, w)
    | None => (Err FileNotFoundError, w)
    end.

(** The part of the loop body that sets up the state: the forced restart
    and the loading of an existing progress file. *)
Definition init_state (lang_code : string) (total : Z) : M S loop_state :=
  let progress_path := _progress_path (base_name cfg) lang_code in
  ex <- file_exists progress_path ;;
  (if force_restart cfg && ex then unlink progress_path else ret tt) ;;;
  ex' <- file_exists progress_path ;;
  if resume cfg && ex' then
    state <- _load_progress_state progress_path ;;
    lift (_validate_progress_state state cfg total lang_code)
  else ret fresh_state.

(** The body of [for lang_code in langs]. *)
Definition translate_lang (lang_code : string) : M S unit :=
  match lang_name_of lang_code DEFAULT_LANGS with
  | None => raise (KeyError lang_code)
  | Some lang_name =>
      let total := Z.of_nat (length data) in
      ls0 <- init_state lang_code total ;;
      ls <- foldM (process_batch lang_code lang_name total)
              (range_step total (batch_size cfg)) ls0 ;;
      finalize lang_code total ls
  end.

(** [translate_dataset], after the source file has been read into [data]
    and the output directory created. *)
Definition translate_dataset (langs : list string) : M S unit :=
  if batch_size cfg <=? 0 then raise (ConfigError "batch_size must be a positive integer.")
  else if timeout cfg <=? 0 then raise (ConfigError "timeout must be a positive integer.")
  else if max_retries cfg <=? 0 then raise (ConfigError "max_retries must be a positive integer.")
  else forM_ translate_lang langs.

End Run.

(** ** The command line entry point *)

(** [s.split(",")] *)
Fixpoint split_commas (s : string) : list string :=
  match s with
  | EmptyString => [EmptyString]
  | String c s' =>
      if Ascii.eqb c ","%char then EmptyString :: split_commas s'
      else match split_commas s' with
           | [] => [String c EmptyString]
           | h :: t => String c h :: t
           end
  end.

Definition nonempty (s : string) : bool :=
  match s with EmptyString => false | _ => true end.

(** [[code.strip() for code in args.langs.split(",") if code.strip()]] *)
Definition parse_langs {PY : PyRuntime} (arg : string) : list string :=
  py_strip <$> List.filter (fun code => nonempty (py_strip code)) (split_commas arg).

Definition known_lang (code : string) : bool :=
  match lang_name_of code DEFAULT_LANGS with Some _ => true | None => false end.

Definition with_api_key (key : string) (c : config) : config :=
  Config (source_path c) (base_name c) (model c) (base_url c) key
    (batch_size c) (timeout c) (max_retries c) (resume c) (force_restart c).

(** [main]: [env_key] is [os.environ.get("OPENAI_API_KEY")], [args] the
    parsed options (its [api_key] field is not read) and [arg_langs] the
    value of [--langs]. *)
Definition main {PY : PyRuntime} {S} (call_api : client S) (env_key : option string)
    (args : config) (arg_langs : string) (data : list pydict) : M S unit :=
  match env_key with
  | None => raise (ConfigError "OPENAI_API_KEY is not set in the environment.")
  | Some key =>
      if negb (nonempty key)
      then raise (ConfigError "OPENAI_API_KEY is not set in the environment.")
      else
        let langs := parse_langs arg_langs in
        let unknown := List.filter (fun code => negb (known_lang code)) langs in
        match unknown with
        | _ :: _ => raise (ConfigError "Unsupported language code(s)")
        | [] => translate_dataset call_api (with_api_key key args) data langs
        end
  end.

(** ** Notions used in the statements *)

(** The length contract of a client: a returned list is as long as the
    list of instructions it was given. *)
Definition length_contract {S} (cl : client S) : Prop :=
  forall s args l, (cl s args).1 = Ok l -> length l = length (ca_instructions args).

(** "A proper set of in-range integers". *)
Definition proper_index_set (total : Z) (j : json) : Prop :=
  exists l, j = JArr (JNum <$> l) /\ NoDup l /\ forall i, i ∈ l -> 0 <= i < total.

(** "A flat string-to-string mapping". *)
Definition flat_string_map (j : json) : Prop :=
  exists o, j = JObj o /\ forall k v, (k, v) ∈ o -> exists s, v = JStr s.

(** The state a language's run starts from, as a function of the files:
    what [init_state] computes. *)
Definition start_state {PY : PyRuntime} (cfg : config) (data : list pydict) (lang_code : string)
    (total : Z) (files : gmap string json) : result loop_state :=
  if force_restart cfg then Ok (fresh_state data)
  else if resume cfg then
    match files !! _progress_path (base_name cfg) lang_code with
    | Some state => _validate_progress_state state cfg total lang_code
    | None => Ok (fresh_state data)
    end
  else Ok (fresh_state data).

(** The world after the forced restart, if any. *)
Definition after_restart {S} (cfg : config) (lang_code : string) (w : world S) : world S :=
  if force_restart cfg && bool_decide (is_Some (fs w !! _progress_path (base_name cfg) lang_code))
  then emit (EvUnlink (_progress_path (base_name cfg) lang_code))
         (World (delete (_progress_path (base_name cfg) lang_code) (fs w)) (cstate w) (log w))
  else w.

(** *** The pieces of one batch

    [process_batch], cut at its effects: what is computed before the client
    is called, the state after the batch, and the checkpoint write. *)

Definition pending_of (cfg : config) (total : Z) (ls : loop_state) (start : Z) : list Z :=
  filter (fun idx => idx ∉ done_indices ls) (batch_range start (batch_size cfg) total).

Definition batch_prep (data : list pydict) (pending : list Z)
  : result (list pydict * list string) :=
  match mapR (data_item data) pending with
  | Err e => Err e
  | Ok items =>
      match mapR (fun '(idx, item) => source_text idx item) (zip pending items) with
      | Err e => Err e
      | Ok instrs => Ok (items, instrs)
      end
  end.

Definition batch_args (cfg : config) (lang_name : string) (instrs : list string)
    (missing : list nat) : call_args :=
  CallArgs ((fun i => instrs !!! i) <$> missing) lang_name (model cfg) (base_url cfg)
    (api_key cfg) (timeout cfg) (max_retries cfg).

Definition batch_apply (ls : loop_state) (pending : list Z) (items : list pydict)
    (merged : list json * pydict) : loop_state :=
  LoopState (commit_batch pending items merged.1 (done_indices ls) (out_items ls)).1
            merged.2
            (commit_batch pending items merged.1 (done_indices ls) (out_items ls)).2.

Definition checkpoint_of (cfg : config) (total : Z) (lang_code : string)
    (ls : loop_state) : json :=
  _build_progress_state cfg total lang_code (done_indices ls) (cache ls) (out_items ls).

(** The world after [_atomic_write_json path payload]. *)
Definition persisted {S} (path : string) (payload : json) (w : world S) : world S :=
  World (delete (tmp_path path) (<[path := payload]> (<[tmp_path path := payload]> (fs w))))
        (cstate w)
        (log w ++ [EvWrite (tmp_path path) payload; EvReplace (tmp_path path) path]).

Definition called {S} (args : call_args) (s' : S) (w : world S) : world S :=
  World (fs w) s' (log w ++ [EvCall args]).

(** The instruction lists of the client calls in a log, oldest first. *)
Definition calls_of (l : list event) : list (list string) :=
  omap (fun e => match e with EvCall a => Some (ca_instructions a) | _ => None end) l.

(** *** Invariants of the in-memory state *)

(** Done indices are positions of the dataset, the output array has one
    slot per record, and a done position holds an item. *)
Definition state_ok (total : Z) (ls : loop_state) : Prop :=
  (forall i, i ∈ done_indices ls -> 0 <= i < total) /\
  Z.of_nat (length (out_items ls)) = total /\
  (forall i, i ∈ done_indices ls ->
     exists it, out_items ls !! Z.to_nat i = Some it /\ is_none it = false).

(** [out] is a copy of [item] in which [instruction] was assigned. *)
Definition copy_with_translation (item : pydict) (out : json) : Prop :=
  exists t, out = JObj (dict_set "instruction" t item).

(** Every done position holds such a copy of its record. *)
Definition frame_ok (data : list pydict) (ls : loop_state) : Prop :=
  forall i, i ∈ done_indices ls ->
    exists item out,
      data !! Z.to_nat i = Some item /\ out_items ls !! Z.to_nat i = Some out /\
      copy_with_translation item out.

(** The cache has an entry for the instruction of every position that is
    done and was not done in [before]. *)
Definition cache_covers (data : list pydict) (before : gset Z) (ls : loop_state) : Prop :=
  forall i, i ∈ done_indices ls -> i ∉ before ->
    exists item s,
      data !! Z.to_nat i = Some item /\ instruction_of item = JStr s /\
      dict_has s (cache ls) = true.

(** How the translations of a batch came about: from the cache alone, or
    from an answer of the client merged into it. *)
Definition batch_outcome {S} (call_api : client S) (cfg : config) (lang_name : string)
    (ls : loop_state) (instrs : list string) (merged : list json * pydict) : Prop :=
  ((scan_cache (cache ls) 0 instrs).2 = [] /\
   merged = ((scan_cache (cache ls) 0 instrs).1, cache ls)) \/
  (exists s bt s',
      call_api s (batch_args cfg lang_name instrs (scan_cache (cache ls) 0 instrs).2)
        = (Ok bt, s') /\
      merged = merge_translations instrs (scan_cache (cache ls) 0 instrs).2 bt
                 (scan_cache (cache ls) 0 instrs).1 (cache ls)).

(** The events of the batch loop for the progress file [p]: client calls
    and checkpoint writes whose payload satisfies [P]. *)
Definition loop_event (p : string) (P : json -> Prop) (ev : event) : Prop :=
  match ev with
  | EvCall _ => True
  | EvWrite name payload => name = tmp_path p /\ P payload
  | EvReplace src dst => src = tmp_path p /\ dst = p
  | EvUnlink _ => False
  end.

(** Every position is done and holds an item. *)
Definition complete (total : Z) (ls : loop_state) : Prop :=
  (forall i, 0 <= i < total -> i ∈ done_indices ls) /\
  Forall (fun it => is_none it = false) (out_items ls).

(** The world after a successful [finalize]. *)
Definition finalized {S} (cfg : config) (lang_code : string) (ls : loop_state)
    (w : world S) : world S :=
  World (delete (_progress_path (base_name cfg) lang_code)
           (<[output_path (base_name cfg) lang_code := JArr (out_items ls)]> (fs w)))
        (cstate w)
        (log w ++
           EvWrite (output_path (base_name cfg) lang_code) (JArr (out_items ls)) ::
           (if bool_decide (is_Some (<[output_path (base_name cfg) lang_code
                                        := JArr (out_items ls)]> (fs w)
                                     !! _progress_path (base_name cfg) lang_code))
            then [EvUnlink (_progress_path (base_name cfg) lang_code)] else [])).

(** In a list of events, the progress file is removed only as the very
    first event of a forced restart or after the output file was written
    with a complete array. *)
Definition unlink_only_after_output (cfg : config) (lang_code : string) (total : Z)
    (evs : list event) : Prop :=
  forall pre post,
    evs = pre ++ EvUnlink (_progress_path (base_name cfg) lang_code) :: post ->
    (pre = [] /\ force_restart cfg = true) \/
    (exists items,
        EvWrite (output_path (base_name cfg) lang_code) (JArr items) ∈ pre /\
        Z.of_nat (length items) = total /\
        Forall (fun it => is_none it = false) items).

(** The claim without the forced restart: removed only after the output. *)
Definition unlink_strictly_after_output (cfg : config) (lang_code : string)
    (evs : list event) : Prop :=
  forall pre post,
    evs = pre ++ EvUnlink (_progress_path (base_name cfg) lang_code) :: post ->
    exists payload, EvWrite (output_path (base_name cfg) lang_code) payload ∈ pre.

(** What the design document asks of a persisted progress state, for the
    dataset [data] and the positions [before] that were done when the run
    started. *)
Definition progress_payload_ok (data : list pydict) (before : gset Z) (payload : json)
  : Prop :=
  exists fields dl c items,
    payload = JObj fields /\
    dict_get "done_indices" fields = Some (JArr (JNum <$> dl)) /\
    dict_get "cache" fields = Some (JObj c) /\
    dict_get "items" fields = Some (JArr items) /\
    Sorted Z.le dl /\ NoDup dl /\
    (forall i, i ∈ dl -> 0 <= i < Z.of_nat (length data)) /\
    length items = length data /\
    (forall i, i ∈ dl ->
       exists it, items !! Z.to_nat i = Some it /\ is_none it = false) /\
    (forall i, i ∈ dl -> i ∉ before ->
       exists item s,
         data !! Z.to_nat i = Some item /\ instruction_of item = JStr s /\
         dict_has s c = true).

(** The record with [instruction] set to the empty string when it has no
    such key. *)
Definition with_empty_instruction (item : pydict) : pydict :=
  match dict_get "instruction" item with
  | Some _ => item
  | None => item ++ [("instruction", JStr "")]
  end.

(** *** Runs with a deterministic client

    A client is deterministic when its answer is a function [f] of the
    request; a client with injected failures gives that answer or raises. *)

Definition answers {S} (f : call_args -> result (list json)) (cl : client S) : Prop :=
  forall s args, (cl s args).1 = f args.

Definition answers_or_raises {S} (f : call_args -> result (list json)) (cl : client S)
  : Prop :=
  forall s args, (cl s args).1 = f args \/ exists e, (cl s args).1 = Err e.

(** The state after one batch, as a function of the state before it, when
    the client answers by [f]. *)
Definition pure_batch (f : call_args -> result (list json)) (cfg : config)
    (data : list pydict) (lang_name : string) (total : Z) (ls : loop_state) (start : Z)
  : result loop_state :=
  match pending_of cfg total ls start with
  | [] => Ok ls
  | _ :: _ =>
      match batch_prep data (pending_of cfg total ls start) with
      | Err e => Err e
      | Ok (items, instrs) =>
          match (scan_cache (cache ls) 0 instrs).2 with
          | [] =>
              Ok (batch_apply ls (pending_of cfg total ls start) items
                    ((scan_cache (cache ls) 0 instrs).1, cache ls))
          | _ :: _ =>
              match f (batch_args cfg lang_name instrs (scan_cache (cache ls) 0 instrs).2) with
              | Err e => Err e
              | Ok bt =>
                  Ok (batch_apply ls (pending_of cfg total ls start) items
                        (merge_translations instrs (scan_cache (cache ls) 0 instrs).2 bt
                           (scan_cache (cache ls) 0 instrs).1 (cache ls)))
              end
          end
      end
  end.

Fixpoint pure_loop (f : call_args -> result (list json)) (cfg : config)
    (data : list pydict) (lang_name : string) (total : Z) (starts : list Z)
    (ls : loop_state) : result loop_state :=
  match starts with
  | [] => Ok ls
  | start :: rest =>
      match pure_batch f cfg data lang_name total ls start with
      | Err e => Err e
      | Ok ls' => pure_loop f cfg data lang_name total rest ls'
      end
  end.

(** The output array of a language's run from the files [files], when the
    client answers by [f]. *)
Definition lang_result {PY : PyRuntime} (f : call_args -> result (list json))
    (cfg : config) (data : list pydict) (lang_code : string)
    (files : gmap string json) : result (list json) :=
  match lang_name_of lang_code DEFAULT_LANGS with
  | None => Err (KeyError lang_code)
  | Some lang_name =>
      match start_state cfg data lang_code (Z.of_nat (length data)) files with
      | Err e => Err e
      | Ok ls0 =>
          match pure_loop f cfg data lang_name (Z.of_nat (length data))
                  (range_step (Z.of_nat (length data)) (batch_size cfg)) ls0 with
          | Err e => Err e
          | Ok ls =>
              if negb (Z.of_nat (size (done_indices ls)) =? Z.of_nat (length data))
                 || existsb is_none (out_items ls)
              then Err (IncompleteRun (Z.of_nat (size (done_indices ls)))
                          (Z.of_nat (length data)))
              else Ok (out_items ls)
          end
      end
  end.

(** Two maps of files agree outside the names in [names]. *)
Definition same_outside (names : list string) (files files' : gmap string json) : Prop :=
  forall x, x ∉ names -> files' !! x = files !! x.

(** A run that resumes ([resume] set, no forced restart) would start from
    [ls] when it found the files [files]. *)
Definition reloads {PY : PyRuntime} (cfg : config) (data : list pydict)
    (lang_code : string) (total : Z) (files : gmap string json) (ls : loop_state) : Prop :=
  resume cfg = true -> force_restart cfg = false ->
  start_state cfg data lang_code total files = Ok ls.

(** The output of a language's run that finds no progress file. *)
Definition fresh_result {PY : PyRuntime} (f : call_args -> result (list json))
    (cfg : config) (data : list pydict) (lang_code : string) : result (list json) :=
  lang_result f cfg data lang_code ∅.

(** What the committed triples have to satisfy, and the invariant they
    preserve: [state_ok] and [frame_ok] on the pair of the done set and the
    output array. *)
Definition triple_ok (data : list pydict) (total : Z) (p : Z * pydict * json) : Prop :=
  0 <= p.1.1 < total /\ data !! Z.to_nat p.1.1 = Some p.1.2.

Definition pair_ok (total : Z) (acc : gset Z * list json) : Prop :=
  state_ok total (LoopState acc.1 [] acc.2).

Definition pair_frame (data : list pydict) (total : Z) (acc : gset Z * list json) : Prop :=
  pair_ok total acc /\ frame_ok data (LoopState acc.1 [] acc.2).

(** A payload that is the checkpoint of a state satisfying [J], and the
    lists of events of a batch loop whose checkpoints are of that kind. *)
Definition checkpoint_with (cfg : config) (lang_code : string) (total : Z)
    (J : loop_state -> Prop) (payload : json) : Prop :=
  exists ls, J ls /\ payload = checkpoint_of cfg total lang_code ls.

Definition loop_events (cfg : config) (lang_code : string) (total : Z)
    (J : loop_state -> Prop) (evs : list event) : Prop :=
  Forall (loop_event (_progress_path (base_name cfg) lang_code)
            (checkpoint_with cfg lang_code total J)) evs.

(** A language code of the table, and the file names its run touches. *)
Definition known (l : string) : Prop := is_Some (lang_name_of l DEFAULT_LANGS).

Definition touched (b l : string) : list string :=
  [_progress_path b l; tmp_path (_progress_path b l); output_path b l].

(** The positions that are done when a run starts from [files]. *)
Definition done_at_start {PY : PyRuntime} (cfg : config) (data : list pydict)
    (lang_code : string) (files : gmap string json) : gset Z :=
  match start_state cfg data lang_code (Z.of_nat (length data)) files with
  | Ok ls0 => done_indices ls0
  | Err _ => ∅
  end.

(** ** Sample inputs *)

(** A stand-in for the two Python built-ins, for evaluating examples: no
    string converts to an integer, and nothing is stripped. *)
Definition plain_runtime : PyRuntime :=
  {| py_int_of_str := fun _ => None; py_strip := fun s => s |}.

Definition sample_config : config :=
  Config "/abs/source.json" "source" "m" "https://example.com/v1" "k" 2 1 1 true false.

(** [sample_config] with [--force-restart]. *)
Definition restart_config : config :=
  Config "/abs/source.json" "source" "m" "https://example.com/v1" "k" 2 1 1 true true.

Definition sample_args (instructions : list string) (retries : Z) : call_args :=
  CallArgs instructions "Russian" "m" "https://example.com/v1" "k" 60 retries.

(** An endpoint that answers every request with HTTP 503. *)
Definition always_503 : endpoint unit :=
  Endpoint unit (fun _ _ => (Response 503 BodyEmpty, tt)).

(** An endpoint whose first request times out and whose later requests
    are answered with HTTP 429; the state counts the requests. *)
Definition timeout_then_429 : endpoint nat :=
  Endpoint nat (fun n _ =>
    (match n with
     | O => PostRaises (TransportError "timed out")
     | _ => Response 429 BodyEmpty
     end, S n)).

Definition prefix_answer (args : call_args) : result (list json) :=
  Ok ((fun x => JStr (ca_lang_name args +:+ ":" +:+ x)) <$> ca_instructions args).

(** A client that answers every instruction with the language name, a
    colon and the instruction; its state counts the calls. *)
Definition prefix_client : client nat :=
  fun n args =>
    (Ok ((fun x => JStr (ca_lang_name args +:+ ":" +:+ x)) <$> ca_instructions args), S n).

(** A client whose every call raises. *)
Definition failing_client : client nat :=
  fun n _ => (Err (MockError "simulated timeout"), S n).

Definition flaky_client : client nat :=
  fun n args =>
    if Nat.eqb n 1 then (Err (MockError "simulated timeout"), S n)
    else prefix_client n args.

Definition positional_client : client nat :=
  fun n args =>
    (Ok (imap (fun i x => JStr (x +:+ match i with O => "-1" | _ => "-2" end))
           (ca_instructions args)), S n).

(** A dataset of one record. *)
Definition one_record : list pydict := [[("instruction", JStr "x")]].

(** Two records with the same instruction, and a client whose answer
    depends on the position in the request. *)
Definition two_same : list pydict :=
  [ [("index", JStr "s0"); ("instruction", JStr "a")];
    [("index", JStr "s1"); ("instruction", JStr "a")] ].

(** The scenario of the script's test: five records, and a client whose
    second call raises. *)
Definition numbered_record (i : string) : pydict :=
  [ ("index", JStr ("sample_" +:+ i)); ("category", JStr "temporal_reasoning");
    ("instruction", JStr ("instruction " +:+ i)); ("image", JStr ("img_" +:+ i +:+ ".png"));
    ("reference", JStr "ref"); ("subtask", JStr "Life Progression") ].

Definition five_records : list pydict :=
  numbered_record <$> ["0"; "1"; "2"; "3"; "4"].

(** A progress file for one record whose [done_indices] repeats an index
    and whose [cache] maps a string to a number. *)
Definition lenient_fields : pydict :=
  [ ("version", JNum 1); ("source_path", JStr "/abs/source.json");
    ("source_size", JNum 1); ("model", JStr "m");
    ("base_url", JStr "https://example.com/v1"); ("lang_code", JStr "ru");
    ("done_indices", JArr [JNum 0; JNum 0]);
    ("cache", JObj [("a", JNum 1)]);
    ("items", JArr [JObj [("instruction", JStr "x")]]) ].

(** A progress file for [one_record] written under another model name. *)
Definition other_model_fields : pydict :=
  [ ("version", JNum 1); ("source_path", JStr "/abs/source.json");
    ("source_size", JNum 1); ("model", JStr "A");
    ("base_url", JStr "https://example.com/v1"); ("lang_code", JStr "ru");
    ("done_indices", JArr []);
    ("cache", JObj []);
    ("items", JArr [JNull]) ].

(** An output directory that holds a progress file for Russian. *)
Definition stale_files : gmap string json :=
  {[ ".translate_progress_source_ru.json" := JObj other_model_fields ]}.

(** A source file before and after an edit of its first record, and
    [sample_config] with batches of one record. *)
Definition before_edit : list pydict :=
  [ [("index", JStr "s0"); ("instruction", JStr "a")];
    [("index", JStr "s1"); ("instruction", JStr "b")] ].

Definition after_edit : list pydict :=
  [ [("index", JStr "s0-fixed"); ("instruction", JStr "a")];
    [("index", JStr "s1"); ("instruction", JStr "b")] ].

Definition single_config : config :=
  Config "/abs/source.json" "source" "m" "https://example.com/v1" "k" 1 1 1 true false.

(** ** Further notions: requests, pointwise clients, attempts *)

(** The requests of the client calls in a log, oldest first. *)
Definition call_log (l : list event) : list call_args :=
  omap (fun e => match e with EvCall a => Some a | _ => None end) l.

(** The cache a run starts from when it finds [files]. *)
Definition cache_at_start {PY : PyRuntime} (cfg : config) (data : list pydict)
    (lang_code : string) (files : gmap string json) : pydict :=
  match start_state cfg data lang_code (Z.of_nat (length data)) files with
  | Ok ls0 => cache ls0
  | Err _ => []
  end.

(** A request as a run for [lang_code] makes it: the configuration of the
    run, the display name of the language, and a list of instructions that
    is not empty and holds only instructions that are no key of the cache
    [c] and belong to a record at a position outside [before]. *)
Definition request_of_run (cfg : config) (data : list pydict) (lang_code : string)
    (before : gset Z) (c : pydict) (args : call_args) : Prop :=
  lang_name_of lang_code DEFAULT_LANGS = Some (ca_lang_name args) /\
  ca_model args = model cfg /\ ca_base_url args = base_url cfg /\
  ca_api_key args = api_key cfg /\ ca_timeout args = timeout cfg /\
  ca_max_retries args = max_retries cfg /\
  ca_instructions args <> [] /\
  forall s, s ∈ ca_instructions args ->
    dict_has s c = false /\
    exists i item,
      data !! i = Some item /\ instruction_of item = JStr s /\ Z.of_nat i ∉ before.

(** No string occurs in two lists of [cs]. *)
Definition disjoint_calls (cs : list (list string)) : Prop :=
  forall i j a b s, (i < j)%nat -> cs !! i = Some a -> cs !! j = Some b ->
    s ∈ a -> s ∉ b.

(** The state [ls] of a run that started from [ls0]: what was done stays
    done with the item it had, and the cache loses no key. *)
Definition advanced (ls0 ls : loop_state) : Prop :=
  done_indices ls0 ⊆ done_indices ls /\
  (forall s, dict_has s (cache ls0) = true -> dict_has s (cache ls) = true) /\
  (forall i, i ∈ done_indices ls0 ->
     out_items ls !! Z.to_nat i = out_items ls0 !! Z.to_nat i).

(** A client that translates every instruction on its own: whenever it
    answers, the answer to the instruction [s] for the language [name] is
    [g name s], wherever [s] stands in the request. *)
Definition pointwise {S} (g : string -> string -> json) (cl : client S) : Prop :=
  forall s args l, (cl s args).1 = Ok l ->
    l = g (ca_lang_name args) <$> ca_instructions args.

(** The instruction of a record as a string; the empty string when it is
    absent or no string. *)
Definition instruction_text (item : pydict) : string :=
  match instruction_of item with JStr s => s | _ => "" end.

(** The record with its instruction translated by [g]. *)
Definition translated_record (g : string -> string -> json) (lang_name : string)
    (item : pydict) : json :=
  JObj (dict_set "instruction" (g lang_name (instruction_text item)) item).

(** A state whose done positions hold the record translated by [g] and
    whose cache maps an instruction to its translation by [g]. *)
Definition exact_state (g : string -> string -> json) (lang_name : string)
    (data : list pydict) (ls : loop_state) : Prop :=
  state_ok (Z.of_nat (length data)) ls /\
  (forall i, i ∈ done_indices ls ->
     exists item,
       data !! Z.to_nat i = Some item /\
       out_items ls !! Z.to_nat i = Some (translated_record g lang_name item)) /\
  (forall s t, dict_get s (cache ls) = Some t -> t = g lang_name s).

(** *** What the client answered

    The world logs the requests of a run, and the client's state changes
    by its calls only: the answers of a run are those of the client to the
    logged requests, made one after the other from the state the run found
    the client in. *)

Fixpoint transcript {S} (cl : client S) (st : S) (cs : list call_args)
  : list (call_args * result (list json)) :=
  match cs with
  | [] => []
  | args :: cs' => (args, (cl st args).1) :: transcript cl (cl st args).2 cs'
  end.

Fixpoint state_after {S} (cl : client S) (st : S) (cs : list call_args) : S :=
  match cs with
  | [] => st
  | args :: cs' => state_after cl (cl st args).2 cs'
  end.

(** [t] is what the client answered for the instruction [s]: one of the
    requests [cs], made for the language [lang_name], holds [s] at some
    position, and the answer to it holds [t] at that position. *)
Definition answered {S} (cl : client S) (st : S) (cs : list call_args)
    (lang_name s : string) (t : json) : Prop :=
  exists j args bt k,
    transcript cl st cs !! j = Some (args, Ok bt) /\
    ca_lang_name args = lang_name /\
    ca_instructions args !! k = Some s /\
    bt !! k = Some t.

(** The translation of [s] in a run that started with the cache [c0] and
    made the requests [cs]: the entry of [c0] for [s], or what the client
    answered for [s]. *)
Definition translation {S} (cl : client S) (st : S) (cs : list call_args) (c0 : pydict)
    (lang_name s : string) (t : json) : Prop :=
  dict_get s c0 = Some t \/ answered cl st cs lang_name s t.

(** The positions that [ls] has done beyond those in [before] hold the
    record with [instruction] set to its translation. *)
Definition translated_since {S} (cl : client S) (st : S) (cs : list call_args)
    (c0 : pydict) (lang_name : string) (data : list pydict) (before : gset Z)
    (ls : loop_state) : Prop :=
  forall i, i ∈ done_indices ls -> i ∉ before ->
    exists item s t,
      data !! Z.to_nat i = Some item /\ instruction_of item = JStr s /\
      out_items ls !! Z.to_nat i = Some (JObj (dict_set "instruction" t item)) /\
      translation cl st cs c0 lang_name s t.

(** Every entry of the cache of [ls] is a translation. *)
Definition cache_sound {S} (cl : client S) (st : S) (cs : list call_args)
    (c0 : pydict) (lang_name : string) (ls : loop_state) : Prop :=
  forall s t, dict_get s (cache ls) = Some t -> translation cl st cs c0 lang_name s t.

(** The instruction of every record is a string, or absent. *)
Definition string_instructions (data : list pydict) : Prop :=
  forall item, item ∈ data -> exists s, instruction_of item = JStr s.

(** The client answers every request. *)
Definition always_answers {S} (cl : client S) : Prop :=
  forall st args, is_ok (cl st args).1 = true.

(** *** The attempts of a call *)

(** The answers of the endpoint to [n] successive requests from the
    state [st]. *)
Fixpoint post_trace {N} (ep : endpoint N) (args : call_args) (n : nat) (st : N)
  : list attempt_outcome :=
  match n with
  | O => []
  | S n' => (post ep st args).1 :: post_trace ep args n' (post ep st args).2
  end.

(** The exception an attempt ends with, if it ends with one: a transient
    status is retried without an exception, and a decoded answer ends the
    call. *)
Definition attempt_error (n_instr : nat) (out : attempt_outcome) : option error :=
  match out with
  | PostRaises e => Some e
  | Response status_code body =>
      if transient_status status_code then None
      else match decode_response n_instr status_code body with
           | Ok _ => None
           | Err e => Some e
           end
  end.

(** The attempt gives the translations. *)
Definition attempt_succeeds (n_instr : nat) (out : attempt_outcome) : bool :=
  match out with
  | PostRaises _ => false
  | Response status_code body =>
      negb (transient_status status_code) &&
      is_ok (decode_response n_instr status_code body)
  end.

(** The last exception in a list of attempts, [last] when there is none. *)
Definition last_raised (n_instr : nat) (last : option error)
    (outs : list attempt_outcome) : option error :=
  fold_left (fun acc out => match attempt_error n_instr out with
                            | Some e => Some e
                            | None => acc
                            end) outs last.

(** The delays after the attempts [1] to [n], in half seconds. *)
Definition backoff (n : nat) : list Z :=
  (fun attempt => 3 * attempt) <$> seqZ 1 (Z.of_nat n).

(** ** The reply: [_strip_code_fence]

    [str.strip] and [str.splitlines] go by code point, so the text of a
    reply is taken as the list of its code points. *)

Abbreviation text := (list N).

(** [str.isspace] on one character, which is what [str.strip()] removes:
    the characters of bidirectional type WS, B or S and of category Zs. *)
Definition is_space (c : N) : bool :=
  ((9 <=? c) && (c <=? 13) || (28 <=? c) && (c <=? 32) ||
   (c =? 133) || (c =? 160) || (c =? 5760) ||
   (8192 <=? c) && (c <=? 8202) ||
   (c =? 8232) || (c =? 8233) || (c =? 8239) || (c =? 8287) || (c =? 12288))%N.

(** The line boundaries of [str.splitlines]: LF, VT, FF, CR, FS, GS, RS,
    NEL, LS and PS; CR LF counts as one. *)
Definition is_linebreak (c : N) : bool :=
  ((10 <=? c) && (c <=? 13) || (28 <=? c) && (c <=? 30) ||
   (c =? 133) || (c =? 8232) || (c =? 8233))%N.

Fixpoint lstrip (s : text) : text :=
  match s with
  | c :: s' => if is_space c then lstrip s' else s
  | [] => []
  end.

Definition rstrip (s : text) : text := rev (lstrip (rev s)).

(** [s.strip()] *)
Definition strip (s : text) : text := rstrip (lstrip s).

(** [s.startswith(p)] *)
Fixpoint startswith (p s : text) : bool :=
  match p, s with
  | [], _ => true
  | _ :: _, [] => false
  | a :: p', b :: s' => (a =? b)%N && startswith p' s'
  end.

(** [s.splitlines()]: [cur] is the line read so far.  A line ends at a
    line boundary; what follows the last boundary is a line when it is not
    empty. *)
Fixpoint splitlines_from (cur s : text) : list text :=
  match s with
  | [] => match cur with [] => [] | _ :: _ => [cur] end
  | c :: s' =>
      if is_linebreak c then
        cur :: match s' with
               | c' :: s'' =>
                   if ((c =? 13) && (c' =? 10))%N then splitlines_from [] s''
                   else splitlines_from [] s'
               | [] => []
               end
      else splitlines_from (cur ++ [c]) s'
  end.

Definition splitlines (s : text) : list text := splitlines_from [] s.

(** [sep.join(lines)] *)
Fixpoint join (sep : text) (lines : list text) : text :=
  match lines with
  | [] => []
  | [l] => l
  | l :: rest => l ++ sep ++ join sep rest
  end.

(** Three backquotes, and the line feed. *)
Definition fence : text := [96; 96; 96]%N.
Definition LF : text := [10]%N.

Definition _strip_code_fence (t : text) : text :=
  let stripped := strip t in
  if startswith fence stripped then
    let lines := splitlines stripped in
    let lines :=
      match lines with
      | first :: rest => if startswith fence first then rest else lines
      | [] => lines
      end in
    let lines :=
      match last lines with
      | Some final => if startswith fence final then removelast lines else lines
      | None => lines
      end in
    strip (join LF lines)
  else stripped.

(** A text without line boundary, and a text of white space only. *)
Definition no_linebreak (l : text) : Prop := Forall (fun c => is_linebreak c = false) l.
Definition all_space (l : text) : Prop := Forall (fun c => is_space c = true) l.

(** ** Further sample inputs *)

(** The world the run of the script's test is left in by the client whose
    second call raises, and the state the next run loads from it. *)
Definition interrupted_run : world nat :=
  (@translate_lang plain_runtime nat flaky_client sample_config five_records "ru"
     (World ∅ 0%nat [])).2.

Definition interrupted_state : loop_state :=
  match @start_state plain_runtime sample_config five_records "ru" 5 (fs interrupted_run) with
  | Ok ls => ls
  | Err _ => fresh_state five_records
  end.

(** A progress file for [one_record] in which the record is done. *)
Definition finished_state : loop_state :=
  LoopState {[0]} [("x", JStr "Russian:x")] [JObj [("instruction", JStr "Russian:x")]].

Definition finished_files : gmap string json :=
  {[ ".translate_progress_source_ru.json" := checkpoint_of sample_config 1 "ru" finished_state ]}.

(** Two records, the first without an [instruction]. *)
Definition unlabelled_record : pydict := [("index", JStr "s0")].

Definition unlabelled_records : list pydict :=
  [ unlabelled_record; [("index", JStr "s1"); ("instruction", JStr "x")] ].

(** The translation of the substitute client of the test: the language
    name, a colon and the instruction. *)
Definition colon_translation (lang_name s : string) : json :=
  JStr (lang_name +:+ ":" +:+ s).

(** The reply [ ```json\n["a"]\n``` ] with a blank before and after it, and
    its parts. *)
Definition json_tag : text := [106; 115; 111; 110]%N.
Definition array_of_a : text := [91; 34; 97; 34; 93]%N.
Definition fenced_reply : text :=
  ([32] ++ join LF [fence ++ json_tag; array_of_a; fence] ++ [32])%N.

(** * Properties *)

(** ** The translation client *)

Lemma decode_response_length n c b l :
  decode_response n c b = Ok l -> length l = n.
Proof.
  unfold decode_response.
  destruct (raise_for_status c); [|discriminate].
  destruct b as [e| |j]; try discriminate.
  destruct j; try discriminate.
  destruct (Nat.eqb (length l0) n) eqn:E; [|discriminate].
  intros [= <-]. by apply Nat.eqb_eq.
Qed.

(** Every call ends in one of two ways: a list as long as the request, or
    [TranslationFailure] after exactly [max_retries] requests. *)
Lemma attempts_loop_contract {N} (ep : endpoint N) args remaining attempt last s :
  (exists l, (attempts_loop ep args remaining attempt last s).1 = Ok l /\
             length l = length (ca_instructions args)) \/
  (exists last',
      (attempts_loop ep args remaining attempt last s).1
        = Err (TranslationFailure (ca_max_retries args) last') /\
      net_posts (attempts_loop ep args remaining attempt last s).2
        = (net_posts s + remaining)%nat).
Proof.
  revert attempt last s.
  induction remaining as [|r IH]; intros attempt last s; simpl.
  - right. exists last. split; [done|lia].
  - destruct (post ep (net_state s) args) as [out n'].
    destruct out as [e|c b].
    + destruct (IH (attempt + 1) (Some e)
                  (Net n' (net_slept s ++ [3 * attempt]) (S (net_posts s))))
        as [Hok|(l' & H1 & H2)]; [by left|].
      right. exists l'. split; [done|]. rewrite H2. simpl. lia.
    + destruct (transient_status c).
      * destruct (IH (attempt + 1) last
                    (Net n' (net_slept s ++ [3 * attempt]) (S (net_posts s))))
          as [Hok|(l' & H1 & H2)]; [by left|].
        right. exists l'. split; [done|]. rewrite H2. simpl. lia.
      * destruct (decode_response _ c b) as [l|e] eqn:E.
        -- left. exists l. split; [done|]. by eapply decode_response_length.
        -- destruct (IH (attempt + 1) (Some e)
                      (Net n' (net_slept s ++ [3 * attempt]) (S (net_posts s))))
             as [Hok|(l' & H1 & H2)]; [by left|].
           right. exists l'. split; [done|]. rewrite H2. simpl. lia.
Qed.

Lemma call_api_batch_contract {N} (ep : endpoint N) s args :
  (exists l, (call_api_batch ep s args).1 = Ok l /\
             length l = length (ca_instructions args)) \/
  (exists last,
      (call_api_batch ep s args).1 = Err (TranslationFailure (ca_max_retries args) last) /\
      net_posts (call_api_batch ep s args).2
        = (net_posts s + Z.to_nat (ca_max_retries args))%nat).
Proof. apply attempts_loop_contract. Qed.

Lemma api_client_length_contract {N} (ep : endpoint N) :
  length_contract (api_client ep).
Proof.
  intros s args l H. unfold api_client in H.
  destruct (call_api_batch_contract ep s args) as [(l' & H1 & H2)|(e & H1 & _)];
    congruence.
Qed.

(** C5.  The client returns a list as long as its input or raises after
    [max_retries] attempts, but the error it raises does not always carry
    the last failure: an attempt that ends with a transient HTTP status is
    retried without being recorded.  When every attempt is answered with
    503 the failure carries no error at all, and when a time-out is
    followed by a 429 it carries the time-out. *)
Theorem call_api_batch_forgets_transient_status :
  (call_api_batch always_503 (Net tt [] 0) (sample_args ["a"] 2)).1
    = Err (TranslationFailure 2 None) /\
  (call_api_batch timeout_then_429 (Net 0%nat [] 0) (sample_args ["a"] 2)).1
    = Err (TranslationFailure 2 (Some (TransportError "timed out"))).
Proof. split; reflexivity. Qed.

(** ** Validation of a loaded progress state *)

Lemma filter_nil_iff {A} (f : A -> bool) (l : list A) :
  List.filter f l = [] <-> forall x, x ∈ l -> f x = false.
Proof.
  induction l as [|a l IH]; simpl.
  - split; [intros _ x Hx; inversion Hx|done].
  - destruct (f a) eqn:E.
    + split; [done|]. intros H. specialize (H a (list_elem_of_here _ _)). congruence.
    + rewrite IH. split.
      * intros H x Hx. apply elem_of_cons in Hx as [->|Hx]; auto.
      * intros H x Hx. apply H. by right.
Qed.

Lemma run_key_mismatches_elem st cfg total lang key value :
  (key, value) ∈ expected_run_key cfg total lang ->
  py_ne (dict_get key st) value = true ->
  key ∈ run_key_mismatches st cfg total lang.
Proof.
  intros Hin Hne. unfold run_key_mismatches.
  apply list_elem_of_fmap. exists (key, value). split; [done|].
  apply list_elem_of_In, filter_In. split; [by apply list_elem_of_In|done].
Qed.

Lemma validate_mismatch {PY : PyRuntime} st cfg total lang :
  run_key_mismatches st cfg total lang <> [] ->
  _validate_progress_state (JObj st) cfg total lang
    = Err (ProgressMismatch (run_key_mismatches st cfg total lang)).
Proof.
  intros H. unfold _validate_progress_state.
  destruct (run_key_mismatches st cfg total lang); [congruence|done].
Qed.

Lemma existsb_elem {A} (f : A -> bool) (l : list A) :
  existsb f l = true <-> exists x, x ∈ l /\ f x = true.
Proof.
  rewrite existsb_exists. split; intros (x & H1 & H2); exists x; split; auto;
    by apply list_elem_of_In.
Qed.

Lemma existsb_false_elem {A} (f : A -> bool) (l : list A) :
  existsb f l = false <-> forall x, x ∈ l -> f x = false.
Proof.
  split.
  - intros H x Hx. destruct (f x) eqn:E; [|done].
    assert (existsb f l = true) by (apply existsb_elem; eauto). congruence.
  - intros H. destruct (existsb f l) eqn:E; [|done].
    apply existsb_elem in E as (x & Hx & Hf). rewrite H in Hf; done.
Qed.

Lemma world_eta {S} (w : world S) : World (fs w) (cstate w) (log w) = w.
Proof. by destruct w. Qed.

Lemma init_state_spec {PY : PyRuntime} {S} cfg data lang total (w : world S) :
  init_state (S:=S) cfg data lang total w
  = (start_state cfg data lang total (fs w), after_restart cfg lang w).
Proof.
  unfold init_state, start_state, after_restart, bind, file_exists, ret, unlink,
    _load_progress_state, lift.
  set (p := _progress_path (base_name cfg) lang).
  destruct (force_restart cfg); cbn [andb].
  - destruct (bool_decide (is_Some (fs w !! p))) eqn:E; cbn [fs emit].
    + rewrite lookup_delete_eq.
      rewrite bool_decide_eq_false_2 by (intros [? ?]; done).
      by rewrite andb_false_r.
    + rewrite E. by rewrite andb_false_r.
  - destruct (resume cfg); cbn [andb]; [|done].
    destruct (fs w !! p) as [c|] eqn:E.
    + rewrite bool_decide_eq_true_2 by eauto. by rewrite E.
    + rewrite bool_decide_eq_false_2 by (intros [? ?]; done). done.
Qed.

(** C4.  When a field of the run key stored in the progress file differs
    (in Python's sense of [!=]) from the one of the current run, validation
    raises [ProgressMismatch] naming that field, and a run that loads this
    file stops with that error leaving the world as it found it: no client
    call, no file written or removed. *)
Theorem mismatch_rejected_without_calls {PY : PyRuntime} {S} (call_api : client S) cfg data
    lang lang_name st key value (w : world S) :
  resume cfg = true ->
  force_restart cfg = false ->
  lang_name_of lang DEFAULT_LANGS = Some lang_name ->
  fs w !! _progress_path (base_name cfg) lang = Some (JObj st) ->
  (key, value) ∈ expected_run_key cfg (Z.of_nat (length data)) lang ->
  py_ne (dict_get key st) value = true ->
  exists fields,
    key ∈ fields /\
    _validate_progress_state (JObj st) cfg (Z.of_nat (length data)) lang
      = Err (ProgressMismatch fields) /\
    translate_lang call_api cfg data lang w = (Err (ProgressMismatch fields), w).
Proof.
  intros Hres Hforce Hname Hfile Hin Hne.
  pose proof (run_key_mismatches_elem st cfg _ lang key value Hin Hne) as Hkey.
  assert (run_key_mismatches st cfg (Z.of_nat (length data)) lang <> []) as Hnil.
  { intros E. rewrite E in Hkey. inversion Hkey. }
  exists (run_key_mismatches st cfg (Z.of_nat (length data)) lang).
  split; [done|]. split; [by apply validate_mismatch|].
  unfold translate_lang. rewrite Hname.
  unfold bind at 1. rewrite init_state_spec.
  unfold start_state, after_restart. rewrite Hres, Hforce, Hfile.
  by rewrite validate_mismatch.
Qed.

(** ** Configuration errors *)

(** C9.  With a batch size, time-out or retry count that is not positive,
    or with a language code that the table does not know, [main] ends in a
    configuration error and leaves the world as it found it: no client
    call, no progress file, no output, for any language.  The three numbers
    are checked by [translate_dataset] itself, before its loop over the
    languages. *)
Theorem config_errors_before_any_work {PY : PyRuntime} {S} (call_api : client S) env_key
    args arg_langs data langs (w : world S) :
  batch_size args <= 0 \/ timeout args <= 0 \/ max_retries args <= 0 \/
  (exists code, code ∈ parse_langs arg_langs /\ known_lang code = false) ->
  (exists msg, main call_api env_key args arg_langs data w = (Err (ConfigError msg), w)) /\
  (batch_size args <= 0 \/ timeout args <= 0 \/ max_retries args <= 0 ->
   exists msg, translate_dataset call_api args data langs w = (Err (ConfigError msg), w)).
Proof.
  intros H. split.
  - unfold main.
    destruct env_key as [key|]; [|by eexists].
    destruct (nonempty key); simpl; [|by eexists].
    destruct (List.filter _ (parse_langs arg_langs)) as [|u us] eqn:Hunk; [|by eexists].
    unfold translate_dataset. simpl.
    destruct (Z.leb_spec (batch_size args) 0); [by eexists|].
    destruct (Z.leb_spec (timeout args) 0); [by eexists|].
    destruct (Z.leb_spec (max_retries args) 0); [by eexists|].
    destruct H as [H|[H|[H|(code & Hin & Hk)]]]; try lia.
    pose proof (proj1 (filter_nil_iff _ _) Hunk code Hin) as Hf.
    cbv beta in Hf. rewrite Hk in Hf. done.
  - intros Hnum. unfold translate_dataset.
    destruct (Z.leb_spec (batch_size args) 0); [by eexists|].
    destruct (Z.leb_spec (timeout args) 0); [by eexists|].
    destruct (Z.leb_spec (max_retries args) 0); [by eexists|].
    lia.
Qed.

(** ** Shape of a loaded progress state *)

Lemma elem_of_elements_list_to_set (ints : list Z) (i : Z) :
  i ∈ elements (list_to_set ints : gset Z) <-> i ∈ ints.
Proof. rewrite elem_of_elements. apply elem_of_list_to_set. Qed.

(** C7, as the code has it.  For a progress state whose run key matches
    and whose [done_indices] entries can all be converted by [int],
    validation raises [InvalidProgressShape] whenever [items] is not a list
    of [total] elements, [done_indices] is not a list, a done index lies
    outside [0, total), a done index has a null item, or [cache] is not an
    object. *)
Theorem shape_faults_rejected {PY : PyRuntime} st cfg total lang :
  run_key_mismatches st cfg total lang = [] ->
  (forall l, dict_get "done_indices" st = Some (JArr l) -> is_ok (mapR py_int l) = true) ->
  (forall its, dict_get "items" st = Some (JArr its) -> Z.of_nat (length its) <> total) \/
  (forall l, dict_get "done_indices" st <> Some (JArr l)) \/
  (exists l ints i,
      dict_get "done_indices" st = Some (JArr l) /\ mapR py_int l = Ok ints /\
      i ∈ ints /\ (i < 0 \/ total <= i)) \/
  (exists l ints its i,
      dict_get "done_indices" st = Some (JArr l) /\ mapR py_int l = Ok ints /\
      dict_get "items" st = Some (JArr its) /\
      i ∈ ints /\ its !! Z.to_nat i = Some JNull) \/
  (forall c, dict_get "cache" st <> Some (JObj c)) ->
  exists f, _validate_progress_state (JObj st) cfg total lang
            = Err (InvalidProgressShape f).
Proof.
  intros Hkey Hint H. unfold _validate_progress_state. rewrite Hkey.
  destruct (dict_get "items" st) as [[| | | |its|]|] eqn:Hitems; try by eexists.
  destruct (Z.eqb_spec (Z.of_nat (length its)) total) as [Hlen|Hlen]; cbn [negb];
    [|by eexists].
  destruct (dict_get "done_indices" st) as [[| | | |l|]|] eqn:Hdone; try by eexists.
  specialize (Hint l eq_refl).
  destruct (mapR py_int l) as [ints|e] eqn:Hints; [|done].
  destruct (existsb _ (elements (list_to_set ints))) eqn:Hrange; [by eexists|].
  destruct (existsb _ (elements (list_to_set ints))) eqn:Hnull in |- *; [by eexists|].
  destruct (dict_get "cache" st) as [[| | | | |c]|] eqn:Hcache; try by eexists.
  exfalso.
  pose proof (proj1 (existsb_false_elem _ _) Hrange) as Hr.
  pose proof (proj1 (existsb_false_elem _ _) Hnull) as Hn.
  destruct H as [H|[H|[H|[H|H]]]].
  - by apply (H its).
  - by apply (H l).
  - destruct H as (l' & ints' & i & E1 & E2 & Hi & Hb).
    simplify_eq. rewrite Hints in E2. injection E2 as <-.
    specialize (Hr i (proj2 (elem_of_elements_list_to_set _ _) Hi)).
    cbv beta in Hr. apply orb_false_elim in Hr as [H1 H2].
    rewrite Z.geb_leb in H2. lia.
  - destruct H as (l' & ints' & its' & i & E1 & E2 & E3 & Hi & Hb).
    simplify_eq. rewrite Hints in E2. injection E2 as <-.
    specialize (Hn i (proj2 (elem_of_elements_list_to_set _ _) Hi)).
    cbv beta in Hn. rewrite Hb in Hn. done.
  - by apply (H c).
Qed.

(** ** One batch *)

Lemma atomic_write_spec {S} path payload (w : world S) :
  _atomic_write_json path payload w = (Ok tt, persisted path payload w).
Proof.
  unfold _atomic_write_json, bind, write_text, replace_file, persisted, emit.
  cbn [fs cstate log]. rewrite lookup_insert_eq. by rewrite <- app_assoc.
Qed.

Lemma process_batch_eq {S} (call_api : client S) cfg data lang lang_name total ls start
    (w : world S) :
  process_batch call_api cfg data lang lang_name total ls start w =
  match pending_of cfg total ls start with
  | [] => (Ok ls, w)
  | _ :: _ =>
      match batch_prep data (pending_of cfg total ls start) with
      | Err e => (Err e, w)
      | Ok (items, instrs) =>
          match (scan_cache (cache ls) 0 instrs).2 with
          | [] =>
              let ls' := batch_apply ls (pending_of cfg total ls start) items
                           ((scan_cache (cache ls) 0 instrs).1, cache ls) in
              (Ok ls', persisted (_progress_path (base_name cfg) lang)
                         (checkpoint_of cfg total lang ls') w)
          | _ :: _ =>
              let args := batch_args cfg lang_name instrs (scan_cache (cache ls) 0 instrs).2 in
              match call_api (cstate w) args with
              | (Err e, s') => (Err e, called args s' w)
              | (Ok bt, s') =>
                  let ls' := batch_apply ls (pending_of cfg total ls start) items
                               (merge_translations instrs (scan_cache (cache ls) 0 instrs).2 bt
                                  (scan_cache (cache ls) 0 instrs).1 (cache ls)) in
                  (Ok ls', persisted (_progress_path (base_name cfg) lang)
                             (checkpoint_of cfg total lang ls') (called args s' w))
              end
          end
      end
  end.
Proof.
  unfold process_batch, pending_of, batch_prep.
  destruct (filter _ _) as [|i0 pend] eqn:Hp; [done|].
  unfold bind at 1, lift at 1.
  destruct (mapR (data_item data) (i0 :: pend)) as [items|e]; [|done].
  unfold bind at 1, lift at 1.
  destruct (mapR _ (zip (i0 :: pend) items)) as [instrs|e]; [|done].
  destruct (scan_cache (cache ls) 0 instrs) as [translations missing] eqn:Hs.
  cbn [fst snd].
  destruct missing as [|m0 ms].
  - unfold bind, ret. unfold batch_apply. cbn [fst snd].
    destruct (commit_batch _ _ _ _ _) as [d' its'] eqn:Hc. cbn [fst snd].
    unfold bind. rewrite atomic_write_spec. done.
  - unfold bind at 1. unfold bind at 1. unfold call_client, batch_args, called, emit.
    destruct (call_api (cstate w) _) as [[bt|e] s']; cbn [fs cstate log]; [|done].
    unfold ret at 1. unfold batch_apply.
    destruct (commit_batch _ _ _ _ _) as [d' its'] eqn:Hc. cbn [fst snd].
    unfold bind. rewrite atomic_write_spec. done.
Qed.

(** *** Lists, dictionaries *)

Lemma fold_left_inv {A B} (f : A -> B -> A) (P : A -> Prop) (Q : B -> Prop) l a :
  (forall a b, P a -> Q b -> P (f a b)) -> Forall Q l -> P a -> P (fold_left f l a).
Proof.
  intros Hstep. revert a. induction l as [|b l IH]; intros a Hl Ha; simpl; [done|].
  inversion Hl; subst. apply IH; auto.
Qed.

Lemma mapR_Forall2 {A B} (f : A -> result B) l bs :
  mapR f l = Ok bs -> Forall2 (fun a b => f a = Ok b) l bs.
Proof.
  revert bs. induction l as [|a l IH]; intros bs; simpl.
  - intros [= <-]. constructor.
  - destruct (f a) as [b|e] eqn:E; [|done].
    destruct (mapR f l) as [bs'|e]; [|done].
    intros [= <-]. constructor; auto.
Qed.

Lemma Forall2_zip_Forall {A B} (R : A -> B -> Prop) l k :
  Forall2 R l k -> Forall (fun p => R p.1 p.2) (zip l k).
Proof. induction 1; simpl; constructor; auto. Qed.

Lemma Forall_zip_l {A B} (Q : A -> Prop) (l : list A) (k : list B) :
  Forall Q l -> Forall (fun p => Q p.1) (zip l k).
Proof.
  intros H. revert k. induction H as [|a l Ha Hl IH]; intros k; simpl; [constructor|].
  destruct k; constructor; auto.
Qed.

Lemma dict_get_set_eq k v d : dict_get k (dict_set k v d) = Some v.
Proof.
  induction d as [|[k' v'] d IH]; simpl.
  - by rewrite String.eqb_refl.
  - destruct (String.eqb k k') eqn:E; simpl; rewrite E; auto.
Qed.

Lemma dict_get_set_ne k k' v d : k <> k' -> dict_get k' (dict_set k v d) = dict_get k' d.
Proof.
  intros Hne. induction d as [|[k0 v0] d IH]; simpl.
  - destruct (String.eqb_spec k' k); [congruence|done].
  - destruct (String.eqb_spec k k0) as [->|Hk]; simpl.
    + destruct (String.eqb_spec k' k0); [congruence|done].
    + destruct (String.eqb_spec k' k0); [done|auto].
Qed.

Lemma dict_has_set k k' v d :
  dict_has k' (dict_set k v d) = true <-> k = k' \/ dict_has k' d = true.
Proof.
  unfold dict_has. destruct (decide (k = k')) as [->|Hne].
  - rewrite dict_get_set_eq. tauto.
  - rewrite dict_get_set_ne by done. split; [auto|intros [?|?]; done].
Qed.

(** *** The loops of a batch *)

Lemma scan_cache_length c i instrs :
  length (scan_cache c i instrs).1 = length instrs.
Proof.
  revert i. induction instrs as [|s instrs IH]; intros i; simpl; [done|].
  specialize (IH (S i)). destruct (scan_cache c (S i) instrs) as [ts ms].
  destruct (dict_get s c); simpl in *; lia.
Qed.

(** A position of the batch is either answered by the cache or listed as
    missing. *)
Lemma scan_cache_cover c i instrs k s :
  instrs !! k = Some s ->
  dict_has s c = true \/ (i + k)%nat ∈ (scan_cache c i instrs).2.
Proof.
  revert i k. induction instrs as [|s0 instrs IH]; intros i k Hk; [done|].
  simpl. specialize (IH (S i)).
  destruct (scan_cache c (S i) instrs) as [ts ms] eqn:Hs.
  destruct k as [|k]; simpl in Hk.
  - injection Hk as ->. unfold dict_has.
    destruct (dict_get s c); [by left|]. right. simpl.
    rewrite Nat.add_0_r. apply list_elem_of_here.
  - destruct (IH k Hk) as [H|H]; [by left|]. right.
    replace (i + S k)%nat with (S i + k)%nat by lia.
    destruct (dict_get s0 c); simpl in *; [done|by right].
Qed.

Lemma scan_cache_missing_range c i instrs m :
  m ∈ (scan_cache c i instrs).2 -> (i <= m < i + length instrs)%nat.
Proof.
  revert i. induction instrs as [|s0 instrs IH]; intros i; simpl.
  - intros H. inversion H.
  - specialize (IH (S i)). destruct (scan_cache c (S i) instrs) as [ts ms].
    destruct (dict_get s0 c); simpl in *.
    + intros H. specialize (IH H). lia.
    + intros H. apply elem_of_cons in H as [->|H]; [lia|]. specialize (IH H). lia.
Qed.

Lemma merge_translations_fold instrs missing bt ts c :
  merge_translations instrs missing bt ts c
  = fold_left (merge_step instrs) (zip missing bt) (ts, c).
Proof. reflexivity. Qed.

Lemma merge_translations_length instrs missing bt ts c :
  length (merge_translations instrs missing bt ts c).1 = length ts.
Proof.
  rewrite merge_translations_fold.
  apply (fold_left_inv (merge_step instrs)
           (fun acc => length acc.1 = length ts) (fun _ => True)).
  - intros [ts' c'] [i t] H _. simpl in *. by rewrite length_insert.
  - by apply Forall_forall.
  - done.
Qed.

(** The merge keeps the entries of the cache and, when the client
    answered every instruction it was given, adds the missing ones. *)
Lemma merge_translations_keeps instrs missing bt ts c s :
  dict_has s c = true ->
  dict_has s (merge_translations instrs missing bt ts c).2 = true.
Proof.
  intros Hs. rewrite merge_translations_fold.
  apply (fold_left_inv (merge_step instrs)
           (fun acc => dict_has s acc.2 = true) (fun _ => True)).
  - intros [ts' c'] [i t] H _. simpl in *. apply dict_has_set. by right.
  - by apply Forall_forall.
  - done.
Qed.

Lemma merge_fold_keeps instrs l acc s :
  dict_has s acc.2 = true ->
  dict_has s (fold_left (merge_step instrs) l acc).2 = true.
Proof.
  intros Hs.
  apply (fold_left_inv (merge_step instrs)
           (fun acc => dict_has s acc.2 = true) (fun _ => True)).
  - intros [ts' c'] [i t] H _. simpl in *. apply dict_has_set. by right.
  - by apply Forall_forall.
  - done.
Qed.

Lemma merge_fold_adds instrs missing bt acc m :
  (length missing <= length bt)%nat ->
  m ∈ missing ->
  dict_has (instrs !!! m) (fold_left (merge_step instrs) (zip missing bt) acc).2 = true.
Proof.
  revert bt acc. induction missing as [|m0 missing IH]; intros bt acc Hlen Hm.
  - inversion Hm.
  - destruct bt as [|t bt]; simpl in Hlen; [lia|]. cbn [zip zip_with fold_left].
    apply elem_of_cons in Hm as [->|Hm].
    + apply merge_fold_keeps. unfold merge_step. cbn [fst snd].
      apply dict_has_set. by left.
    + apply IH; [lia|done].
Qed.

Lemma merge_translations_adds instrs missing bt ts c m :
  (length missing <= length bt)%nat ->
  m ∈ missing ->
  dict_has (instrs !!! m) (merge_translations instrs missing bt ts c).2 = true.
Proof. apply merge_fold_adds. Qed.

Lemma commit_fold_done (T : list (Z * pydict * json)) acc :
  (fold_left commit_step T acc).1 = list_to_set (T.*1.*1) ∪ acc.1.
Proof.
  revert acc. induction T as [|p T IH]; intros acc; cbn [fold_left fmap list_fmap].
  - rewrite list_to_set_nil. by rewrite (left_id_L ∅ (∪)).
  - rewrite IH. unfold commit_step. cbn [fst snd].
    rewrite list_to_set_cons. rewrite (assoc_L (∪)). f_equal. apply (comm_L (∪)).
Qed.

Lemma commit_batch_done pending items ts d its :
  (commit_batch pending items ts d its).1
  = list_to_set ((zip (zip pending items) ts).*1.*1) ∪ d.
Proof. unfold commit_batch. by rewrite commit_fold_done. Qed.

Lemma commit_batch_done_all pending items ts d its :
  length items = length pending -> length ts = length pending ->
  (commit_batch pending items ts d its).1 = list_to_set pending ∪ d.
Proof.
  intros H1 H2. rewrite commit_batch_done.
  rewrite fst_zip by (rewrite length_zip_with; lia).
  rewrite fst_zip by lia. done.
Qed.

Lemma commit_batch_length pending items ts d its :
  length (commit_batch pending items ts d its).2 = length its.
Proof.
  unfold commit_batch.
  apply (fold_left_inv commit_step (fun acc => length acc.2 = length its) (fun _ => True)).
  - intros [d' its'] p H _. unfold commit_step. cbn [fst snd] in *.
    by rewrite length_insert.
  - by apply Forall_forall.
  - done.
Qed.

Lemma commit_step_ok data total acc p :
  pair_ok total acc -> triple_ok data total p -> pair_ok total (commit_step acc p).
Proof.
  destruct acc as [d its]. destruct p as [[idx item] t].
  unfold pair_ok, state_ok, triple_ok, commit_step. cbn [fst snd done_indices out_items].
  intros (Hr & Hl & Hn) (Hidx & Hitem).
  split; [|split].
  - intros i Hi. apply elem_of_union in Hi as [Hi|Hi]; [|auto].
    apply elem_of_singleton in Hi as ->. done.
  - by rewrite length_insert.
  - intros i Hi.
    destruct (decide (Z.to_nat idx = Z.to_nat i)) as [E|E].
    + rewrite E. rewrite list_lookup_insert_eq; [by eexists|].
      assert (0 <= i < total); [|lia].
      apply elem_of_union in Hi as [Hi|Hi]; [|auto].
      apply elem_of_singleton in Hi as ->. done.
    + rewrite list_lookup_insert_ne by done.
      apply elem_of_union in Hi as [Hi|Hi]; [|auto].
      apply elem_of_singleton in Hi as ->. done.
Qed.

Lemma commit_step_frame data total acc p :
  pair_frame data total acc -> triple_ok data total p ->
  pair_frame data total (commit_step acc p).
Proof.
  intros [Hok Hf] Hp. split; [by eapply commit_step_ok|].
  destruct acc as [d its]. destruct p as [[idx item] t].
  unfold pair_ok, state_ok, frame_ok, triple_ok, commit_step in *.
  cbn [fst snd done_indices out_items] in *.
  destruct Hok as (Hr & Hl & Hn). destruct Hp as (Hidx & Hitem).
  intros i Hi.
  assert (0 <= i < total) as Hi'.
  { apply elem_of_union in Hi as [Hi|Hi]; [|auto].
    apply elem_of_singleton in Hi as ->. done. }
  destruct (decide (idx = i)) as [->|E].
  - exists item, (JObj (dict_set "instruction" t item)).
    split; [done|]. split; [|by exists t].
    apply list_lookup_insert_eq. lia.
  - rewrite list_lookup_insert_ne by lia.
    apply Hf. apply elem_of_union in Hi as [Hi|Hi]; [|done].
    apply elem_of_singleton in Hi. congruence.
Qed.

Lemma commit_batch_ok data total pending items ts d its :
  Forall (triple_ok data total) (zip (zip pending items) ts) ->
  pair_ok total (d, its) -> pair_ok total (commit_batch pending items ts d its).
Proof.
  intros HT H. unfold commit_batch.
  by apply (fold_left_inv commit_step (pair_ok total) (triple_ok data total));
    [apply commit_step_ok|..].
Qed.

Lemma commit_batch_frame data total pending items ts d its :
  Forall (triple_ok data total) (zip (zip pending items) ts) ->
  pair_frame data total (d, its) ->
  pair_frame data total (commit_batch pending items ts d its).
Proof.
  intros HT H. unfold commit_batch.
  by apply (fold_left_inv commit_step (pair_frame data total) (triple_ok data total));
    [apply commit_step_frame|..].
Qed.

(** *** What is known about a prepared batch *)

Lemma seqZ_elem (m len i : Z) : i ∈ seqZ m len -> m <= i < m + len.
Proof. intros H. apply elem_of_seqZ in H. lia. Qed.

Lemma pending_of_elem cfg total ls start i :
  i ∈ pending_of cfg total ls start ->
  start <= i < total /\ i < start + batch_size cfg /\ i ∉ done_indices ls.
Proof.
  unfold pending_of, batch_range. intros H.
  apply list_elem_of_filter in H as [Hn H]. apply seqZ_elem in H.
  split; [lia|]. split; [lia|done].
Qed.

Lemma batch_prep_spec data pending items instrs :
  batch_prep data pending = Ok (items, instrs) ->
  Forall2 (fun idx item => data !! Z.to_nat idx = Some item) pending items /\
  Forall2 (fun item s => instruction_of item = JStr s) items instrs.
Proof.
  unfold batch_prep.
  destruct (mapR (data_item data) pending) as [items'|e] eqn:E1; [|done].
  destruct (mapR _ (zip pending items')) as [instrs'|e] eqn:E2; [|done].
  intros [= <- <-].
  apply mapR_Forall2 in E1. apply mapR_Forall2 in E2.
  assert (Forall2 (fun idx item => data !! Z.to_nat idx = Some item) pending items') as H1.
  { eapply Forall2_impl; [exact E1|]. intros idx item. unfold data_item.
    destruct (data !! Z.to_nat idx); [|done]. by intros [= ->]. }
  split; [done|].
  clear E1. revert instrs' E2. induction H1 as [|idx item pend its Hh Ht IH];
    intros instrs' E2; simpl in E2; inversion E2; subst; constructor.
  - unfold source_text in *. destruct (instruction_of item); try done.
    match goal with H : Ok _ = Ok _ |- _ => by injection H as -> end.
  - by apply IH.
Qed.

Lemma batch_triples_ok cfg data total ls start items (ts : list json) :
  0 <= start ->
  Forall2 (fun idx item => data !! Z.to_nat idx = Some item)
    (pending_of cfg total ls start) items ->
  Forall (triple_ok data total) (zip (zip (pending_of cfg total ls start) items) ts).
Proof.
  intros Hs H.
  change (Forall (fun p : Z * pydict * json =>
                    (fun q : Z * pydict =>
                       0 <= q.1 < total /\ data !! Z.to_nat q.1 = Some q.2) p.1)
            (zip (zip (pending_of cfg total ls start) items) ts)).
  apply Forall_zip_l.
  assert (Forall (fun i => 0 <= i < total) (pending_of cfg total ls start)) as Hr.
  { apply Forall_forall. intros i Hi. apply pending_of_elem in Hi. lia. }
  revert Hr. induction H as [|idx item pend its Hh Ht IH]; intros Hr; simpl;
    [constructor|].
  inversion Hr; subst. constructor; [done|auto].
Qed.

(** *** Invariants across a batch *)

Lemma batch_apply_state_ok cfg data total ls start items instrs merged :
  0 <= start ->
  batch_prep data (pending_of cfg total ls start) = Ok (items, instrs) ->
  state_ok total ls ->
  state_ok total (batch_apply ls (pending_of cfg total ls start) items merged).
Proof.
  intros Hs Hprep Hok. apply batch_prep_spec in Hprep as [H1 _].
  pose proof (commit_batch_ok data total (pending_of cfg total ls start) items merged.1
                (done_indices ls) (out_items ls)
                (batch_triples_ok cfg data total ls start items merged.1 Hs H1)) as H.
  unfold pair_ok in H. cbn [fst snd] in H.
  unfold batch_apply. unfold state_ok in *.
  cbn [done_indices out_items cache] in *. by apply H.
Qed.

Lemma batch_apply_frame_ok cfg data total ls start items instrs merged :
  0 <= start ->
  batch_prep data (pending_of cfg total ls start) = Ok (items, instrs) ->
  state_ok total ls -> frame_ok data ls ->
  frame_ok data (batch_apply ls (pending_of cfg total ls start) items merged).
Proof.
  intros Hs Hprep Hok Hf. apply batch_prep_spec in Hprep as [H1 _].
  pose proof (commit_batch_frame data total (pending_of cfg total ls start) items merged.1
                (done_indices ls) (out_items ls)
                (batch_triples_ok cfg data total ls start items merged.1 Hs H1)) as H.
  unfold pair_frame, pair_ok in H. cbn [fst snd] in H.
  unfold batch_apply. unfold state_ok, frame_ok in *.
  cbn [done_indices out_items cache] in *. by apply H.
Qed.

Section Loop.

Context {PY : PyRuntime} {S : Type}.
Variable call_api : client S.
Variable cfg : config.
Variable data : list pydict.
Variable lang lang_name : string.
Variable total : Z.

(** An invariant of the in-memory state that every batch preserves. *)
Variable J : loop_state -> Prop.
Hypothesis J_step : forall ls start items instrs merged,
  0 <= start -> J ls ->
  batch_prep data (pending_of cfg total ls start) = Ok (items, instrs) ->
  batch_outcome call_api cfg lang_name ls instrs merged ->
  J (batch_apply ls (pending_of cfg total ls start) items merged).

Lemma process_batch_inv ls start (w : world S) :
  0 <= start -> J ls ->
  match process_batch call_api cfg data lang lang_name total ls start w with
  | (Ok ls', w') =>
      J ls' /\ exists evs, log w' = log w ++ evs /\ loop_events cfg lang total J evs
  | (Err _, w') =>
      fs w' = fs w /\ exists evs, log w' = log w ++ evs /\ loop_events cfg lang total J evs
  end.
Proof.
  intros Hs HJ. rewrite process_batch_eq.
  destruct (pending_of cfg total ls start) as [|i0 pend] eqn:Hp.
  { split; [done|]. exists []. split; [by rewrite app_nil_r|constructor]. }
  rewrite <- Hp.
  destruct (batch_prep data (pending_of cfg total ls start)) as [[items instrs]|e] eqn:Hprep.
  2:{ split; [done|]. exists []. split; [by rewrite app_nil_r|constructor]. }
  destruct (scan_cache (cache ls) 0 instrs).2 as [|m0 ms] eqn:Hmiss.
  - cbv zeta.
    assert (J (batch_apply ls (pending_of cfg total ls start) items
                 ((scan_cache (cache ls) 0 instrs).1, cache ls))) as HJ'.
    { eapply J_step; eauto. left. done. }
    split; [done|]. eexists. split; [reflexivity|].
    repeat constructor. by eexists.
  - cbv zeta. rewrite <- Hmiss.
    destruct (call_api (cstate w) _) as [[bt|e] s'] eqn:Hcall.
    + assert (J (batch_apply ls (pending_of cfg total ls start) items
                   (merge_translations instrs (scan_cache (cache ls) 0 instrs).2 bt
                      (scan_cache (cache ls) 0 instrs).1 (cache ls)))) as HJ'.
      { eapply J_step; eauto. right. eauto. }
      split; [done|]. unfold persisted, called. cbn [log].
      eexists. split; [by rewrite <- app_assoc|].
      repeat constructor. by eexists.
    + split; [done|]. eexists. split; [reflexivity|]. repeat constructor.
Qed.

Lemma batch_loop_inv starts ls (w : world S) :
  Forall (fun s => 0 <= s) starts -> J ls ->
  match foldM (process_batch call_api cfg data lang lang_name total) starts ls w with
  | (Ok ls', w') =>
      J ls' /\ exists evs, log w' = log w ++ evs /\ loop_events cfg lang total J evs
  | (Err _, w') => exists evs, log w' = log w ++ evs /\ loop_events cfg lang total J evs
  end.
Proof.
  intros Hst. revert ls w. induction Hst as [|start starts Hs Hst IH]; intros ls w HJ.
  - simpl. split; [done|]. exists []. split; [by rewrite app_nil_r|constructor].
  - cbn [foldM]. unfold bind.
    pose proof (process_batch_inv ls start w Hs HJ) as Hb.
    destruct (process_batch _ _ _ _ _ _ ls start w) as [[ls1|e] w1].
    + destruct Hb as (HJ1 & evs1 & Hl1 & He1).
      specialize (IH ls1 w1 HJ1).
      destruct (foldM _ starts ls1 w1) as [[ls2|e] w2].
      * destruct IH as (HJ2 & evs2 & Hl2 & He2). split; [done|].
        exists (evs1 ++ evs2). split; [by rewrite Hl2, Hl1, app_assoc|].
        by apply Forall_app.
      * destruct IH as (evs2 & Hl2 & He2).
        exists (evs1 ++ evs2). split; [by rewrite Hl2, Hl1, app_assoc|].
        by apply Forall_app.
    + destruct Hb as (_ & evs1 & Hl1 & He1). eauto.
Qed.

End Loop.

Lemma range_step_nonneg total step : Forall (fun s => 0 <= s) (range_step total step).
Proof.
  unfold range_step. destruct (Z.ltb_spec 0 step); [|constructor].
  apply Forall_forall. intros s Hs. apply list_elem_of_fmap in Hs as (k & -> & Hk).
  apply seqZ_elem in Hk. nia.
Qed.

(** ** File names *)

Lemma string_length_app (a b : string) :
  String.length (a +:+ b) = (String.length a + String.length b)%nat.
Proof. induction a as [|c a IH]; simpl; [done|by rewrite IH]. Qed.

Lemma tmp_path_neq p : tmp_path p <> p.
Proof.
  intros E. apply (f_equal String.length) in E. unfold tmp_path in E.
  rewrite string_length_app in E. simpl in E. lia.
Qed.

Lemma progress_path_length b l :
  String.length (_progress_path b l) = (String.length b + String.length l + 26)%nat.
Proof. unfold _progress_path. rewrite !string_length_app. simpl. lia. Qed.

Lemma output_path_length b l :
  String.length (output_path b l) = (String.length b + String.length l + 6)%nat.
Proof. unfold output_path. rewrite !string_length_app. simpl. lia. Qed.

Lemma tmp_path_length p : String.length (tmp_path p) = (String.length p + 4)%nat.
Proof. unfold tmp_path. rewrite string_length_app. simpl. lia. Qed.

Lemma output_neq_progress b l : output_path b l <> _progress_path b l.
Proof.
  intros E. apply (f_equal String.length) in E.
  rewrite output_path_length, progress_path_length in E. lia.
Qed.

Lemma output_neq_tmp b l : output_path b l <> tmp_path (_progress_path b l).
Proof.
  intros E. apply (f_equal String.length) in E.
  rewrite output_path_length, tmp_path_length, progress_path_length in E. lia.
Qed.

(** ** The end of a run *)

Lemma size_full_range (total : Z) (d : gset Z) :
  (forall i, i ∈ d -> 0 <= i < total) ->
  Z.of_nat (size d) = total <-> (0 <= total /\ forall i, 0 <= i < total -> i ∈ d).
Proof.
  intros Hr.
  set (R := list_to_set (seqZ 0 total) : gset Z).
  assert (forall i, i ∈ R <-> 0 <= i < total) as HR.
  { intros i. unfold R. rewrite elem_of_list_to_set, elem_of_seqZ. lia. }
  assert (size R = Z.to_nat total) as Hsize.
  { unfold R. rewrite size_list_to_set by apply NoDup_seqZ. by rewrite length_seqZ. }
  assert (d ⊆ R) as Hsub by (intros i Hi; apply HR; auto).
  split.
  - intros Hs. split; [lia|]. intros i Hi.
    assert (d = R) as Heq.
    { apply set_subseteq_size_eq; [done|]. lia. }
    rewrite Heq. apply HR, Hi.
  - intros [H0 Hall].
    assert (d = R) as ->.
    { apply set_eq. intros i. rewrite HR. split; auto. }
    lia.
Qed.

Lemma existsb_is_none_false (items : list json) :
  existsb is_none items = false <-> Forall (fun it => is_none it = false) items.
Proof.
  rewrite existsb_false_elem, Forall_forall. done.
Qed.

Lemma finalize_test total ls :
  state_ok total ls ->
  negb (Z.of_nat (size (done_indices ls)) =? total) || existsb is_none (out_items ls) = false
  <-> complete total ls.
Proof.
  intros (Hr & Hl & Hn). unfold complete.
  rewrite orb_false_iff, negb_false_iff, Z.eqb_eq, existsb_is_none_false.
  rewrite (size_full_range total _ Hr). intuition lia.
Qed.

Lemma finalize_ok {S} cfg lang total ls (w : world S) :
  negb (Z.of_nat (size (done_indices ls)) =? total) || existsb is_none (out_items ls) = false ->
  finalize (S:=S) cfg lang total ls w = (Ok tt, finalized cfg lang ls w).
Proof.
  intros Ht. unfold finalize. rewrite Ht.
  unfold bind, write_text, file_exists, unlink, ret, finalized, emit. cbn [fs cstate log].
  destruct (bool_decide _) eqn:E.
  - cbn [fs cstate log]. by rewrite <- app_assoc.
  - cbn [fs cstate log]. f_equal. f_equal. symmetry. apply delete_id.
    apply bool_decide_eq_false_1 in E. by apply eq_None_not_Some.
Qed.

Lemma finalize_err {S} cfg lang total ls (w : world S) :
  negb (Z.of_nat (size (done_indices ls)) =? total) || existsb is_none (out_items ls) = true ->
  finalize (S:=S) cfg lang total ls w
  = (Err (IncompleteRun (Z.of_nat (size (done_indices ls))) total), w).
Proof. intros Ht. unfold finalize. by rewrite Ht. Qed.

(** ** The state a run starts from *)

Lemma fresh_state_ok data : state_ok (Z.of_nat (length data)) (fresh_state data).
Proof.
  unfold state_ok, fresh_state. cbn [done_indices out_items].
  split; [intros i Hi; by apply elem_of_empty in Hi|].
  split; [by rewrite length_replicate|].
  intros i Hi. by apply elem_of_empty in Hi.
Qed.

Lemma validate_ok_inv {PY : PyRuntime} state cfg total lang ls :
  _validate_progress_state state cfg total lang = Ok ls ->
  exists st items dl ints c,
    state = JObj st /\
    run_key_mismatches st cfg total lang = [] /\
    dict_get "items" st = Some (JArr items) /\
    Z.of_nat (length items) = total /\
    dict_get "done_indices" st = Some (JArr dl) /\
    mapR py_int dl = Ok ints /\
    (forall i, i ∈ ints -> 0 <= i < total) /\
    (forall i, i ∈ ints ->
       exists it, items !! Z.to_nat i = Some it /\ is_none it = false) /\
    dict_get "cache" st = Some (JObj c) /\
    ls = LoopState (list_to_set ints) c items.
Proof.
  unfold _validate_progress_state.
  destruct state as [| | | | |st]; try done.
  destruct (run_key_mismatches st cfg total lang) eqn:Hkey; [|done].
  destruct (dict_get "items" st) as [[| | | |items|]|] eqn:Hitems; try done.
  destruct (Z.eqb_spec (Z.of_nat (length items)) total) as [Hlen|Hlen]; cbn [negb];
    [|done].
  destruct (dict_get "done_indices" st) as [[| | | |dl|]|] eqn:Hdone; try done.
  destruct (mapR py_int dl) as [ints|e] eqn:Hints; [|done].
  destruct (existsb _ (elements (list_to_set ints))) eqn:Hrange; [done|].
  destruct (existsb _ (elements (list_to_set ints))) eqn:Hnull in |- *; [done|].
  destruct (dict_get "cache" st) as [[| | | | |c]|] eqn:Hcache; try done.
  intros [= <-].
  pose proof (proj1 (existsb_false_elem _ _) Hrange) as Hr.
  pose proof (proj1 (existsb_false_elem _ _) Hnull) as Hn.
  assert (forall i, i ∈ ints -> 0 <= i < total) as Hin.
  { intros i Hi. specialize (Hr i (proj2 (elem_of_elements_list_to_set _ _) Hi)).
    cbv beta in Hr. apply orb_false_elim in Hr as [H1 H2].
    rewrite Z.geb_leb in H2. lia. }
  exists st, items, dl, ints, c. repeat split; try done; try (apply Hin; done).
  intros i Hi. specialize (Hn i (proj2 (elem_of_elements_list_to_set _ _) Hi)).
  cbv beta in Hn. specialize (Hin i Hi).
  destruct (items !! Z.to_nat i) as [it|] eqn:E; [by exists it|].
  apply lookup_ge_None in E. lia.
Qed.

Lemma validate_state_ok {PY : PyRuntime} state cfg total lang ls :
  _validate_progress_state state cfg total lang = Ok ls -> state_ok total ls.
Proof.
  intros H. apply validate_ok_inv in H
    as (st & items & dl & ints & c & -> & _ & _ & Hlen & _ & _ & Hr & Hn & _ & ->).
  unfold state_ok. cbn [done_indices out_items].
  split; [|split; [done|]].
  - intros i Hi. apply elem_of_list_to_set in Hi. auto.
  - intros i Hi. apply elem_of_list_to_set in Hi. auto.
Qed.

Lemma start_state_ok {PY : PyRuntime} cfg data lang files ls :
  start_state cfg data lang (Z.of_nat (length data)) files = Ok ls ->
  state_ok (Z.of_nat (length data)) ls.
Proof.
  unfold start_state.
  destruct (force_restart cfg); [intros [= <-]; apply fresh_state_ok|].
  destruct (resume cfg); [|intros [= <-]; apply fresh_state_ok].
  destruct (files !! _); [apply validate_state_ok|intros [= <-]; apply fresh_state_ok].
Qed.

(** ** The shape of a language's run *)

Lemma translate_lang_eq {PY : PyRuntime} {S} (call_api : client S) cfg data lang lang_name (w : world S) :
  lang_name_of lang DEFAULT_LANGS = Some lang_name ->
  translate_lang call_api cfg data lang w =
  match start_state cfg data lang (Z.of_nat (length data)) (fs w) with
  | Err e => (Err e, after_restart cfg lang w)
  | Ok ls0 =>
      match foldM (process_batch call_api cfg data lang lang_name (Z.of_nat (length data)))
              (range_step (Z.of_nat (length data)) (batch_size cfg)) ls0
              (after_restart cfg lang w) with
      | (Err e, w1) => (Err e, w1)
      | (Ok ls, w1) => finalize cfg lang (Z.of_nat (length data)) ls w1
      end
  end.
Proof.
  intros Hname. unfold translate_lang. rewrite Hname.
  unfold bind at 1. rewrite init_state_spec.
  destruct (start_state _ _ _ _ _); [|done].
  unfold bind. done.
Qed.

Lemma translate_lang_unknown {PY : PyRuntime} {S} (cl : client S) cfg data l (w : world S) :
  lang_name_of l DEFAULT_LANGS = None ->
  translate_lang cl cfg data l w = (Err (KeyError l), w).
Proof. intros H. unfold translate_lang. by rewrite H. Qed.

Section LangRun.

Context {PY : PyRuntime} {S : Type}.
Variable call_api : client S.
Variable cfg : config.
Variable data : list pydict.
Variable lang lang_name : string.
Hypothesis lang_known : lang_name_of lang DEFAULT_LANGS = Some lang_name.

Let total := Z.of_nat (length data).

Variable J : loop_state -> Prop.
Hypothesis J_step : forall ls start items instrs merged,
  0 <= start -> J ls ->
  batch_prep data (pending_of cfg total ls start) = Ok (items, instrs) ->
  batch_outcome call_api cfg lang_name ls instrs merged ->
  J (batch_apply ls (pending_of cfg total ls start) items merged).
Hypothesis J_ok : forall ls, J ls -> state_ok total ls.

(** A run is: the forced restart, the events of the batch loop and, when
    the loop ended with a complete state, the finalization. *)
Lemma translate_lang_shape (w : world S) :
  (forall ls0, start_state cfg data lang total (fs w) = Ok ls0 -> J ls0) ->
  exists L w1,
    loop_events cfg lang total J L /\
    log w1 = log (after_restart cfg lang w) ++ L /\
    ((exists e, translate_lang call_api cfg data lang w = (Err e, w1)) \/
     (exists ls, J ls /\ complete total ls /\
        translate_lang call_api cfg data lang w
          = (Ok tt, finalized cfg lang ls w1))).
Proof.
  intros Hstart. rewrite (translate_lang_eq _ _ _ _ _ _ lang_known). fold total.
  destruct (start_state cfg data lang total (fs w)) as [ls0|e] eqn:E0.
  2:{ exists [], (after_restart cfg lang w).
      split; [constructor|]. split; [by rewrite app_nil_r|]. left. eauto. }
  pose proof (batch_loop_inv call_api cfg data lang lang_name total J J_step
                (range_step total (batch_size cfg)) ls0 (after_restart cfg lang w)
                (range_step_nonneg _ _) (Hstart ls0 eq_refl)) as Hloop.
  destruct (foldM _ _ ls0 _) as [[ls|e] w1].
  - destruct Hloop as (HJ & L & Hlog & HL). exists L, w1.
    split; [done|]. split; [done|].
    destruct (negb (Z.of_nat (size (done_indices ls)) =? total)
              || existsb is_none (out_items ls)) eqn:Ht.
    + left. rewrite finalize_err by done. eauto.
    + right. exists ls. split; [done|].
      split; [by apply finalize_test; auto|]. by apply finalize_ok.
  - destruct Hloop as (L & Hlog & HL). exists L, w1.
    split; [done|]. split; [done|]. left. eauto.
Qed.

End LangRun.

(** ** A written checkpoint reloads to the state it was written from *)

Lemma mapR_py_int_JNum {PY : PyRuntime} (l : list Z) : mapR py_int (JNum <$> l) = Ok l.
Proof.
  induction l as [|n l IH]; [done|].
  rewrite fmap_cons. cbn [mapR py_int]. by rewrite IH.
Qed.

Lemma sorted_indices_elem (d : gset Z) i : i ∈ sorted_indices d <-> i ∈ d.
Proof.
  unfold sorted_indices. rewrite merge_sort_Permutation. apply elem_of_elements.
Qed.

Lemma list_to_set_sorted_indices (d : gset Z) : list_to_set (sorted_indices d) = d.
Proof.
  apply set_eq. intros i. rewrite elem_of_list_to_set. apply sorted_indices_elem.
Qed.

Lemma checkpoint_key_matches cfg total lang d c items :
  run_key_mismatches
    [ ("version", JNum PROGRESS_VERSION); ("source_path", JStr (source_path cfg));
      ("source_size", JNum total); ("model", JStr (model cfg));
      ("base_url", JStr (base_url cfg)); ("lang_code", JStr lang);
      ("done_indices", JArr (JNum <$> sorted_indices d));
      ("cache", JObj c); ("items", JArr items) ]
    cfg total lang = [].
Proof.
  unfold run_key_mismatches, expected_run_key, py_ne, py_ne_int, py_ne_str.
  cbn [List.filter dict_get String.eqb Ascii.eqb Bool.eqb].
  rewrite !String.eqb_refl, !Z.eqb_refl. reflexivity.
Qed.

Lemma validate_checkpoint {PY : PyRuntime} cfg total lang ls :
  state_ok total ls ->
  _validate_progress_state (checkpoint_of cfg total lang ls) cfg total lang = Ok ls.
Proof.
  intros (Hr & Hlen & Hn). destruct ls as [d c items].
  unfold checkpoint_of, _build_progress_state. cbn [done_indices cache out_items] in *.
  unfold _validate_progress_state. rewrite checkpoint_key_matches.
  cbn [dict_get String.eqb Ascii.eqb Bool.eqb].
  rewrite (proj2 (Z.eqb_eq _ _) Hlen). cbn [negb].
  rewrite mapR_py_int_JNum. rewrite list_to_set_sorted_indices.
  rewrite (proj2 (existsb_false_elem _ _)).
  2:{ intros i Hi. apply elem_of_elements in Hi. specialize (Hr i Hi).
      apply orb_false_intro; [lia|]. rewrite Z.geb_leb. lia. }
  rewrite (proj2 (existsb_false_elem _ _)); [done|].
  intros i Hi. apply elem_of_elements in Hi.
  destruct (Hn i Hi) as (it & -> & Hit). done.
Qed.

(** ** Completion *)

Lemma after_restart_log {S} cfg lang (w : world S) :
  exists R, log (after_restart cfg lang w) = log w ++ R /\
            (R = [] \/
             (R = [EvUnlink (_progress_path (base_name cfg) lang)] /\
              force_restart cfg = true)).
Proof.
  unfold after_restart. destruct (force_restart cfg); cbn [andb].
  - destruct (bool_decide _); cbn [emit log].
    + eexists. split; [reflexivity|]. by right.
    + exists []. split; [by rewrite app_nil_r|by left].
  - exists []. split; [by rewrite app_nil_r|by left].
Qed.

Lemma split_at {A} (l1 l2 pre post : list A) x :
  l1 ++ l2 = pre ++ x :: post ->
  (exists mid, l1 = pre ++ x :: mid /\ post = mid ++ l2) \/
  (exists mid, pre = l1 ++ mid /\ l2 = mid ++ x :: post).
Proof.
  intros H. apply app_eq_inv in H as [(k & H1 & H2)|(k & H1 & H2)].
  - destruct k as [|y k]; simpl in H2.
    + right. exists []. rewrite app_nil_r in *. subst. done.
    + injection H2 as <- ->. left. eauto.
  - right. eauto.
Qed.

Lemma loop_events_no_unlink p P L name :
  Forall (loop_event p P) L -> EvUnlink name ∉ L.
Proof.
  intros H Hin. rewrite Forall_forall in H. by apply H in Hin.
Qed.

Lemma loop_events_no_output b l P L payload :
  Forall (loop_event (_progress_path b l) P) L ->
  EvWrite (output_path b l) payload ∉ L.
Proof.
  intros H Hin. rewrite Forall_forall in H. apply H in Hin as [E _].
  by apply output_neq_tmp in E.
Qed.

(** C2, as the code has it.  Finalization writes the output and then
    removes the progress file exactly when every position is done with an
    item, and otherwise raises [IncompleteRun] and changes nothing.  A run
    writes the output file if and only if it succeeds, and it then holds one
    item for each record and the progress file is gone.  The progress file
    is removed only after the complete output was written, except that a
    forced restart removes an existing progress file as the first action of
    the run. *)
Theorem completion_writes_then_discards {PY : PyRuntime} {S} (call_api : client S) cfg data
    lang lang_name (w : world S) :
  lang_name_of lang DEFAULT_LANGS = Some lang_name ->
  (forall ls (w1 : world S),
      state_ok (Z.of_nat (length data)) ls ->
      (complete (Z.of_nat (length data)) ls ->
       finalize cfg lang (Z.of_nat (length data)) ls w1
         = (Ok tt, finalized cfg lang ls w1)) /\
      (~ complete (Z.of_nat (length data)) ls ->
       exists n, finalize cfg lang (Z.of_nat (length data)) ls w1
                 = (Err (IncompleteRun n (Z.of_nat (length data))), w1))) /\
  (exists evs,
      log (translate_lang call_api cfg data lang w).2 = log w ++ evs /\
      ((translate_lang call_api cfg data lang w).1 = Ok tt <->
       exists payload, EvWrite (output_path (base_name cfg) lang) payload ∈ evs) /\
      ((translate_lang call_api cfg data lang w).1 = Ok tt ->
       exists items,
         fs (translate_lang call_api cfg data lang w).2
           !! output_path (base_name cfg) lang = Some (JArr items) /\
         length items = length data /\
         Forall (fun it => is_none it = false) items /\
         fs (translate_lang call_api cfg data lang w).2
           !! _progress_path (base_name cfg) lang = None) /\
      unlink_only_after_output cfg lang (Z.of_nat (length data)) evs).
Proof.
  intros Hname. set (total := Z.of_nat (length data)). split.
  { intros ls w1 Hok. split.
    - intros Hc. apply finalize_ok. by apply finalize_test.
    - intros Hc. eexists. apply finalize_err.
      destruct (negb _ || _) eqn:E; [done|]. by apply finalize_test in E. }
  destruct (translate_lang_shape call_api cfg data lang lang_name Hname
              (state_ok total)
              (fun ls start items instrs merged Hs Hok Hprep _ =>
                 batch_apply_state_ok cfg data total ls start items instrs merged
                   Hs Hprep Hok)
              (fun ls H => H) w
              (fun ls0 H => start_state_ok cfg data lang (fs w) ls0 H))
    as (L & w1 & HL & Hlog & Hres).
  destruct (after_restart_log cfg lang w) as (R & HR & HRcases).
  set (p := _progress_path (base_name cfg) lang) in *.
  set (out := output_path (base_name cfg) lang) in *.
  assert (forall payload, EvWrite out payload ∉ R) as HRout.
  { intros payload Hin. destruct HRcases as [->|[-> _]]; [inversion Hin|].
    apply list_elem_of_singleton in Hin. done. }
  assert (forall pre post, R ++ L = pre ++ EvUnlink p :: post ->
                           pre = [] /\ force_restart cfg = true) as HRL.
  { intros pre post E. apply split_at in E as [(mid & E & _)|(mid & _ & E)].
    - destruct HRcases as [->|[-> Hf]]; [by destruct pre|].
      destruct pre as [|? [|? ?]]; try done.
    - exfalso. eapply (loop_events_no_unlink _ _ L p); [exact HL|].
      rewrite E. apply elem_of_app. right. apply list_elem_of_here. }
  destruct Hres as [(e & Hrun)|(ls & Hok & Hc & Hrun)]; rewrite Hrun; cbn [fst snd].
  - exists (R ++ L). split; [by rewrite Hlog, HR, app_assoc|].
    split; [|split; [done|]].
    + split; [done|]. intros (payload & Hin). exfalso.
      apply elem_of_app in Hin as [Hin|Hin]; [by eapply HRout|].
      by eapply loop_events_no_output.
    + intros pre post E. left. by eapply HRL.
  - unfold finalized. cbn [fs log].
    fold p out.
    set (F := EvWrite out (JArr (out_items ls)) ::
              (if bool_decide (is_Some (<[out:=JArr (out_items ls)]> (fs w1) !! p))
               then [EvUnlink p] else [])).
    exists (R ++ L ++ F). split; [by rewrite Hlog, HR, <- !app_assoc|].
    destruct Hok as (Hr & Hlen & Hn). destruct Hc as [Hall Hnn].
    split; [|split].
    + split; [|done]. intros _. exists (JArr (out_items ls)).
      apply elem_of_app. right. apply elem_of_app. right. apply list_elem_of_here.
    + intros _. exists (out_items ls).
      rewrite lookup_delete_ne by (apply not_eq_sym, output_neq_progress).
      rewrite lookup_insert_eq. rewrite lookup_delete_eq.
      repeat split; try done. apply Nat2Z.inj. exact Hlen.
    + intros pre post E. rewrite app_assoc in E.
      apply split_at in E as [(mid & E & _)|(mid & Epre & E)].
      * left. by eapply HRL.
      * right. exists (out_items ls). split; [|done].
        rewrite Epre. apply elem_of_app. right.
        unfold F in E. destruct mid as [|m mid]; [done|].
        injection E as <- E. apply list_elem_of_here.
Qed.

(** ** The output array *)

Lemma fresh_state_frame_ok data : frame_ok data (fresh_state data).
Proof. intros i Hi. by apply elem_of_empty in Hi. Qed.

(** A run that loads no progress file starts from a consistent state. *)
Lemma fresh_start_frame_ok {PY : PyRuntime} cfg data lang total files ls0 :
  force_restart cfg = true \/ resume cfg = false \/
  files !! _progress_path (base_name cfg) lang = None ->
  start_state cfg data lang total files = Ok ls0 -> frame_ok data ls0.
Proof.
  unfold start_state. intros H.
  destruct (force_restart cfg); [intros [= <-]; apply fresh_state_frame_ok|].
  destruct (resume cfg); [|intros [= <-]; apply fresh_state_frame_ok].
  destruct H as [H|[H|H]]; try done. rewrite H.
  intros [= <-]; apply fresh_state_frame_ok.
Qed.

Lemma complete_frame_Forall2 data ls :
  state_ok (Z.of_nat (length data)) ls -> frame_ok data ls ->
  complete (Z.of_nat (length data)) ls ->
  Forall2 copy_with_translation data (out_items ls).
Proof.
  intros (Hr & Hlen & Hn) Hf [Hall _].
  apply Forall2_same_length_lookup. split; [lia|].
  intros i item out Hi Ho.
  assert (i < length data)%nat as Hlt by (by eapply lookup_lt_Some).
  destruct (Hf (Z.of_nat i)) as (item' & out' & H1 & H2 & H3); [apply Hall; lia|].
  rewrite Nat2Z.id in H1, H2. congruence.
Qed.

(** The frame of the output.  When the state a run starts from holds, at
    every done position, a copy of the record with [instruction] assigned
    (as it does when no progress file is loaded), a successful run writes an
    output array with one such copy per record, in the order of the
    records; and every checkpoint the run writes reloads to a state of that
    kind. *)
Lemma output_frame {PY : PyRuntime} {S} (call_api : client S) cfg data lang lang_name
    (w : world S) :
  lang_name_of lang DEFAULT_LANGS = Some lang_name ->
  (forall ls0, start_state cfg data lang (Z.of_nat (length data)) (fs w) = Ok ls0 ->
               frame_ok data ls0) ->
  ((translate_lang call_api cfg data lang w).1 = Ok tt ->
   exists items,
     fs (translate_lang call_api cfg data lang w).2
       !! output_path (base_name cfg) lang = Some (JArr items) /\
     Forall2 copy_with_translation data items) /\
  (exists evs,
      log (translate_lang call_api cfg data lang w).2 = log w ++ evs /\
      forall payload,
        EvWrite (tmp_path (_progress_path (base_name cfg) lang)) payload ∈ evs ->
        exists ls,
          _validate_progress_state payload cfg (Z.of_nat (length data)) lang = Ok ls /\
          frame_ok data ls).
Proof.
  intros Hname Hstart. set (total := Z.of_nat (length data)) in *.
  destruct (translate_lang_shape call_api cfg data lang lang_name Hname
              (fun ls => state_ok total ls /\ frame_ok data ls)
              (fun ls start items instrs merged Hs HJ Hprep _ =>
                 conj (batch_apply_state_ok cfg data total ls start items instrs merged
                         Hs Hprep (proj1 HJ))
                      (batch_apply_frame_ok cfg data total ls start items instrs merged
                         Hs Hprep (proj1 HJ) (proj2 HJ)))
              (fun ls H => proj1 H) w
              (fun ls0 H => conj (start_state_ok cfg data lang (fs w) ls0 H)
                                 (Hstart ls0 H)))
    as (L & w1 & HL & Hlog & Hres).
  destruct (after_restart_log cfg lang w) as (R & HR & HRcases).
  assert (forall payload,
            EvWrite (tmp_path (_progress_path (base_name cfg) lang)) payload ∈ R ++ L ->
            exists ls, _validate_progress_state payload cfg total lang = Ok ls /\
                       frame_ok data ls) as Hw.
  { intros payload Hin. apply elem_of_app in Hin as [Hin|Hin].
    - destruct HRcases as [->|[-> _]]; [inversion Hin|].
      by apply list_elem_of_singleton in Hin.
    - unfold loop_events in HL. rewrite Forall_forall in HL.
      apply HL in Hin as [_ (ls & [Hok Hf] & ->)].
      exists ls. split; [by apply validate_checkpoint|done]. }
  destruct Hres as [(e & Hrun)|(ls & [Hok Hf] & Hc & Hrun)]; rewrite Hrun; cbn [fst snd].
  - split; [done|]. exists (R ++ L). split; [by rewrite Hlog, HR, app_assoc|done].
  - split.
    + intros _. exists (out_items ls). unfold finalized. cbn [fs].
      rewrite lookup_delete_ne by (apply not_eq_sym, output_neq_progress).
      rewrite lookup_insert_eq. split; [done|].
      by apply complete_frame_Forall2.
    + unfold finalized. cbn [log]. eexists.
      split; [by rewrite Hlog, HR, <- !app_assoc|].
      intros payload Hin. rewrite app_assoc in Hin.
      apply elem_of_app in Hin as [Hin|Hin]; [by apply Hw|].
      exfalso. apply elem_of_cons in Hin as [Hin|Hin].
      * injection Hin as Hin _. by apply eq_sym, output_neq_tmp in Hin.
      * destruct (bool_decide _); [|inversion Hin].
        by apply list_elem_of_singleton in Hin.
Qed.

(** ** Persisted progress states *)

Lemma batch_outcome_keeps {S} (call_api : client S) cfg lang_name ls instrs merged s :
  batch_outcome call_api cfg lang_name ls instrs merged ->
  dict_has s (cache ls) = true -> dict_has s merged.2 = true.
Proof.
  intros [[_ ->]|(st & bt & st' & _ & ->)] H; [done|].
  by apply merge_translations_keeps.
Qed.

Lemma batch_outcome_covers {S} (call_api : client S) cfg lang_name ls instrs merged k s :
  length_contract call_api ->
  batch_outcome call_api cfg lang_name ls instrs merged ->
  instrs !! k = Some s -> dict_has s merged.2 = true.
Proof.
  intros Hlen Hout Hk.
  destruct (scan_cache_cover (cache ls) 0 instrs k s Hk) as [H|H].
  { by eapply batch_outcome_keeps. }
  destruct Hout as [[Hm _]|(st & bt & st' & Hcall & ->)].
  { rewrite Hm in H. inversion H. }
  rewrite <- (list_lookup_total_correct instrs k s Hk).
  apply merge_translations_adds; [|exact H].
  pose proof (Hlen st _ bt (f_equal fst Hcall)) as Hl.
  unfold batch_args in Hl. cbn [ca_instructions] in Hl.
  rewrite length_fmap in Hl. lia.
Qed.

Lemma batch_apply_cache_covers {S} (call_api : client S) cfg data lang_name total
    before ls start items instrs merged :
  length_contract call_api ->
  batch_prep data (pending_of cfg total ls start) = Ok (items, instrs) ->
  batch_outcome call_api cfg lang_name ls instrs merged ->
  cache_covers data before ls ->
  cache_covers data before (batch_apply ls (pending_of cfg total ls start) items merged).
Proof.
  intros Hlen Hprep Hout Hcov. apply batch_prep_spec in Hprep as [H1 H2].
  intros i Hi Hb. unfold batch_apply in *. cbn [done_indices cache] in *.
  rewrite commit_batch_done in Hi. apply elem_of_union in Hi as [Hi|Hi].
  - apply elem_of_list_to_set in Hi.
    apply list_elem_of_fmap in Hi as (q & -> & Hq).
    apply list_elem_of_fmap in Hq as (p & -> & Hp).
    apply list_elem_of_lookup in Hp as (k & Hk).
    apply lookup_zip_with_Some in Hk as (q & t & -> & Hq & _).
    apply lookup_zip_with_Some in Hq as (idx & item & -> & Hidx & Hitem).
    cbn [fst snd].
    destruct (Forall2_lookup_l _ _ _ _ _ H2 Hitem) as (s & Hs & Hinstr).
    exists item, s. split; [|split; [done|]].
    + by eapply (Forall2_lookup_lr _ _ _ _ _ _ H1).
    + by eapply batch_outcome_covers.
  - destruct (Hcov i Hi Hb) as (item & s & Hd & Hinstr & Hhas).
    exists item, s. split; [done|]. split; [done|].
    by eapply batch_outcome_keeps.
Qed.

Lemma checkpoint_payload_ok cfg data lang before ls :
  state_ok (Z.of_nat (length data)) ls -> cache_covers data before ls ->
  progress_payload_ok data before (checkpoint_of cfg (Z.of_nat (length data)) lang ls).
Proof.
  intros (Hr & Hlen & Hn) Hcov.
  unfold checkpoint_of, _build_progress_state.
  eexists _, (sorted_indices (done_indices ls)), (cache ls), (out_items ls).
  split; [reflexivity|]. split; [reflexivity|]. split; [reflexivity|].
  split; [reflexivity|].
  split; [apply Sorted_merge_sort; apply _|].
  split.
  { unfold sorted_indices. rewrite merge_sort_Permutation. apply NoDup_elements. }
  split; [intros i Hi; apply sorted_indices_elem in Hi; auto|].
  split; [lia|].
  split; [intros i Hi; apply sorted_indices_elem in Hi; auto|].
  intros i Hi Hb. apply sorted_indices_elem in Hi. auto.
Qed.

(** C3.  With a client that keeps the length contract (as
    [call_api_batch] does), every file a run writes is either the output
    file or a progress state in which [done_indices] is a sorted list
    without repetition of positions of the dataset, each of them has an
    item, [items] has one slot per record, and [cache] has an entry for the
    instruction of every position that this run marked done. *)
Theorem persisted_progress_valid {PY : PyRuntime} {S} (call_api : client S) cfg data lang
    (w : world S) :
  length_contract call_api ->
  exists evs,
    log (translate_lang call_api cfg data lang w).2 = log w ++ evs /\
    forall name payload,
      EvWrite name payload ∈ evs ->
      name = output_path (base_name cfg) lang \/
      (name = tmp_path (_progress_path (base_name cfg) lang) /\
       progress_payload_ok data (done_at_start cfg data lang (fs w)) payload).
Proof.
  intros Hlen. set (total := Z.of_nat (length data)) in *.
  destruct (lang_name_of lang DEFAULT_LANGS) as [lang_name|] eqn:Hname.
  2:{ rewrite translate_lang_unknown by done. exists [].
      split; [by rewrite app_nil_r|]. intros name payload Hin. inversion Hin. }
  destruct (after_restart_log cfg lang w) as (R & HR & HRcases).
  assert (forall name payload, EvWrite name payload ∉ R) as HRw.
  { intros name payload Hin. destruct HRcases as [->|[-> _]]; [inversion Hin|].
    by apply list_elem_of_singleton in Hin. }
  unfold done_at_start. fold total.
  destruct (start_state cfg data lang total (fs w)) as [ls0|e0] eqn:Hstart.
  2:{ rewrite (translate_lang_eq _ _ _ _ _ _ Hname). fold total. rewrite Hstart.
      exists R. split; [done|]. intros name payload Hin. by apply HRw in Hin. }
  destruct (translate_lang_shape call_api cfg data lang lang_name Hname
              (fun ls => state_ok total ls /\ cache_covers data (done_indices ls0) ls)
              (fun ls start items instrs merged Hs HJ Hprep Hout =>
                 conj (batch_apply_state_ok cfg data total ls start items instrs merged
                         Hs Hprep (proj1 HJ))
                      (batch_apply_cache_covers call_api cfg data lang_name total
                         (done_indices ls0) ls start items instrs merged
                         Hlen Hprep Hout (proj2 HJ)))
              (fun ls H => proj1 H) w)
    as (L & w1 & HL & Hlog & Hres).
  { intros ls Hls. fold total in Hls. rewrite Hstart in Hls. injection Hls as <-.
    split; [by eapply start_state_ok|]. intros i Hi Hb. done. }
  assert (forall name payload,
            EvWrite name payload ∈ R ++ L ->
            name = tmp_path (_progress_path (base_name cfg) lang) /\
            progress_payload_ok data (done_indices ls0) payload) as Hw.
  { intros name payload Hin. apply elem_of_app in Hin as [Hin|Hin];
      [by apply HRw in Hin|].
    unfold loop_events in HL. rewrite Forall_forall in HL.
    apply HL in Hin as [-> (ls & [Hok Hc] & ->)].
    split; [done|]. by apply checkpoint_payload_ok. }
  destruct Hres as [(e & Hrun)|(ls & _ & _ & Hrun)]; rewrite Hrun; cbn [fst snd].
  - exists (R ++ L). split; [by rewrite Hlog, HR, app_assoc|]. intros. right. auto.
  - unfold finalized. cbn [log]. eexists.
    split; [by rewrite Hlog, HR, <- !app_assoc|].
    intros name payload Hin. rewrite app_assoc in Hin.
    apply elem_of_app in Hin as [Hin|Hin]; [right; auto|].
    apply elem_of_cons in Hin as [Hin|Hin].
    + injection Hin as -> _. by left.
    + destruct (bool_decide _); [|inversion Hin].
      by apply list_elem_of_singleton in Hin.
Qed.

(** ** Records without an instruction *)

Lemma dict_get_app_None k d d' :
  dict_get k d = None -> dict_get k (d ++ d') = dict_get k d'.
Proof.
  induction d as [|[k0 v0] d IH]; simpl; [done|].
  destruct (String.eqb k k0); [done|auto].
Qed.

Lemma dict_set_app_None k v x d :
  dict_get k d = None -> dict_set k v (d ++ [(k, x)]) = dict_set k v d.
Proof.
  induction d as [|[k0 v0] d IH]; simpl.
  - by rewrite String.eqb_refl.
  - destruct (String.eqb k k0); [done|]. intros H. by rewrite IH.
Qed.

Lemma instruction_of_with_empty item :
  instruction_of (with_empty_instruction item) = instruction_of item.
Proof.
  unfold with_empty_instruction, instruction_of.
  destruct (dict_get "instruction" item) eqn:E; [by rewrite E|].
  rewrite dict_get_app_None by done. simpl. done.
Qed.

Lemma dict_set_with_empty t item :
  dict_set "instruction" t (with_empty_instruction item) = dict_set "instruction" t item.
Proof.
  unfold with_empty_instruction.
  destruct (dict_get "instruction" item) eqn:E; [done|].
  by apply dict_set_app_None.
Qed.

Lemma mapR_data_item_fmap (f : pydict -> pydict) data l :
  mapR (data_item (f <$> data)) l
  = match mapR (data_item data) l with
    | Ok its => Ok (f <$> its)
    | Err e => Err e
    end.
Proof.
  induction l as [|idx l IH]; simpl; [done|].
  unfold data_item at 1 3. rewrite list_lookup_fmap.
  destruct (data !! Z.to_nat idx); simpl; [|done].
  rewrite IH. by destruct (mapR (data_item data) l).
Qed.

Lemma mapR_source_text_with_empty pending items :
  mapR (fun '(idx, item) => source_text idx item)
    (zip pending (with_empty_instruction <$> items))
  = mapR (fun '(idx, item) => source_text idx item) (zip pending items).
Proof.
  revert items. induction pending as [|idx pending IH]; intros items; [done|].
  destruct items as [|item items]; [done|].
  rewrite fmap_cons. cbn [zip zip_with mapR]. rewrite IH.
  unfold source_text. by rewrite instruction_of_with_empty.
Qed.

Lemma commit_batch_with_empty pending items ts d its :
  commit_batch pending (with_empty_instruction <$> items) ts d its
  = commit_batch pending items ts d its.
Proof.
  unfold commit_batch. generalize (d, its). clear d its.
  revert items ts. induction pending as [|idx pending IH]; intros items ts acc; [done|].
  destruct items as [|item items]; [done|].
  destruct ts as [|t ts]; [done|].
  rewrite fmap_cons. cbn [zip zip_with fold_left]. rewrite IH.
  unfold commit_step. cbn [fst snd]. by rewrite dict_set_with_empty.
Qed.

Lemma process_batch_with_empty {S} (call_api : client S) cfg data lang lang_name total
    ls start (w : world S) :
  process_batch call_api cfg (with_empty_instruction <$> data) lang lang_name total ls start w
  = process_batch call_api cfg data lang lang_name total ls start w.
Proof.
  rewrite !process_batch_eq.
  destruct (pending_of cfg total ls start) as [|i0 pend]; [done|].
  unfold batch_prep. rewrite mapR_data_item_fmap.
  destruct (mapR (data_item data) (i0 :: pend)) as [items|e]; [|done].
  rewrite mapR_source_text_with_empty.
  destruct (mapR _ (zip (i0 :: pend) items)) as [instrs|e]; [|done].
  destruct (scan_cache (cache ls) 0 instrs).2 as [|m0 ms].
  - cbv zeta. unfold batch_apply. by rewrite !commit_batch_with_empty.
  - cbv zeta. destruct (call_api (cstate w) _) as [[bt|e] s']; [|done].
    unfold batch_apply. by rewrite !commit_batch_with_empty.
Qed.

Lemma foldM_ext {S A B} (f g : A -> B -> M S A) l a (w : world S) :
  (forall a b w, f a b w = g a b w) -> foldM f l a w = foldM g l a w.
Proof.
  intros H. revert a w. induction l as [|b l IH]; intros a w; [done|].
  cbn [foldM]. unfold bind. rewrite H. destruct (g a b w) as [[a'|e] w']; [|done].
  apply IH.
Qed.

Lemma forM_ext {S B} (f g : B -> M S unit) l (w : world S) :
  (forall b w, f b w = g b w) -> forM_ f l w = forM_ g l w.
Proof.
  intros H. revert w. induction l as [|b l IH]; intros w; [done|].
  cbn [forM_]. unfold bind. rewrite H. destruct (g b w) as [[[]|e] w']; [|done].
  apply IH.
Qed.

Lemma translate_lang_with_empty {PY : PyRuntime} {S} (call_api : client S) cfg data lang (w : world S) :
  translate_lang call_api cfg (with_empty_instruction <$> data) lang w
  = translate_lang call_api cfg data lang w.
Proof.
  destruct (lang_name_of lang DEFAULT_LANGS) as [lang_name|] eqn:Hname.
  2:{ unfold translate_lang. by rewrite Hname. }
  rewrite !(translate_lang_eq _ _ _ _ lang_name) by done.
  rewrite length_fmap.
  assert (forall files,
            start_state cfg (with_empty_instruction <$> data) lang
              (Z.of_nat (length data)) files
            = start_state cfg data lang (Z.of_nat (length data)) files) as ->.
  { intros files. unfold start_state, fresh_state. by rewrite length_fmap. }
  destruct (start_state _ _ _ _ _) as [ls0|e]; [|done].
  rewrite (foldM_ext _ (process_batch call_api cfg data lang lang_name
                          (Z.of_nat (length data))));
    [done|].
  intros. apply process_batch_with_empty.
Qed.

(** A record without an [instruction] key has the empty string as its
    source text, and a run treats it exactly as the same record with the
    key present and set to the empty string: the same result, the same
    client calls, the same files. *)
Lemma missing_instruction_same_run {PY : PyRuntime} {S} (call_api : client S) cfg data langs
    (w : world S) :
  (forall idx item, dict_get "instruction" item = None -> source_text idx item = Ok "") /\
  (forall item, dict_get "instruction" (with_empty_instruction item) <> None) /\
  translate_dataset call_api cfg data langs w
  = translate_dataset call_api cfg (with_empty_instruction <$> data) langs w.
Proof.
  split; [|split].
  - intros idx item H. unfold source_text, instruction_of. by rewrite H.
  - intros item. unfold with_empty_instruction.
    destruct (dict_get "instruction" item) eqn:E; [by rewrite E|].
    rewrite dict_get_app_None by done. done.
  - unfold translate_dataset.
    destruct (batch_size cfg <=? 0); [done|].
    destruct (timeout cfg <=? 0); [done|].
    destruct (max_retries cfg <=? 0); [done|].
    apply forM_ext. intros lang w'. symmetry. apply translate_lang_with_empty.
Qed.

(** ** Resuming

    A run with a deterministic client is a function of the files it
    finds; a failed run leaves files from which the run gives the same
    output. *)

Lemma batch_prep_lengths data pending items instrs :
  batch_prep data pending = Ok (items, instrs) ->
  length items = length pending /\ length instrs = length pending.
Proof.
  intros H. apply batch_prep_spec in H as [H1 H2].
  apply Forall2_length in H1. apply Forall2_length in H2. lia.
Qed.

Lemma batch_apply_done cfg data total ls start items instrs merged :
  batch_prep data (pending_of cfg total ls start) = Ok (items, instrs) ->
  length merged.1 = length instrs ->
  done_indices (batch_apply ls (pending_of cfg total ls start) items merged)
  = list_to_set (pending_of cfg total ls start) ∪ done_indices ls.
Proof.
  intros Hprep Hlen. apply batch_prep_lengths in Hprep as [H1 H2].
  unfold batch_apply. cbn [done_indices].
  apply commit_batch_done_all; lia.
Qed.

Lemma pending_of_nil cfg total ls start :
  pending_of cfg total ls start = [] <->
  forall i, i ∈ batch_range start (batch_size cfg) total -> i ∈ done_indices ls.
Proof.
  unfold pending_of. split.
  - intros H i Hi. destruct (decide (i ∈ done_indices ls)) as [|Hn]; [done|].
    assert (i ∈ filter (fun idx => idx ∉ done_indices ls)
                  (batch_range start (batch_size cfg) total)) as Hf.
    { apply list_elem_of_filter. done. }
    rewrite H in Hf. inversion Hf.
  - intros H. destruct (filter _ _) as [|i l] eqn:E; [done|].
    assert (i ∈ filter (fun idx => idx ∉ done_indices ls)
                  (batch_range start (batch_size cfg) total)) as Hf.
    { rewrite E. apply list_elem_of_here. }
    apply list_elem_of_filter in Hf as [Hn Hi]. by apply H in Hi.
Qed.

Lemma pending_of_nil_mono cfg total ls ls' start :
  done_indices ls ⊆ done_indices ls' ->
  pending_of cfg total ls start = [] -> pending_of cfg total ls' start = [].
Proof.
  intros Hsub H. apply pending_of_nil. intros i Hi.
  apply Hsub. by eapply pending_of_nil.
Qed.

(** What a batch does to the state. *)
Lemma pure_batch_spec f cfg data lang_name total ls start ls' :
  0 <= start -> state_ok total ls ->
  pure_batch f cfg data lang_name total ls start = Ok ls' ->
  state_ok total ls' /\
  done_indices ls ⊆ done_indices ls' /\
  pending_of cfg total ls' start = [].
Proof.
  intros Hs Hok. unfold pure_batch.
  destruct (pending_of cfg total ls start) as [|i0 pend] eqn:Hp.
  { intros [= <-]. done. }
  rewrite <- Hp.
  destruct (batch_prep data (pending_of cfg total ls start)) as [[items instrs]|e] eqn:Hprep;
    [|done].
  assert (forall merged,
            length merged.1 = length instrs ->
            state_ok total (batch_apply ls (pending_of cfg total ls start) items merged) /\
            done_indices ls
              ⊆ done_indices (batch_apply ls (pending_of cfg total ls start) items merged) /\
            pending_of cfg total
              (batch_apply ls (pending_of cfg total ls start) items merged) start = [])
    as Happly.
  { intros merged Hlen. split; [by eapply batch_apply_state_ok|].
    rewrite (batch_apply_done cfg data total ls start items instrs merged Hprep Hlen).
    split; [intros i Hi; apply elem_of_union; by right|].
    apply pending_of_nil. intros i Hi.
    rewrite (batch_apply_done cfg data total ls start items instrs merged Hprep Hlen).
    destruct (decide (i ∈ done_indices ls)) as [|Hn];
      [apply elem_of_union; by right|].
    apply elem_of_union. left. apply elem_of_list_to_set.
    unfold pending_of. apply list_elem_of_filter. done. }
  destruct (scan_cache (cache ls) 0 instrs).2 as [|m0 ms] eqn:Hm.
  - intros [= <-]. apply Happly. cbn [fst]. apply scan_cache_length.
  - rewrite <- Hm. destruct (f _) as [bt|e]; [|done].
    intros [= <-]. apply Happly.
    rewrite merge_translations_length. apply scan_cache_length.
Qed.

Lemma pure_batch_skip f cfg data lang_name total ls start :
  pending_of cfg total ls start = [] ->
  pure_batch f cfg data lang_name total ls start = Ok ls.
Proof. intros H. unfold pure_batch. by rewrite H. Qed.

Lemma pure_loop_skip f cfg data lang_name total starts ls :
  (forall s, s ∈ starts -> pending_of cfg total ls s = []) ->
  pure_loop f cfg data lang_name total starts ls = Ok ls.
Proof.
  induction starts as [|s starts IH]; intros H; [done|].
  cbn [pure_loop]. rewrite pure_batch_skip by (apply H, list_elem_of_here).
  apply IH. intros s' Hs'. apply H. by right.
Qed.

Lemma pure_loop_app f cfg data lang_name total a b ls :
  pure_loop f cfg data lang_name total (a ++ b) ls
  = match pure_loop f cfg data lang_name total a ls with
    | Err e => Err e
    | Ok ls' => pure_loop f cfg data lang_name total b ls'
    end.
Proof.
  revert ls. induction a as [|s a IH]; intros ls; [done|].
  cbn [app pure_loop]. destruct (pure_batch _ _ _ _ _ ls s); [apply IH|done].
Qed.

Lemma same_outside_refl names files : same_outside names files files.
Proof. by intros x Hx. Qed.

Lemma same_outside_trans names f1 f2 f3 :
  same_outside names f1 f2 -> same_outside names f2 f3 -> same_outside names f1 f3.
Proof. intros H12 H23 x Hx. rewrite H23, H12; done. Qed.

Lemma same_outside_weaken names names' f1 f2 :
  (forall x, x ∈ names -> x ∈ names') ->
  same_outside names f1 f2 -> same_outside names' f1 f2.
Proof. intros Hsub H x Hx. apply H. intros Hin. apply Hx, Hsub, Hin. Qed.

Lemma persisted_lookup {S} path payload (w : world S) :
  fs (persisted path payload w) !! path = Some payload.
Proof.
  unfold persisted. cbn [fs].
  rewrite lookup_delete_ne by apply tmp_path_neq. apply lookup_insert_eq.
Qed.

Lemma persisted_outside {S} path payload (w : world S) :
  same_outside [path; tmp_path path] (fs w) (fs (persisted path payload w)).
Proof.
  intros x Hx. unfold persisted. cbn [fs].
  assert (x <> path /\ x <> tmp_path path) as [H1 H2].
  { split; intros ->; apply Hx; [left|right; left]. }
  rewrite lookup_delete_ne by done. rewrite lookup_insert_ne by done.
  by rewrite lookup_insert_ne.
Qed.

Section Simulation.

Context {PY : PyRuntime} {S : Type}.
Variable f : call_args -> result (list json).
Variable call_api : client S.
Variable cfg : config.
Variable data : list pydict.
Variable lang lang_name : string.
Variable total : Z.

(** [call_api] answers by [f]; it may also raise when [may_raise] holds. *)
Variable may_raise : Prop.
Hypothesis call_sim : forall s args,
  (call_api s args).1 = f args \/ (may_raise /\ exists e, (call_api s args).1 = Err e).

Let p := _progress_path (base_name cfg) lang.

(** One batch either goes as with [f], writing the checkpoint of the new
    state unless it was skipped, or the client raises and the files stay. *)
Lemma batch_sim ls start (w : world S) :
  ((process_batch call_api cfg data lang lang_name total ls start w).1
     = pure_batch f cfg data lang_name total ls start /\
   match pure_batch f cfg data lang_name total ls start with
   | Ok ls' =>
       (pending_of cfg total ls start = [] /\
        fs (process_batch call_api cfg data lang lang_name total ls start w).2 = fs w) \/
       (fs (process_batch call_api cfg data lang lang_name total ls start w).2 !! p
          = Some (checkpoint_of cfg total lang ls') /\
        same_outside [p; tmp_path p] (fs w)
          (fs (process_batch call_api cfg data lang lang_name total ls start w).2))
   | Err _ => fs (process_batch call_api cfg data lang lang_name total ls start w).2 = fs w
   end) \/
  (may_raise /\
   exists e, (process_batch call_api cfg data lang lang_name total ls start w).1 = Err e /\
             fs (process_batch call_api cfg data lang lang_name total ls start w).2 = fs w).
Proof.
  rewrite process_batch_eq. unfold pure_batch.
  destruct (pending_of cfg total ls start) as [|i0 pend] eqn:Hp.
  { left. split; [done|]. left. done. }
  rewrite <- Hp.
  destruct (batch_prep data (pending_of cfg total ls start)) as [[items instrs]|e];
    [|by left].
  destruct (scan_cache (cache ls) 0 instrs).2 as [|m0 ms] eqn:Hm.
  - left. cbv zeta. cbn [fst snd]. split; [done|]. right.
    split; [apply persisted_lookup|apply persisted_outside].
  - cbv zeta. rewrite <- Hm.
    destruct (call_sim (cstate w)
                (batch_args cfg lang_name instrs (scan_cache (cache ls) 0 instrs).2))
      as [Hf|(Hr & e & He)].
    + left. rewrite <- Hf.
      destruct (call_api (cstate w) _) as [[bt|e] s']; cbn [fst snd]; [|done].
      split; [done|]. right. split; [apply persisted_lookup|].
      apply (persisted_outside _ _ (called _ s' w)).
    + right. split; [done|]. exists e.
      destruct (call_api (cstate w) _) as [[bt|e'] s']; cbn [fst snd] in *; [done|].
      injection He as ->. done.
Qed.

(** The loop either ends as with [f], or the client raises at some batch:
    then the batches before it are complete in the state reached, a
    resuming run would start from that state, and the remaining batches
    lead from it to the same final state. *)
Lemma loop_sim rest : forall past ls (w : world S) ls_fin,
  Forall (fun s => 0 <= s) rest ->
  state_ok total ls ->
  pure_loop f cfg data lang_name total rest ls = Ok ls_fin ->
  (forall s, s ∈ past -> pending_of cfg total ls s = []) ->
  reloads cfg data lang total (fs w) ls ->
  same_outside [p; tmp_path p] (fs w)
    (fs (foldM (process_batch call_api cfg data lang lang_name total) rest ls w).2) /\
  (((foldM (process_batch call_api cfg data lang lang_name total) rest ls w).1 = Ok ls_fin /\
    state_ok total ls_fin) \/
   (may_raise /\
    exists e past' rest' ls',
      (foldM (process_batch call_api cfg data lang lang_name total) rest ls w).1 = Err e /\
      past ++ rest = past' ++ rest' /\
      state_ok total ls' /\
      (forall s, s ∈ past' -> pending_of cfg total ls' s = []) /\
      reloads cfg data lang total
        (fs (foldM (process_batch call_api cfg data lang lang_name total) rest ls w).2) ls' /\
      pure_loop f cfg data lang_name total rest' ls' = Ok ls_fin)).
Proof.
  induction rest as [|start rest IH]; intros past ls w ls_fin Hst Hok Hloop Hpast Hre.
  { cbn [foldM pure_loop] in *. injection Hloop as <-. unfold ret. cbn [fst snd].
    split; [apply same_outside_refl|]. left. done. }
  inversion Hst as [|? ? Hs Hst']; subst.
  cbn [pure_loop] in Hloop.
  destruct (pure_batch f cfg data lang_name total ls start) as [ls1|e1] eqn:Hb; [|done].
  destruct (pure_batch_spec f cfg data lang_name total ls start ls1 Hs Hok Hb)
    as (Hok1 & Hsub & Hdone).
  cbn [foldM]. unfold bind.
  destruct (batch_sim ls start w) as [[Hr Hfs]|(Hraise & e & Hr & Hfs)].
  - rewrite Hb in Hr, Hfs.
    destruct (process_batch call_api cfg data lang lang_name total ls start w)
      as [r1 w1]. cbn [fst snd] in Hr, Hfs. subst r1.
    assert (same_outside [p; tmp_path p] (fs w) (fs w1)) as Hout.
    { destruct Hfs as [[_ ->]|[_ H]]; [apply same_outside_refl|done]. }
    assert (reloads cfg data lang total (fs w1) ls1) as Hre1.
    { destruct Hfs as [[Hskip Hfs]|[Hck _]].
      - rewrite Hfs. rewrite (pure_batch_skip f cfg data lang_name total ls start Hskip) in Hb.
        injection Hb as <-. done.
      - intros Hresume Hforce. unfold start_state. rewrite Hresume, Hforce.
        fold p. rewrite Hck. by apply validate_checkpoint. }
    destruct (IH (past ++ [start]) ls1 w1 ls_fin Hst' Hok1 Hloop) as [Hout' Hcases];
      [|done|].
    { intros s Hsin. apply elem_of_app in Hsin as [Hsin|Hsin].
      - eapply pending_of_nil_mono; [exact Hsub|]. by apply Hpast.
      - apply list_elem_of_singleton in Hsin as ->. done. }
    split; [by eapply same_outside_trans|].
    destruct Hcases as [Hfin|(Hraise & e & past' & rest' & ls' & H1 & H2 & H3)];
      [by left|].
    right. split; [done|]. exists e, past', rest', ls'. split; [done|].
    split; [by rewrite <- H2, <- app_assoc|done].
  - destruct (process_batch call_api cfg data lang lang_name total ls start w)
      as [r1 w1]. cbn [fst snd] in Hr, Hfs. subst r1. cbn [fst snd]. rewrite Hfs.
    split; [apply same_outside_refl|]. right. split; [done|].
    exists e, past, (start :: rest), ls.
    split; [done|]. split; [done|]. split; [done|]. split; [done|].
    split; [done|]. cbn [pure_loop]. by rewrite Hb.
Qed.

End Simulation.

Lemma after_restart_outside {S} cfg lang (w : world S) :
  same_outside [_progress_path (base_name cfg) lang] (fs w) (fs (after_restart cfg lang w)).
Proof.
  intros x Hx. unfold after_restart. destruct (_ && _); [|done]. cbn [fs emit].
  apply lookup_delete_ne. intros <-. apply Hx. left.
Qed.

Lemma after_restart_keep {S} cfg lang (w : world S) :
  force_restart cfg = false -> after_restart cfg lang w = w.
Proof. intros H. unfold after_restart. by rewrite H. Qed.

Lemma start_state_no_resume {PY : PyRuntime} cfg data lang total files files' :
  force_restart cfg = true \/ resume cfg = false ->
  start_state cfg data lang total files = start_state cfg data lang total files'.
Proof.
  unfold start_state. intros [->| ->]; [done|]. by destruct (force_restart cfg).
Qed.

Section LangSimulation.

Context {PY : PyRuntime} {S : Type}.
Variable f : call_args -> result (list json).
Variable call_api : client S.
Variable cfg : config.
Variable data : list pydict.
Variable lang lang_name : string.
Hypothesis lang_known : lang_name_of lang DEFAULT_LANGS = Some lang_name.

Variable may_raise : Prop.
Hypothesis call_sim : forall s args,
  (call_api s args).1 = f args \/ (may_raise /\ exists e, (call_api s args).1 = Err e).

Let p := _progress_path (base_name cfg) lang.
Let out := output_path (base_name cfg) lang.

(** A language's run either succeeds, writing the output that [f]
    determines and removing the progress file, or the client raises and
    the files left behind determine the same output. *)
Lemma lang_sim (w : world S) items :
  lang_result f cfg data lang (fs w) = Ok items ->
  ((translate_lang call_api cfg data lang w).1 = Ok tt /\
   fs (translate_lang call_api cfg data lang w).2 !! out = Some (JArr items) /\
   fs (translate_lang call_api cfg data lang w).2 !! p = None /\
   same_outside [p; tmp_path p; out] (fs w)
     (fs (translate_lang call_api cfg data lang w).2)) \/
  (may_raise /\
   exists e,
     (translate_lang call_api cfg data lang w).1 = Err e /\
     lang_result f cfg data lang (fs (translate_lang call_api cfg data lang w).2) = Ok items /\
     same_outside [p; tmp_path p] (fs w)
       (fs (translate_lang call_api cfg data lang w).2)).
Proof.
  intros Hres. pose proof Hres as Hres0. unfold lang_result in Hres. rewrite lang_known in Hres.
  set (total := Z.of_nat (length data)) in *.
  destruct (start_state cfg data lang total (fs w)) as [ls0|e0] eqn:Hstart; [|done].
  destruct (pure_loop f cfg data lang_name total (range_step total (batch_size cfg)) ls0)
    as [ls_fin|e1] eqn:Hloop; [|done].
  destruct (negb _ || _) eqn:Htest; [done|]. injection Hres as <-.
  rewrite (translate_lang_eq _ _ _ _ _ _ lang_known). fold total. rewrite Hstart.
  assert (reloads cfg data lang total (fs (after_restart cfg lang w)) ls0) as Hre.
  { intros _ Hforce. by rewrite after_restart_keep. }
  destruct (loop_sim f call_api cfg data lang lang_name total may_raise call_sim
              (range_step total (batch_size cfg)) [] ls0 (after_restart cfg lang w) ls_fin
              (range_step_nonneg _ _) (start_state_ok cfg data lang (fs w) ls0 Hstart)
              Hloop) as [Hout Hcases]; [intros s Hs; inversion Hs|done|].
  fold p in Hout.
  assert (same_outside [p; tmp_path p] (fs w)
            (fs (foldM (process_batch call_api cfg data lang lang_name total)
                   (range_step total (batch_size cfg)) ls0 (after_restart cfg lang w)).2))
    as Hout'.
  { eapply same_outside_trans; [|exact Hout].
    eapply same_outside_weaken; [|apply after_restart_outside].
    intros x Hx. apply list_elem_of_singleton in Hx as ->. left. }
  destruct (foldM _ _ ls0 _) as [r1 w1]. cbn [fst snd] in *.
  destruct Hcases as [[-> Hokf]|(Hraise & e & past' & rest' & ls' & -> & Hsplit & Hok' &
                                 Hpast' & Hre' & Hrest')].
  - left. rewrite finalize_ok by done. unfold finalized. cbn [fst snd fs].
    fold p out. split; [done|].
    split; [rewrite lookup_delete_ne by (apply not_eq_sym, output_neq_progress);
            apply lookup_insert_eq|].
    split; [apply lookup_delete_eq|].
    intros x Hx.
    assert (x <> p /\ x <> tmp_path p /\ x <> out) as (H1 & H2 & H3).
    { repeat split; intros ->; apply Hx; [left|right; left|right; right; left]. }
    rewrite lookup_delete_ne by done. rewrite lookup_insert_ne by done.
    apply Hout'. intros Hin. apply elem_of_cons in Hin as [->|Hin]; [done|].
    apply list_elem_of_singleton in Hin. done.
  - right. split; [done|]. exists e. split; [done|]. split; [|done].
    cbn [fst snd].
    destruct (force_restart cfg) eqn:Hforce.
    { rewrite <- Hres0. unfold lang_result.
      rewrite (start_state_no_resume cfg data lang _ (fs w1) (fs w)); [done|by left]. }
    destruct (resume cfg) eqn:Hresume.
    2:{ rewrite <- Hres0. unfold lang_result.
        rewrite (start_state_no_resume cfg data lang _ (fs w1) (fs w)); [done|by right]. }
    specialize (Hre' Hresume Hforce). cbn [app] in Hsplit.
    unfold lang_result. rewrite lang_known. unfold total in *.
    rewrite Hre'. rewrite Hsplit, pure_loop_app.
    rewrite pure_loop_skip by done. rewrite Hrest'. by rewrite Htest.
Qed.

End LangSimulation.

(** *** File names of different languages *)

Lemma string_app_inv_tail (a b c : string) : a +:+ c = b +:+ c -> a = b.
Proof.
  revert b. induction a as [|x a IH]; intros b H.
  - destruct b as [|y b]; [done|]. apply (f_equal String.length) in H.
    rewrite !string_length_app in H. cbn [String.length] in H. lia.
  - destruct b as [|y b].
    + apply (f_equal String.length) in H.
      rewrite !string_length_app in H. cbn [String.length] in H. lia.
    + simpl in H. injection H as -> H. f_equal. by apply IH.
Qed.

Lemma progress_path_inj b l h : _progress_path b l = _progress_path b h -> l = h.
Proof.
  unfold _progress_path. intros H.
  apply String.app_inj, String.app_inj, String.app_inj in H.
  by apply string_app_inv_tail in H.
Qed.

Lemma output_path_inj b l h : output_path b l = output_path b h -> l = h.
Proof.
  unfold output_path. intros H.
  apply String.app_inj, String.app_inj in H.
  by apply string_app_inv_tail in H.
Qed.

Lemma known_lang_length l n :
  lang_name_of l DEFAULT_LANGS = Some n -> String.length l = 2%nat.
Proof.
  unfold DEFAULT_LANGS. cbn [lang_name_of].
  repeat match goal with
         | |- context [String.eqb l ?c] =>
             destruct (String.eqb_spec l c) as [->|_]; [intros _; reflexivity|]
         end.
  discriminate.
Qed.

Lemma known_length l : known l -> String.length l = 2%nat.
Proof. intros [n Hn]. by eapply known_lang_length. Qed.

Lemma progress_untouched b l h :
  known l -> known h -> l <> h -> _progress_path b l ∉ touched b h.
Proof.
  intros Hl Hh Hne Hin. apply known_length in Hl, Hh.
  unfold touched in Hin. rewrite !elem_of_cons in Hin.
  destruct Hin as [E|[E|[E|E]]]; [|..|inversion E].
  - by apply progress_path_inj in E.
  - apply (f_equal String.length) in E.
    rewrite tmp_path_length, !progress_path_length in E. lia.
  - apply (f_equal String.length) in E.
    rewrite output_path_length, progress_path_length in E. lia.
Qed.

Lemma output_untouched b l h :
  known l -> known h -> l <> h -> output_path b l ∉ touched b h.
Proof.
  intros Hl Hh Hne Hin. apply known_length in Hl, Hh.
  unfold touched in Hin. rewrite !elem_of_cons in Hin.
  destruct Hin as [E|[E|[E|E]]]; [..|inversion E].
  - apply (f_equal String.length) in E.
    rewrite output_path_length, progress_path_length in E. lia.
  - apply (f_equal String.length) in E.
    rewrite tmp_path_length, output_path_length, progress_path_length in E. lia.
  - by apply output_path_inj in E.
Qed.

Lemma lang_result_ext {PY : PyRuntime} f cfg data l files files' :
  files !! _progress_path (base_name cfg) l = files' !! _progress_path (base_name cfg) l ->
  lang_result f cfg data l files = lang_result f cfg data l files'.
Proof. intros H. unfold lang_result, start_state. by rewrite H. Qed.

Lemma lang_result_clean {PY : PyRuntime} f cfg data l files :
  files !! _progress_path (base_name cfg) l = None ->
  lang_result f cfg data l files = fresh_result f cfg data l.
Proof. intros H. apply lang_result_ext. by rewrite H, lookup_empty. Qed.

Lemma forM_cons {S B} (g : B -> M S unit) b l (w : world S) :
  forM_ g (b :: l) w
  = match g b w with
    | (Ok _, w') => forM_ g l w'
    | (Err e, w') => (Err e, w')
    end.
Proof. reflexivity. Qed.

Lemma forM_ok_known {PY : PyRuntime} {S} (cl : client S) cfg data langs (w : world S) :
  (forM_ (translate_lang cl cfg data) langs w).1 = Ok tt ->
  forall l, l ∈ langs -> known l.
Proof.
  revert w. induction langs as [|h langs IH]; intros w Hok l Hl; [inversion Hl|].
  rewrite forM_cons in Hok.
  apply elem_of_cons in Hl as [->|Hl].
  - unfold known. destruct (lang_name_of h DEFAULT_LANGS) eqn:E; [by eexists|].
    rewrite translate_lang_unknown in Hok by done. done.
  - destruct (translate_lang cl cfg data h w) as [[[]|e] w']; [|done]. by eapply IH.
Qed.

Section Deterministic.

Context {PY : PyRuntime} {S : Type}.
Variable f : call_args -> result (list json).
Variable call_api : client S.
Variable cfg : config.
Variable data : list pydict.
Hypothesis call_answers : answers f call_api.

Lemma answers_sim s args :
  (call_api s args).1 = f args \/ (False /\ exists e, (call_api s args).1 = Err e).
Proof. left. apply call_answers. Qed.

Lemma loop_answers lang lang_name total starts ls (w : world S) :
  (foldM (process_batch call_api cfg data lang lang_name total) starts ls w).1
  = pure_loop f cfg data lang_name total starts ls.
Proof.
  revert ls w. induction starts as [|s starts IH]; intros ls w; [done|].
  cbn [foldM pure_loop]. unfold bind.
  destruct (batch_sim f call_api cfg data lang lang_name total False answers_sim ls s w)
    as [[Hr _]|[[] _]].
  rewrite <- Hr.
  destruct (process_batch call_api cfg data lang lang_name total ls s w) as [[ls1|e] w1];
    cbn [fst]; [apply IH|done].
Qed.

(** A successful run produced the output that [f] determines. *)
Lemma lang_run_ok_result lang (w : world S) :
  (translate_lang call_api cfg data lang w).1 = Ok tt ->
  exists items, lang_result f cfg data lang (fs w) = Ok items.
Proof.
  intros Hok. unfold lang_result.
  destruct (lang_name_of lang DEFAULT_LANGS) as [lang_name|] eqn:Hname.
  2:{ rewrite translate_lang_unknown in Hok by done. done. }
  rewrite (translate_lang_eq _ _ _ _ lang_name) in Hok by done.
  destruct (start_state _ _ _ _ _) as [ls0|e0]; [|done].
  rewrite <- (loop_answers lang lang_name _ _ ls0 (after_restart cfg lang w)).
  destruct (foldM _ _ ls0 _) as [[ls|e] w1]; cbn [fst] in *; [|done].
  destruct (negb _ || _) eqn:Htest; [|by eexists].
  rewrite finalize_err in Hok by done. done.
Qed.

(** Running the languages one after the other with a deterministic
    client, from files that give every language its fresh output. *)
Lemma languages_run langs : forall (w : world S),
  (forall l, l ∈ langs ->
     known l /\ exists items,
       fresh_result f cfg data l = Ok items /\
       lang_result f cfg data l (fs w) = Ok items) ->
  (forM_ (translate_lang call_api cfg data) langs w).1 = Ok tt /\
  (forall l, l ∈ langs ->
     exists items,
       fresh_result f cfg data l = Ok items /\
       fs (forM_ (translate_lang call_api cfg data) langs w).2
         !! output_path (base_name cfg) l = Some (JArr items)) /\
  (forall x, (forall l, l ∈ langs -> x ∉ touched (base_name cfg) l) ->
             fs (forM_ (translate_lang call_api cfg data) langs w).2 !! x = fs w !! x).
Proof.
  induction langs as [|h langs IH]; intros w Hall.
  { split; [done|]. split; [intros l Hl; inversion Hl|done]. }
  destruct (Hall h (list_elem_of_here _ _)) as ([hname Hname] & items & Hfresh & Hres).
  destruct (lang_sim f call_api cfg data h hname Hname False answers_sim w items Hres)
    as [(Hok & Hout & Hp & Hsame)|[[] _]].
  rewrite forM_cons.
  destruct (translate_lang call_api cfg data h w) as [[[]|e] w1]; [|done].
  cbn [fst snd] in *.
  destruct (IH w1) as (Hok' & Houts & Hframe).
  { intros l Hl. destruct (Hall l) as (Hkl & items' & Hf' & Hr'); [by right|].
    split; [done|]. exists items'. split; [done|].
    destruct (decide (l = h)) as [->|Hne].
    - rewrite lang_result_clean; done.
    - rewrite <- Hr'. apply lang_result_ext. apply Hsame.
      apply progress_untouched; [done|by eexists|done]. }
  split; [done|]. split; [|].
  - intros l Hl. destruct (decide (l ∈ langs)) as [Hin|Hnin]; [by apply Houts|].
    apply elem_of_cons in Hl as [->|Hl]; [|done].
    exists items. split; [done|]. rewrite Hframe; [done|].
    intros l Hl. apply output_untouched; [by eexists| |congruence].
    by destruct (Hall l (list_elem_of_further _ _ _ Hl)).
  - intros x Hx. rewrite Hframe by (intros l Hl; apply Hx; by right).
    apply Hsame. apply (Hx h), list_elem_of_here.
Qed.

(** When the run of all languages succeeds from files without progress
    files, every language has a fresh output. *)
Lemma languages_ok_fresh langs : forall (w : world S),
  (forall l, l ∈ langs -> fs w !! _progress_path (base_name cfg) l = None) ->
  (forM_ (translate_lang call_api cfg data) langs w).1 = Ok tt ->
  forall l, l ∈ langs -> exists items, fresh_result f cfg data l = Ok items.
Proof.
  induction langs as [|h langs IH]; intros w Hclean Hok l Hl; [inversion Hl|].
  pose proof (forM_ok_known call_api cfg data (h :: langs) w Hok) as Hknown.
  rewrite forM_cons in Hok.
  destruct (Hknown h (list_elem_of_here _ _)) as [hname Hname].
  assert (exists items, fresh_result f cfg data h = Ok items) as [items Hfresh].
  { destruct (lang_run_ok_result h w) as [items Hres].
    - by destruct (translate_lang call_api cfg data h w) as [[[]|e] w1].
    - exists items. rewrite <- Hres. symmetry. apply lang_result_clean.
      apply Hclean, list_elem_of_here. }
  apply elem_of_cons in Hl as [->|Hl]; [by eexists|].
  assert (lang_result f cfg data h (fs w) = Ok items) as Hres.
  { rewrite lang_result_clean; [done|]. apply Hclean, list_elem_of_here. }
  destruct (lang_sim f call_api cfg data h hname Hname False answers_sim w items Hres)
    as [(_ & _ & Hp & Hsame)|[[] _]].
  destruct (translate_lang call_api cfg data h w) as [[[]|e] w1]; [|done].
  cbn [fst snd] in *. apply (IH w1); [|done|done].
  intros l' Hl'. destruct (decide (l' = h)) as [->|Hne]; [done|].
  rewrite Hsame; [apply Hclean; by right|].
  apply progress_untouched; [|by eexists|done]. apply Hknown. by right.
Qed.

End Deterministic.

Section Injected.

Context {PY : PyRuntime} {S : Type}.
Variable f : call_args -> result (list json).
Variable call_api : client S.
Variable cfg : config.
Variable data : list pydict.
Hypothesis call_flaky : answers_or_raises f call_api.

Lemma flaky_sim s args :
  (call_api s args).1 = f args \/ (True /\ exists e, (call_api s args).1 = Err e).
Proof. destruct (call_flaky s args) as [H|H]; [by left|by right]. Qed.

(** Whatever happens in a run with injected failures, the files it
    leaves give every language its fresh output. *)
Lemma languages_flaky (all : list string) :
  (forall l, l ∈ all -> known l /\ exists items, fresh_result f cfg data l = Ok items) ->
  forall rest (w : world S),
    (forall l, l ∈ rest -> l ∈ all) ->
    (forall l, l ∈ all -> lang_result f cfg data l (fs w) = fresh_result f cfg data l) ->
    forall l, l ∈ all ->
      lang_result f cfg data l (fs (forM_ (translate_lang call_api cfg data) rest w).2)
      = fresh_result f cfg data l.
Proof.
  intros Hall. induction rest as [|h rest IH]; intros w Hsub Hinv l Hl.
  { by apply Hinv. }
  destruct (Hall h (Hsub h (list_elem_of_here _ _))) as ([hname Hname] & items & Hfresh).
  assert (lang_result f cfg data h (fs w) = Ok items) as Hres.
  { rewrite Hinv; [done|]. apply Hsub, list_elem_of_here. }
  rewrite forM_cons.
  destruct (lang_sim f call_api cfg data h hname Hname True flaky_sim w items Hres)
    as [(Hok & _ & Hp & Hsame)|(_ & e & Herr & Hres' & Hsame)].
  - destruct (translate_lang call_api cfg data h w) as [[[]|e] w1]; [|done].
    cbn [fst snd] in *. apply IH; [intros l' Hl'; apply Hsub; by right| |done].
    intros l' Hl'. destruct (decide (l' = h)) as [->|Hne].
    + by apply lang_result_clean.
    + rewrite <- (Hinv l' Hl'). apply lang_result_ext. apply Hsame.
      apply progress_untouched; [by apply Hall|by eexists|done].
  - destruct (translate_lang call_api cfg data h w) as [[[]|e'] w1]; [done|].
    cbn [fst snd] in *. destruct (decide (l = h)) as [->|Hne].
    + by rewrite Hres'.
    + rewrite <- (Hinv l Hl). apply lang_result_ext. apply Hsame.
      intros Hin. eapply (progress_untouched (base_name cfg) l h);
        [by apply Hall|by eexists|done|].
      unfold touched. apply elem_of_cons in Hin as [->|Hin]; [left|].
      apply list_elem_of_singleton in Hin as ->. right. left.
Qed.

End Injected.

(** C1.  Let the client be deterministic, answering by [f], and let the
    output directory hold no progress file of a requested language.  If
    the run of [translate_dataset] succeeds in one pass, then after a run
    from the same files in which the client may raise instead of
    answering, a further run with the deterministic client succeeds and
    leaves, for every requested language, the same output file as the
    single pass.  (A single pass over a dataset with an instruction that
    is not a string does not succeed in the embedding, see [source_text].) *)
Theorem idempotent_resume {PY : PyRuntime} {SA SF SB : Type}
    (f : call_args -> result (list json))
    (one_pass : client SA) (failing : client SF) (second : client SB)
    cfg data langs (wA : world SA) (wF : world SF) (wB : world SB) :
  answers f one_pass ->
  answers_or_raises f failing ->
  answers f second ->
  (forall l, l ∈ langs -> fs wA !! _progress_path (base_name cfg) l = None) ->
  fs wF = fs wA ->
  (translate_dataset one_pass cfg data langs wA).1 = Ok tt ->
  fs wB = fs (translate_dataset failing cfg data langs wF).2 ->
  (translate_dataset second cfg data langs wB).1 = Ok tt /\
  forall l, l ∈ langs ->
    exists items,
      fs (translate_dataset one_pass cfg data langs wA).2
        !! output_path (base_name cfg) l = Some (JArr items) /\
      fs (translate_dataset second cfg data langs wB).2
        !! output_path (base_name cfg) l = Some (JArr items).
Proof.
  intros HA HF HB Hclean HwF Hok HwB.
  unfold translate_dataset in *.
  destruct (batch_size cfg <=? 0); [done|].
  destruct (timeout cfg <=? 0); [done|].
  destruct (max_retries cfg <=? 0); [done|].
  pose proof (forM_ok_known one_pass cfg data langs wA Hok) as Hknown.
  pose proof (languages_ok_fresh f one_pass cfg data HA langs wA Hclean Hok) as Hfresh.
  assert (forall l, l ∈ langs ->
            known l /\ exists items, fresh_result f cfg data l = Ok items) as Hall.
  { intros l Hl. split; [by apply Hknown|by apply Hfresh]. }
  destruct (languages_run f one_pass cfg data HA langs wA) as (_ & HoutA & _).
  { intros l Hl. destruct (Hall l Hl) as [Hk [items Hi]]. split; [done|].
    exists items. split; [done|]. rewrite lang_result_clean; [done|by apply Hclean]. }
  pose proof (languages_flaky f failing cfg data HF langs Hall langs wF
                (fun l H => H)) as Hleft.
  destruct (languages_run f second cfg data HB langs wB) as (HokB & HoutB & _).
  { intros l Hl. destruct (Hall l Hl) as [Hk [items Hi]]. split; [done|].
    exists items. split; [done|]. rewrite HwB, Hleft; [done| |done].
    intros l' Hl'. rewrite HwF. apply lang_result_clean. by apply Hclean. }
  split; [done|]. intros l Hl.
  destruct (HoutA l Hl) as (items & Hi & Ha). destruct (HoutB l Hl) as (items' & Hi' & Hb).
  exists items. split; [done|]. rewrite Hb. congruence.
Qed.

(** * Further properties of the code *)

(** ** Runs with any client: an invariant of the state and the world *)

Section Trace.

Context {PY : PyRuntime} {S : Type}.
Variable call_api : client S.
Variable cfg : config.
Variable data : list pydict.
Variable lang lang_name : string.
Variable total : Z.

(** [K] relates the in-memory state and the world between two batches,
    [E] is what is left of it when a batch raises. *)
Variable K : loop_state -> world S -> Prop.
Variable E : world S -> Prop.
Hypothesis K_E : forall ls w, K ls w -> E w.
Hypothesis K_cached : forall ls w start items instrs,
  0 <= start -> K ls w ->
  pending_of cfg total ls start <> [] ->
  batch_prep data (pending_of cfg total ls start) = Ok (items, instrs) ->
  (scan_cache (cache ls) 0 instrs).2 = [] ->
  K (batch_apply ls (pending_of cfg total ls start) items
       ((scan_cache (cache ls) 0 instrs).1, cache ls))
    (persisted (_progress_path (base_name cfg) lang)
       (checkpoint_of cfg total lang
          (batch_apply ls (pending_of cfg total ls start) items
             ((scan_cache (cache ls) 0 instrs).1, cache ls))) w).
Hypothesis K_call : forall ls w start items instrs r s',
  0 <= start -> K ls w ->
  pending_of cfg total ls start <> [] ->
  batch_prep data (pending_of cfg total ls start) = Ok (items, instrs) ->
  (scan_cache (cache ls) 0 instrs).2 <> [] ->
  call_api (cstate w) (batch_args cfg lang_name instrs (scan_cache (cache ls) 0 instrs).2)
    = (r, s') ->
  match r with
  | Err _ =>
      E (called (batch_args cfg lang_name instrs (scan_cache (cache ls) 0 instrs).2) s' w)
  | Ok bt =>
      K (batch_apply ls (pending_of cfg total ls start) items
           (merge_translations instrs (scan_cache (cache ls) 0 instrs).2 bt
              (scan_cache (cache ls) 0 instrs).1 (cache ls)))
        (persisted (_progress_path (base_name cfg) lang)
           (checkpoint_of cfg total lang
              (batch_apply ls (pending_of cfg total ls start) items
                 (merge_translations instrs (scan_cache (cache ls) 0 instrs).2 bt
                    (scan_cache (cache ls) 0 instrs).1 (cache ls))))
           (called (batch_args cfg lang_name instrs (scan_cache (cache ls) 0 instrs).2) s' w))
  end.

Lemma process_batch_trace ls start (w : world S) :
  0 <= start -> K ls w ->
  match process_batch call_api cfg data lang lang_name total ls start w with
  | (Ok ls', w') => K ls' w'
  | (Err _, w') => E w'
  end.
Proof.
  intros Hs HK. rewrite process_batch_eq.
  destruct (pending_of cfg total ls start) as [|i0 pend] eqn:Hp; [done|].
  rewrite <- Hp.
  assert (pending_of cfg total ls start <> []) as Hne by (by rewrite Hp).
  destruct (batch_prep data (pending_of cfg total ls start)) as [[items instrs]|e] eqn:Hprep.
  2:{ by eapply K_E. }
  destruct (scan_cache (cache ls) 0 instrs).2 as [|m0 ms] eqn:Hmiss.
  - cbv zeta. by apply K_cached.
  - cbv zeta. rewrite <- Hmiss.
    assert ((scan_cache (cache ls) 0 instrs).2 <> []) as Hm by (by rewrite Hmiss).
    destruct (call_api (cstate w) _) as [r s'] eqn:Hcall.
    pose proof (K_call ls w start items instrs r s' Hs HK Hne Hprep Hm Hcall) as H.
    by destruct r.
Qed.

Lemma batch_loop_trace starts ls (w : world S) :
  Forall (fun s => 0 <= s) starts -> K ls w ->
  match foldM (process_batch call_api cfg data lang lang_name total) starts ls w with
  | (Ok ls', w') => K ls' w'
  | (Err _, w') => E w'
  end.
Proof.
  intros Hst. revert ls w. induction Hst as [|start starts Hs Hst IH]; intros ls w HK.
  - done.
  - cbn [foldM]. unfold bind.
    pose proof (process_batch_trace ls start w Hs HK) as Hb.
    destruct (process_batch _ _ _ _ _ _ ls start w) as [[ls1|e] w1]; [|done].
    by apply IH.
Qed.

End Trace.

(** ** The files a run touches *)

Lemma finalized_outside {S} cfg lang ls (w : world S) :
  same_outside (touched (base_name cfg) lang) (fs w) (fs (finalized cfg lang ls w)).
Proof.
  intros x Hx. unfold finalized. cbn [fs].
  unfold touched in Hx. rewrite !elem_of_cons in Hx.
  rewrite lookup_delete_ne by (intros <-; apply Hx; by left).
  apply lookup_insert_ne. intros <-. apply Hx. right. right. by left.
Qed.

Lemma lang_frame {PY : PyRuntime} {S} (cl : client S) cfg data lang (w : world S) :
  same_outside (touched (base_name cfg) lang) (fs w)
    (fs (translate_lang cl cfg data lang w).2).
Proof.
  destruct (lang_name_of lang DEFAULT_LANGS) as [lang_name|] eqn:Hname.
  2:{ rewrite translate_lang_unknown by done. apply same_outside_refl. }
  rewrite (translate_lang_eq _ _ _ _ _ _ Hname).
  assert (same_outside (touched (base_name cfg) lang) (fs w)
            (fs (after_restart cfg lang w))) as H0.
  { eapply same_outside_weaken; [|apply after_restart_outside].
    intros x Hx. apply list_elem_of_singleton in Hx as ->. by left. }
  destruct (start_state _ _ _ _ _) as [ls0|e]; [|done].
  pose proof (batch_loop_trace cl cfg data lang lang_name (Z.of_nat (length data))
                (fun _ w' => same_outside (touched (base_name cfg) lang) (fs w) (fs w'))
                (fun w' => same_outside (touched (base_name cfg) lang) (fs w) (fs w')))
    as Hloop.
  specialize (Hloop ltac:(done)).
  assert (forall payload (w' : world S),
            same_outside (touched (base_name cfg) lang) (fs w) (fs w') ->
            same_outside (touched (base_name cfg) lang) (fs w)
              (fs (persisted (_progress_path (base_name cfg) lang) payload w'))) as Hp.
  { intros payload w' H. eapply same_outside_trans; [exact H|].
    eapply same_outside_weaken; [|apply persisted_outside].
    intros x Hx. unfold touched. rewrite !elem_of_cons in Hx |- *.
    destruct Hx as [->|[->|Hx]]; [tauto..|inversion Hx]. }
  specialize (Hloop ltac:(intros; by apply Hp)).
  specialize (Hloop ltac:(intros ? ? ? ? ? [bt|e] ? ? HK ? ? ? ?; [by apply Hp|exact HK])).
  specialize (Hloop (range_step (Z.of_nat (length data)) (batch_size cfg)) ls0
                (after_restart cfg lang w) (range_step_nonneg _ _) H0).
  destruct (foldM _ _ ls0 _) as [[ls|e] w1]; [|done].
  unfold finalize.
  destruct (negb _ || _) eqn:Ht.
  - done.
  - pose proof (finalize_ok cfg lang (Z.of_nat (length data)) ls w1 Ht) as Hf.
    unfold finalize in Hf. rewrite Ht in Hf. rewrite Hf.
    eapply same_outside_trans; [exact Hloop|]. apply finalized_outside.
Qed.

Lemma languages_frame {PY : PyRuntime} {S} (cl : client S) cfg data langs (w : world S) x :
  (forall l, l ∈ langs -> x ∉ touched (base_name cfg) l) ->
  fs (forM_ (translate_lang cl cfg data) langs w).2 !! x = fs w !! x.
Proof.
  revert w. induction langs as [|l langs IH]; intros w Hx; [done|].
  rewrite forM_cons.
  pose proof (lang_frame cl cfg data l w x (Hx l ltac:(left))) as Hl.
  destruct (translate_lang cl cfg data l w) as [[[]|e] w1]; [|done].
  cbn [snd] in Hl. rewrite IH; [done|]. intros l' Hl'. apply Hx. by right.
Qed.

(** X1.  A run of [translate_dataset], whatever the client does and
    however it ends, leaves every file of the output directory as it was
    except the progress file, its temporary sibling and the output file of
    the requested languages. *)
Theorem translate_dataset_touches_own_files {PY : PyRuntime} {S} (cl : client S) cfg data
    langs (w : world S) x :
  (forall l, l ∈ langs -> x ∉ touched (base_name cfg) l) ->
  fs (translate_dataset cl cfg data langs w).2 !! x = fs w !! x.
Proof.
  unfold translate_dataset.
  destruct (batch_size cfg <=? 0); [done|].
  destruct (timeout cfg <=? 0); [done|].
  destruct (max_retries cfg <=? 0); [done|].
  apply languages_frame.
Qed.

(** ** What a run keeps of the state it started from *)

Lemma advanced_refl ls : advanced ls ls.
Proof. by split; [|split]. Qed.

Lemma advanced_trans ls0 ls1 ls2 :
  advanced ls0 ls1 -> advanced ls1 ls2 -> advanced ls0 ls2.
Proof.
  intros (Hd & Hc & Hi) (Hd' & Hc' & Hi'). split; [|split].
  - set_solver.
  - auto.
  - intros i Hin. rewrite Hi' by set_solver. auto.
Qed.

Lemma commit_fold_keeps (T : list (Z * pydict * json)) acc (k : nat) :
  Forall (fun p => Z.to_nat p.1.1 <> k) T ->
  (fold_left commit_step T acc).2 !! k = acc.2 !! k.
Proof.
  intros H. revert acc. induction H as [|p T Hp HT IH]; intros acc; [done|].
  cbn [fold_left]. rewrite IH. unfold commit_step. cbn [fst snd].
  by apply list_lookup_insert_ne.
Qed.

Lemma batch_apply_keeps cfg total ls start items merged i :
  0 <= start -> 0 <= i -> i ∈ done_indices ls ->
  out_items (batch_apply ls (pending_of cfg total ls start) items merged) !! Z.to_nat i
  = out_items ls !! Z.to_nat i.
Proof.
  intros Hs Hi Hin. unfold batch_apply, commit_batch. cbn [out_items].
  apply commit_fold_keeps.
  change (Forall (fun p : Z * pydict * json =>
                    (fun q : Z * pydict => (fun idx => Z.to_nat idx <> Z.to_nat i) q.1) p.1)
            (zip (zip (pending_of cfg total ls start) items) merged.1)).
  apply Forall_zip_l.
  change (Forall (fun q : Z * pydict => (fun idx => Z.to_nat idx <> Z.to_nat i) q.1)
            (zip (pending_of cfg total ls start) items)).
  apply Forall_zip_l. apply Forall_forall. intros idx Hidx.
  apply pending_of_elem in Hidx as (Hr & _ & Hn).
  intros Heq. apply Hn. replace idx with i by lia. done.
Qed.

Lemma batch_apply_advanced cfg data total ls start items instrs merged :
  0 <= start -> state_ok total ls ->
  batch_prep data (pending_of cfg total ls start) = Ok (items, instrs) ->
  length merged.1 = length instrs ->
  (forall s, dict_has s (cache ls) = true -> dict_has s merged.2 = true) ->
  advanced ls (batch_apply ls (pending_of cfg total ls start) items merged).
Proof.
  intros Hs Hok Hprep Hlen Hc. split; [|split].
  - rewrite (batch_apply_done cfg data total ls start items instrs merged Hprep Hlen).
    set_solver.
  - exact Hc.
  - intros i Hi. apply batch_apply_keeps; [done| |done].
    destruct Hok as (Hr & _). specialize (Hr i Hi). lia.
Qed.

(** The two ways a batch ends, see [batch_outcome]: the state after it is
    in order and keeps what the state before it had. *)
Lemma batch_outcome_advanced {S} (cl : client S) cfg data lang_name total ls start items
    instrs merged :
  0 <= start -> state_ok total ls ->
  batch_prep data (pending_of cfg total ls start) = Ok (items, instrs) ->
  batch_outcome cl cfg lang_name ls instrs merged ->
  state_ok total (batch_apply ls (pending_of cfg total ls start) items merged) /\
  advanced ls (batch_apply ls (pending_of cfg total ls start) items merged).
Proof.
  intros Hs Hok Hprep Hout. split; [by eapply batch_apply_state_ok|].
  eapply batch_apply_advanced; eauto.
  - destruct Hout as [[_ ->]|(s & bt & s' & _ & ->)]; cbn [fst].
    + apply scan_cache_length.
    + rewrite merge_translations_length. apply scan_cache_length.
  - intros s Hs'. destruct Hout as [[_ ->]|(s0 & bt & s' & _ & ->)]; cbn [snd]; [done|].
    by apply merge_translations_keeps.
Qed.

Lemma reloads_persisted {PY : PyRuntime} {S} cfg data lang ls (w : world S) :
  state_ok (Z.of_nat (length data)) ls ->
  reloads cfg data lang (Z.of_nat (length data))
    (fs (persisted (_progress_path (base_name cfg) lang)
           (checkpoint_of cfg (Z.of_nat (length data)) lang ls) w)) ls.
Proof.
  intros Hok Hr Hf. unfold start_state. rewrite Hf, Hr.
  rewrite persisted_lookup. by apply validate_checkpoint.
Qed.

(** A run from a loadable state: it ends with the finalization of a
    complete state, or raises and leaves files that reload to the state it
    had reached; in both cases that state keeps what the run started
    from. *)
Lemma lang_progress {PY : PyRuntime} {S} (cl : client S) cfg data lang lang_name
    (w : world S) ls0 :
  lang_name_of lang DEFAULT_LANGS = Some lang_name ->
  start_state cfg data lang (Z.of_nat (length data)) (fs w) = Ok ls0 ->
  exists ls w1,
    state_ok (Z.of_nat (length data)) ls /\ advanced ls0 ls /\
    ((complete (Z.of_nat (length data)) ls /\
      translate_lang cl cfg data lang w = (Ok tt, finalized cfg lang ls w1)) \/
     (exists e, translate_lang cl cfg data lang w = (Err e, w1) /\
        reloads cfg data lang (Z.of_nat (length data)) (fs w1) ls)).
Proof.
  intros Hname Hstart. rewrite (translate_lang_eq _ _ _ _ _ _ Hname), Hstart.
  set (total := Z.of_nat (length data)) in *.
  pose proof (start_state_ok _ _ _ _ _ Hstart) as Hok0. fold total in Hok0.
  pose proof (batch_loop_trace cl cfg data lang lang_name total
                (fun ls w' => state_ok total ls /\ advanced ls0 ls /\
                              reloads cfg data lang total (fs w') ls)
                (fun w' => exists ls, state_ok total ls /\ advanced ls0 ls /\
                                      reloads cfg data lang total (fs w') ls))
    as Hloop.
  specialize (Hloop ltac:(intros ls w' H; exists ls; exact H)).
  assert (forall ls start items instrs merged,
            0 <= start -> state_ok total ls /\ advanced ls0 ls ->
            batch_prep data (pending_of cfg total ls start) = Ok (items, instrs) ->
            batch_outcome cl cfg lang_name ls instrs merged ->
            forall w' : world S,
            state_ok total (batch_apply ls (pending_of cfg total ls start) items merged) /\
            advanced ls0 (batch_apply ls (pending_of cfg total ls start) items merged) /\
            reloads cfg data lang total
              (fs (persisted (_progress_path (base_name cfg) lang)
                     (checkpoint_of cfg total lang
                        (batch_apply ls (pending_of cfg total ls start) items merged)) w'))
              (batch_apply ls (pending_of cfg total ls start) items merged)) as Hstep.
  { intros ls start items instrs merged Hs [Hok Hadv] Hprep Hout w'.
    destruct (batch_outcome_advanced cl cfg data lang_name total ls start items instrs merged
                Hs Hok Hprep Hout) as [Hok' Hadv'].
    split; [done|]. split; [by eapply advanced_trans|].
    by apply reloads_persisted. }
  specialize (Hloop ltac:(intros ls w' start items instrs Hs (Hok & Hadv & _) _ Hprep Hm;
                          eapply Hstep; eauto; by left)).
  specialize (Hloop ltac:(intros ls w' start items instrs [bt|e] s' Hs (Hok & Hadv & Hre)
                            _ Hprep Hm Hcall;
                          [eapply Hstep; eauto; right; eauto|exists ls; eauto])).
  specialize (Hloop (range_step total (batch_size cfg)) ls0 (after_restart cfg lang w)
                (range_step_nonneg _ _)).
  specialize (Hloop ltac:(split; [done|]; split; [apply advanced_refl|];
                          intros Hr Hf; by rewrite after_restart_keep)).
  destruct (foldM _ _ ls0 _) as [[ls|e] w1].
  - destruct Hloop as (Hok & Hadv & Hre). exists ls, w1. split; [done|]. split; [done|].
    destruct (negb (Z.of_nat (size (done_indices ls)) =? total)
              || existsb is_none (out_items ls)) eqn:Ht.
    + right. rewrite finalize_err by done. eauto.
    + left. split; [by apply finalize_test|]. by apply finalize_ok.
  - destruct Hloop as (ls & Hok & Hadv & Hre). exists ls, w1. eauto 6.
Qed.

Lemma finalized_output {S} cfg lang ls (w : world S) :
  fs (finalized cfg lang ls w) !! output_path (base_name cfg) lang
    = Some (JArr (out_items ls)) /\
  fs (finalized cfg lang ls w) !! _progress_path (base_name cfg) lang = None.
Proof.
  unfold finalized. cbn [fs]. split.
  - rewrite lookup_delete_ne by (apply not_eq_sym, output_neq_progress).
    apply lookup_insert_eq.
  - apply lookup_delete_eq.
Qed.

(** X2.  A run that resumes and raises, for whatever reason, leaves files
    from which the next run starts: the progress file, if there is one,
    passes validation, and the state it gives has every position done that
    was done when the failed run started, with the same item, and every
    key of the cache that run started with. *)
Theorem failed_run_can_be_resumed {PY : PyRuntime} {S} (cl : client S) cfg data lang
    (w w' : world S) ls0 e :
  resume cfg = true -> force_restart cfg = false ->
  start_state cfg data lang (Z.of_nat (length data)) (fs w) = Ok ls0 ->
  translate_lang cl cfg data lang w = (Err e, w') ->
  exists ls',
    start_state cfg data lang (Z.of_nat (length data)) (fs w') = Ok ls' /\
    state_ok (Z.of_nat (length data)) ls' /\
    advanced ls0 ls'.
Proof.
  intros Hr Hf Hstart Hrun.
  destruct (lang_name_of lang DEFAULT_LANGS) as [lang_name|] eqn:Hname.
  2:{ rewrite translate_lang_unknown in Hrun by done. injection Hrun as _ <-.
      exists ls0. split; [done|]. split; [by eapply start_state_ok|apply advanced_refl]. }
  destruct (lang_progress cl cfg data lang lang_name w ls0 Hname Hstart)
    as (ls & w1 & Hok & Hadv & [[_ Heq]|(e' & Heq & Hre)]); [congruence|].
  rewrite Heq in Hrun. injection Hrun as _ <-.
  exists ls. split; [by apply Hre|done].
Qed.

(** X3.  A successful run writes, at every position that was done in the
    state it started from, the item that state had there: work loaded from
    the progress file is not redone and not changed. *)
Theorem loaded_items_reach_output {PY : PyRuntime} {S} (cl : client S) cfg data lang
    (w w' : world S) ls0 :
  start_state cfg data lang (Z.of_nat (length data)) (fs w) = Ok ls0 ->
  translate_lang cl cfg data lang w = (Ok tt, w') ->
  exists items,
    fs w' !! output_path (base_name cfg) lang = Some (JArr items) /\
    forall i, i ∈ done_indices ls0 -> items !! Z.to_nat i = out_items ls0 !! Z.to_nat i.
Proof.
  intros Hstart Hrun.
  destruct (lang_name_of lang DEFAULT_LANGS) as [lang_name|] eqn:Hname.
  2:{ rewrite translate_lang_unknown in Hrun by done. done. }
  destruct (lang_progress cl cfg data lang lang_name w ls0 Hname Hstart)
    as (ls & w1 & Hok & Hadv & [[_ Heq]|(e' & Heq & Hre)]); [|congruence].
  rewrite Heq in Hrun. injection Hrun as <-.
  exists (out_items ls). split; [apply finalized_output|]. apply Hadv.
Qed.

(** ** Runs that find their work done *)

Lemma call_log_app l1 l2 : call_log (l1 ++ l2) = call_log l1 ++ call_log l2.
Proof. unfold call_log. apply omap_app. Qed.

Lemma call_log_persisted {S} p payload (w : world S) :
  call_log (log (persisted p payload w)) = call_log (log w).
Proof. unfold persisted. cbn [log]. rewrite call_log_app. simpl. apply app_nil_r. Qed.

Lemma call_log_called {S} args s' (w : world S) :
  call_log (log (called args s' w)) = call_log (log w) ++ [args].
Proof. unfold called. cbn [log]. by rewrite call_log_app. Qed.

Lemma call_log_after_restart {S} cfg lang (w : world S) :
  call_log (log (after_restart cfg lang w)) = call_log (log w).
Proof.
  unfold after_restart. destruct (_ && _); [|done].
  unfold emit. cbn [log]. rewrite call_log_app. simpl. apply app_nil_r.
Qed.

Lemma call_log_finalized {S} cfg lang ls (w : world S) :
  call_log (log (finalized cfg lang ls w)) = call_log (log w).
Proof.
  unfold finalized. cbn [log]. rewrite call_log_app.
  destruct (bool_decide _); simpl; apply app_nil_r.
Qed.

Lemma batch_range_elem start bs total i :
  i ∈ batch_range start bs total -> start <= i < total.
Proof. unfold batch_range. intros H. apply seqZ_elem in H. lia. Qed.

Lemma foldM_skip {PY : PyRuntime} {S} (cl : client S) cfg data lang lang_name total starts
    ls (w : world S) :
  (forall s, s ∈ starts -> pending_of cfg total ls s = []) ->
  foldM (process_batch cl cfg data lang lang_name total) starts ls w = (Ok ls, w).
Proof.
  induction starts as [|s starts IH]; intros H; [done|].
  cbn [foldM]. unfold bind. rewrite process_batch_eq.
  rewrite (H s) by apply list_elem_of_here.
  apply IH. intros s' Hs'. apply H. by right.
Qed.

Lemma complete_start_run {PY : PyRuntime} {S} (cl : client S) cfg data lang lang_name
    (w : world S) ls0 :
  lang_name_of lang DEFAULT_LANGS = Some lang_name ->
  start_state cfg data lang (Z.of_nat (length data)) (fs w) = Ok ls0 ->
  complete (Z.of_nat (length data)) ls0 ->
  translate_lang cl cfg data lang w
  = (Ok tt, finalized cfg lang ls0 (after_restart cfg lang w)).
Proof.
  intros Hname Hstart Hc. rewrite (translate_lang_eq _ _ _ _ _ _ Hname), Hstart.
  rewrite foldM_skip.
  - apply finalize_ok. apply finalize_test; [by eapply start_state_ok|done].
  - intros s Hs. apply pending_of_nil. intros i Hi. apply Hc.
    apply batch_range_elem in Hi.
    pose proof (range_step_nonneg (Z.of_nat (length data)) (batch_size cfg)) as Hn.
    rewrite Forall_forall in Hn. specialize (Hn s Hs). lia.
Qed.

(** X4.  A run that starts from a state in which every position is done
    with an item (a progress file left by a run that was stopped after its
    last batch) consists of the finalization alone: the client is not
    called and keeps its state, the output file gets the items of that
    state, and the progress file is removed. *)
Theorem complete_progress_is_only_finalized {PY : PyRuntime} {S} (cl : client S) cfg data
    lang lang_name (w : world S) ls0 :
  lang_name_of lang DEFAULT_LANGS = Some lang_name ->
  start_state cfg data lang (Z.of_nat (length data)) (fs w) = Ok ls0 ->
  complete (Z.of_nat (length data)) ls0 ->
  exists w',
    translate_lang cl cfg data lang w = (Ok tt, w') /\
    call_log (log w') = call_log (log w) /\
    cstate w' = cstate w /\
    fs w' !! output_path (base_name cfg) lang = Some (JArr (out_items ls0)) /\
    fs w' !! _progress_path (base_name cfg) lang = None.
Proof.
  intros Hname Hstart Hc. eexists. split; [by eapply complete_start_run|].
  split; [by rewrite call_log_finalized, call_log_after_restart|].
  split; [|apply finalized_output].
  unfold finalized, after_restart. cbn [cstate]. by destruct (_ && _).
Qed.

(** X5.  On an empty dataset a run makes no batch: whatever the batch
    size and the client, it succeeds without a client call and writes the
    empty array as output, provided the progress file, if one is loaded,
    is accepted. *)
Theorem empty_dataset_completes {PY : PyRuntime} {S} (cl : client S) cfg lang lang_name
    (w : world S) :
  lang_name_of lang DEFAULT_LANGS = Some lang_name ->
  is_ok (start_state cfg [] lang 0 (fs w)) = true ->
  exists w',
    translate_lang cl cfg [] lang w = (Ok tt, w') /\
    call_log (log w') = call_log (log w) /\
    fs w' !! output_path (base_name cfg) lang = Some (JArr []) /\
    fs w' !! _progress_path (base_name cfg) lang = None.
Proof.
  intros Hname Hok.
  destruct (start_state cfg [] lang 0 (fs w)) as [ls0|e] eqn:Hstart; [|done].
  pose proof (start_state_ok cfg [] lang (fs w) ls0 Hstart) as (Hr & Hlen & _).
  assert (out_items ls0 = []) as Hnil.
  { destruct (out_items ls0); [done|]. simpl in Hlen. lia. }
  assert (complete (Z.of_nat (length (@nil pydict))) ls0) as Hc.
  { split; [simpl; intros i Hi; lia|]. rewrite Hnil. constructor. }
  eexists. split; [by eapply complete_start_run|].
  split; [by rewrite call_log_finalized, call_log_after_restart|].
  rewrite <- Hnil. apply finalized_output.
Qed.

(** ** Several languages *)

Lemma lang_ok_files {PY : PyRuntime} {S} (cl : client S) cfg data lang (w w' : world S) :
  translate_lang cl cfg data lang w = (Ok tt, w') ->
  exists items,
    fs w' !! output_path (base_name cfg) lang = Some (JArr items) /\
    length items = length data /\
    Forall (fun it => is_none it = false) items /\
    fs w' !! _progress_path (base_name cfg) lang = None.
Proof.
  intros Hrun.
  destruct (lang_name_of lang DEFAULT_LANGS) as [lang_name|] eqn:Hname.
  2:{ rewrite translate_lang_unknown in Hrun by done. done. }
  destruct (start_state cfg data lang (Z.of_nat (length data)) (fs w)) as [ls0|e0] eqn:Hstart.
  2:{ rewrite (translate_lang_eq _ _ _ _ _ _ Hname), Hstart in Hrun. done. }
  destruct (lang_progress cl cfg data lang lang_name w ls0 Hname Hstart)
    as (ls & w1 & Hok & Hadv & [[Hc Heq]|(e' & Heq & Hre)]); [|congruence].
  rewrite Heq in Hrun. injection Hrun as <-.
  exists (out_items ls). destruct (finalized_output cfg lang ls w1) as [H1 H2].
  split; [done|]. split; [|split; [apply Hc|done]].
  destruct Hok as (_ & Hlen & _). lia.
Qed.

Lemma forM_app {S B} (g : B -> M S unit) a b (w : world S) :
  forM_ g (a ++ b) w
  = match forM_ g a w with
    | (Ok _, w') => forM_ g b w'
    | (Err e, w') => (Err e, w')
    end.
Proof.
  revert w. induction a as [|x a IH]; intros w; [done|].
  cbn [app]. rewrite !forM_cons. destruct (g x w) as [[[]|e] w1]; [apply IH|done].
Qed.

Lemma languages_outputs {PY : PyRuntime} {S} (cl : client S) cfg data langs :
  forall (w w' : world S),
  forM_ (translate_lang cl cfg data) langs w = (Ok tt, w') ->
  forall l, l ∈ langs ->
  exists items,
    fs w' !! output_path (base_name cfg) l = Some (JArr items) /\
    length items = length data /\
    Forall (fun it => is_none it = false) items /\
    fs w' !! _progress_path (base_name cfg) l = None.
Proof.
  induction langs as [|h langs IH]; intros w w' Hrun l Hl; [inversion Hl|].
  rewrite forM_cons in Hrun.
  destruct (translate_lang cl cfg data h w) as [[[]|e] w1] eqn:Hh; [|done].
  destruct (decide (l ∈ langs)) as [Hin|Hnin]; [by eapply IH|].
  apply elem_of_cons in Hl as [->|Hl]; [|done].
  destruct (lang_ok_files cl cfg data h w w1 Hh) as (items & H1 & H2 & H3 & H4).
  assert (known h) as Hkh.
  { unfold known. destruct (lang_name_of h DEFAULT_LANGS) eqn:E; [by eexists|].
    rewrite translate_lang_unknown in Hh by done. done. }
  assert (forall k, k ∈ langs -> known k) as Hknown.
  { apply (forM_ok_known cl cfg data langs w1). by rewrite Hrun. }
  assert (forall k, k ∈ langs -> h <> k) as Hne by (intros k Hk ->; done).
  pose proof (languages_frame cl cfg data langs w1 (output_path (base_name cfg) h)) as Ho.
  pose proof (languages_frame cl cfg data langs w1 (_progress_path (base_name cfg) h)) as Hp.
  rewrite Hrun in Ho, Hp. cbn [snd] in Ho, Hp.
  exists items. rewrite Ho, Hp; [done|..].
  - intros k Hk. apply progress_untouched; auto.
  - intros k Hk. apply output_untouched; auto.
Qed.

(** X6.  After a successful run of [translate_dataset] every requested
    language has its output file, with one item for each record, and no
    progress file: the run of a later language leaves the files of an
    earlier one alone. *)
Theorem all_languages_written {PY : PyRuntime} {S} (cl : client S) cfg data langs
    (w w' : world S) l :
  translate_dataset cl cfg data langs w = (Ok tt, w') ->
  l ∈ langs ->
  exists items,
    fs w' !! output_path (base_name cfg) l = Some (JArr items) /\
    length items = length data /\
    Forall (fun it => is_none it = false) items /\
    fs w' !! _progress_path (base_name cfg) l = None.
Proof.
  unfold translate_dataset.
  destruct (batch_size cfg <=? 0); [done|].
  destruct (timeout cfg <=? 0); [done|].
  destruct (max_retries cfg <=? 0); [done|].
  intros Hrun Hl. by eapply languages_outputs.
Qed.

(** X7.  [translate_dataset] looks a language code up when its turn
    comes: called with a code that is not in the table, it first runs the
    languages listed before it and then raises [KeyError]; the languages
    after it are not started. *)
Theorem unknown_language_stops_the_run {PY : PyRuntime} {S} (cl : client S) cfg data
    before bad rest (w w1 : world S) :
  translate_dataset cl cfg data before w = (Ok tt, w1) ->
  lang_name_of bad DEFAULT_LANGS = None ->
  translate_dataset cl cfg data (before ++ bad :: rest) w = (Err (KeyError bad), w1).
Proof.
  unfold translate_dataset.
  destruct (batch_size cfg <=? 0); [done|].
  destruct (timeout cfg <=? 0); [done|].
  destruct (max_retries cfg <=? 0); [done|].
  intros Hrun Hbad. rewrite forM_app, Hrun, forM_cons.
  by rewrite translate_lang_unknown.
Qed.

(** ** The requests a run makes *)

Section CallTrace.

Context {PY : PyRuntime} {S : Type}.
Variable call_api : client S.
Variable cfg : config.
Variable data : list pydict.
Variable lang lang_name : string.
Hypothesis lang_known : lang_name_of lang DEFAULT_LANGS = Some lang_name.

Let total := Z.of_nat (length data).

(** [P] relates the state between two batches and the requests made so
    far, [Q] is what holds of the requests however the run ends. *)
Variable P : loop_state -> list call_args -> Prop.
Variable Q : list call_args -> Prop.
Hypothesis P_Q : forall ls cs, P ls cs -> Q cs.
Hypothesis Q_nil : Q [].
Hypothesis P_cached : forall ls cs start items instrs,
  0 <= start -> state_ok total ls -> P ls cs ->
  batch_prep data (pending_of cfg total ls start) = Ok (items, instrs) ->
  (scan_cache (cache ls) 0 instrs).2 = [] ->
  P (batch_apply ls (pending_of cfg total ls start) items
       ((scan_cache (cache ls) 0 instrs).1, cache ls)) cs.
Hypothesis P_call : forall ls cs start items instrs,
  0 <= start -> state_ok total ls -> P ls cs ->
  batch_prep data (pending_of cfg total ls start) = Ok (items, instrs) ->
  (scan_cache (cache ls) 0 instrs).2 <> [] ->
  Q (cs ++ [batch_args cfg lang_name instrs (scan_cache (cache ls) 0 instrs).2]) /\
  forall s bt,
    (call_api s (batch_args cfg lang_name instrs (scan_cache (cache ls) 0 instrs).2)).1
      = Ok bt ->
    P (batch_apply ls (pending_of cfg total ls start) items
         (merge_translations instrs (scan_cache (cache ls) 0 instrs).2 bt
            (scan_cache (cache ls) 0 instrs).1 (cache ls)))
      (cs ++ [batch_args cfg lang_name instrs (scan_cache (cache ls) 0 instrs).2]).

Lemma lang_calls (w : world S) :
  (forall ls0, start_state cfg data lang total (fs w) = Ok ls0 -> P ls0 []) ->
  exists cs,
    call_log (log (translate_lang call_api cfg data lang w).2) = call_log (log w) ++ cs /\
    Q cs.
Proof.
  intros Hstart. rewrite (translate_lang_eq _ _ _ _ _ _ lang_known). fold total.
  destruct (start_state cfg data lang total (fs w)) as [ls0|e0] eqn:E0.
  2:{ exists []. cbn [snd]. rewrite call_log_after_restart, app_nil_r. done. }
  pose proof (batch_loop_trace call_api cfg data lang lang_name total
                (fun ls w' => state_ok total ls /\
                              exists cs, call_log (log w') = call_log (log w) ++ cs /\ P ls cs)
                (fun w' => exists cs, call_log (log w') = call_log (log w) ++ cs /\ Q cs))
    as Hloop.
  specialize (Hloop ltac:(intros ls w' (_ & cs & H1 & H2); exists cs; eauto)).
  specialize (Hloop ltac:(intros ls w' start items instrs Hs (Hok & cs & H1 & H2) _ Hprep Hm;
                          split; [by eapply batch_apply_state_ok|];
                          exists cs; rewrite call_log_persisted; eauto)).
  assert (forall ls w' start items instrs r s',
    0 <= start ->
    (state_ok total ls /\
     exists cs, call_log (log w') = call_log (log w) ++ cs /\ P ls cs) ->
    pending_of cfg total ls start <> [] ->
    batch_prep data (pending_of cfg total ls start) = Ok (items, instrs) ->
    (scan_cache (cache ls) 0 instrs).2 <> [] ->
    call_api (cstate w') (batch_args cfg lang_name instrs (scan_cache (cache ls) 0 instrs).2)
      = (r, s') ->
    match r with
    | Err _ =>
        exists cs,
          call_log (log (called (batch_args cfg lang_name instrs
                                   (scan_cache (cache ls) 0 instrs).2) s' w'))
            = call_log (log w) ++ cs /\ Q cs
    | Ok bt =>
        state_ok total
          (batch_apply ls (pending_of cfg total ls start) items
             (merge_translations instrs (scan_cache (cache ls) 0 instrs).2 bt
                (scan_cache (cache ls) 0 instrs).1 (cache ls))) /\
        exists cs,
          call_log (log (persisted (_progress_path (base_name cfg) lang)
             (checkpoint_of cfg total lang
                (batch_apply ls (pending_of cfg total ls start) items
                   (merge_translations instrs (scan_cache (cache ls) 0 instrs).2 bt
                      (scan_cache (cache ls) 0 instrs).1 (cache ls))))
             (called (batch_args cfg lang_name instrs
                        (scan_cache (cache ls) 0 instrs).2) s' w')))
            = call_log (log w) ++ cs /\
          P (batch_apply ls (pending_of cfg total ls start) items
               (merge_translations instrs (scan_cache (cache ls) 0 instrs).2 bt
                  (scan_cache (cache ls) 0 instrs).1 (cache ls))) cs
    end) as Hcall.
  { intros ls w' start items instrs r s' Hs (Hok & cs & H1 & H2) _ Hprep Hm Hcall.
    destruct (P_call ls cs start items instrs Hs Hok H2 Hprep Hm) as [HQ HP].
    destruct r as [bt|e].
    - split; [by eapply batch_apply_state_ok|].
      exists (cs ++ [batch_args cfg lang_name instrs (scan_cache (cache ls) 0 instrs).2]).
      rewrite call_log_persisted, call_log_called, H1, app_assoc.
      split; [done|]. apply (HP (cstate w')). by rewrite Hcall.
    - exists (cs ++ [batch_args cfg lang_name instrs (scan_cache (cache ls) 0 instrs).2]).
      rewrite call_log_called, H1, app_assoc. done. }
  specialize (Hloop Hcall (range_step total (batch_size cfg)) ls0 (after_restart cfg lang w)
                (range_step_nonneg _ _)).
  specialize (Hloop ltac:(split; [by eapply start_state_ok|]; exists [];
                          rewrite call_log_after_restart, app_nil_r; auto)).
  destruct (foldM _ _ ls0 _) as [[ls|e] w1]; [|exact Hloop].
  destruct Hloop as (Hok & cs & H1 & H2). exists cs. split; [|by eapply P_Q].
  unfold finalize. destruct (negb _ || _) eqn:Ht; [done|].
  pose proof (finalize_ok cfg lang total ls w1 Ht) as Hf.
  unfold finalize in Hf. rewrite Ht in Hf. rewrite Hf. cbn [snd].
  by rewrite call_log_finalized.
Qed.

End CallTrace.

Lemma lang_calls_unknown {PY : PyRuntime} {S} (cl : client S) cfg data lang (w : world S) :
  lang_name_of lang DEFAULT_LANGS = None ->
  call_log (log (translate_lang cl cfg data lang w).2) = call_log (log w) ++ [].
Proof. intros H. rewrite translate_lang_unknown by done. by rewrite app_nil_r. Qed.

Lemma scan_cache_missing_absent c i instrs m :
  m ∈ (scan_cache c i instrs).2 ->
  exists s, instrs !! (m - i)%nat = Some s /\ dict_get s c = None.
Proof.
  revert i. induction instrs as [|s0 instrs IH]; intros i; simpl.
  - intros H. inversion H.
  - specialize (IH (S i)).
    pose proof (scan_cache_missing_range c (S i) instrs m) as Hr.
    destruct (scan_cache c (S i) instrs) as [ts ms].
    destruct (dict_get s0 c) eqn:E; simpl in *.
    + intros H. destruct (IH H) as (s & Hs & Hn). specialize (Hr H).
      exists s. split; [|done].
      replace (m - i)%nat with (S (m - S i)) by lia. done.
    + intros H. apply elem_of_cons in H as [->|H].
      * exists s0. rewrite Nat.sub_diag. done.
      * destruct (IH H) as (s & Hs & Hn). specialize (Hr H).
        exists s. split; [|done].
        replace (m - i)%nat with (S (m - S i)) by lia. done.
Qed.

(** The instructions of a request: each is missing from the cache and is
    the instruction of a pending record. *)
Lemma batch_args_instructions cfg data lang_name total ls start items instrs s :
  0 <= start ->
  batch_prep data (pending_of cfg total ls start) = Ok (items, instrs) ->
  s ∈ ca_instructions (batch_args cfg lang_name instrs (scan_cache (cache ls) 0 instrs).2) ->
  dict_get s (cache ls) = None /\
  exists i item,
    data !! i = Some item /\ instruction_of item = JStr s /\
    Z.of_nat i ∉ done_indices ls.
Proof.
  intros Hs Hprep Hin. unfold batch_args in Hin. cbn [ca_instructions] in Hin.
  apply list_elem_of_fmap in Hin as (m & -> & Hm).
  destruct (scan_cache_missing_absent _ _ _ _ Hm) as (s & Hlook & Hnone).
  rewrite Nat.sub_0_r in Hlook.
  rewrite (list_lookup_total_correct _ _ _ Hlook). split; [done|].
  destruct (batch_prep_spec _ _ _ _ Hprep) as [H1 H2].
  destruct (Forall2_lookup_r _ _ _ _ _ H2 Hlook) as (item & Hitem & Hinstr).
  destruct (Forall2_lookup_r _ _ _ _ _ H1 Hitem) as (idx & Hidx & Hdata).
  apply list_elem_of_lookup_2 in Hidx. apply pending_of_elem in Hidx as (Hr & _ & Hn).
  exists (Z.to_nat idx), item. split; [done|]. split; [done|].
  by rewrite Z2Nat.id by lia.
Qed.

(** X8.  Every request a run makes to the client carries the model, the
    endpoint, the key, the time-out and the retry count of the run and the
    display name of its language; its list of instructions is not empty,
    and each instruction in it is no key of the cache the run started with
    and is the instruction of a record whose position was not done when
    the run started. *)
Theorem requests_are_needed {PY : PyRuntime} {S} (cl : client S) cfg data lang
    (w : world S) :
  exists cs,
    call_log (log (translate_lang cl cfg data lang w).2) = call_log (log w) ++ cs /\
    Forall (request_of_run cfg data lang (done_at_start cfg data lang (fs w))
              (cache_at_start cfg data lang (fs w))) cs.
Proof.
  destruct (lang_name_of lang DEFAULT_LANGS) as [lang_name|] eqn:Hname.
  2:{ exists []. split; [by apply lang_calls_unknown|constructor]. }
  unfold done_at_start, cache_at_start.
  destruct (start_state cfg data lang (Z.of_nat (length data)) (fs w)) as [ls0|e0] eqn:Hstart.
  2:{ exists []. rewrite (translate_lang_eq _ _ _ _ _ _ Hname), Hstart. cbn [snd].
      rewrite call_log_after_restart, app_nil_r. split; [done|constructor]. }
  apply (lang_calls cl cfg data lang lang_name Hname
           (fun ls cs => advanced ls0 ls /\
                         Forall (request_of_run cfg data lang (done_indices ls0) (cache ls0)) cs)
           (Forall (request_of_run cfg data lang (done_indices ls0) (cache ls0)))).
  - tauto.
  - constructor.
  - intros ls cs start items instrs Hs Hok [Hadv Hcs] Hprep Hm. split; [|done].
    eapply advanced_trans; [exact Hadv|].
    eapply batch_outcome_advanced with (cl := cl) (lang_name := lang_name); eauto.
    by left.
  - intros ls cs start items instrs Hs Hok [Hadv Hcs] Hprep Hm.
    assert (request_of_run cfg data lang (done_indices ls0) (cache ls0)
              (batch_args cfg lang_name instrs (scan_cache (cache ls) 0 instrs).2)) as Hreq.
    { unfold request_of_run. cbn [batch_args ca_lang_name ca_model ca_base_url ca_api_key
                                    ca_timeout ca_max_retries].
      repeat (split; [done|]). split.
      - unfold batch_args. cbn [ca_instructions].
        destruct (scan_cache (cache ls) 0 instrs).2; [done|]. by rewrite fmap_cons.
      - intros s Hin.
        destruct (batch_args_instructions cfg data lang_name _ ls start items instrs s
                    Hs Hprep Hin) as (Hnone & i & item & H1 & H2 & H3).
        destruct Hadv as (Hd & Hc & _). split.
        + destruct (dict_has s (cache ls0)) eqn:E; [|done].
          apply Hc in E. unfold dict_has in E. by rewrite Hnone in E.
        + exists i, item. split; [done|]. split; [done|]. intros Hi. by apply H3, Hd. }
    split; [apply Forall_app; split; [done|by constructor]|].
    intros s bt Hcall. split; [|apply Forall_app; split; [done|by constructor]].
    eapply advanced_trans; [exact Hadv|].
    eapply batch_outcome_advanced with (cl := cl) (lang_name := lang_name); eauto.
    right. exists s, bt, (cl s (batch_args cfg lang_name instrs
                                  (scan_cache (cache ls) 0 instrs).2)).2.
    split; [|done]. rewrite <- Hcall. apply surjective_pairing.
  - intros ls0' H. rewrite Hstart in H. injection H as <-.
    split; [apply advanced_refl|constructor].
Qed.

Lemma disjoint_calls_snoc cs new :
  disjoint_calls cs ->
  (forall a s, a ∈ cs -> s ∈ a -> s ∉ new) ->
  disjoint_calls (cs ++ [new]).
Proof.
  intros Hd Hnew i j a b s Hij Ha Hb Hs.
  destruct (decide (j < length cs)%nat) as [Hj|Hj].
  - rewrite lookup_app_l in Ha, Hb by lia. eauto.
  - assert ((i < length cs)%nat) as Hi.
    { apply lookup_lt_Some in Hb. rewrite length_app in Hb. simpl in Hb. lia. }
    rewrite lookup_app_l in Ha by done.
    rewrite lookup_app_r in Hb by lia.
    destruct (j - length cs)%nat; [|done]. injection Hb as <-.
    eapply Hnew; [|done]. by eapply list_elem_of_lookup_2.
Qed.

(** X9.  With a client that keeps the length contract, no instruction is
    sent to the client in two requests of the same run: an instruction that
    was answered is in the cache when a later batch is prepared. *)
Theorem no_instruction_sent_in_two_requests {PY : PyRuntime} {S} (cl : client S) cfg data
    lang (w : world S) :
  length_contract cl ->
  exists cs,
    call_log (log (translate_lang cl cfg data lang w).2) = call_log (log w) ++ cs /\
    disjoint_calls (ca_instructions <$> cs).
Proof.
  intros Hlen.
  destruct (lang_name_of lang DEFAULT_LANGS) as [lang_name|] eqn:Hname.
  2:{ exists []. split; [by apply lang_calls_unknown|]. intros i j a b s _ Ha. done. }
  apply (lang_calls cl cfg data lang lang_name Hname
           (fun ls cs => disjoint_calls (ca_instructions <$> cs) /\
                         forall a s, a ∈ cs -> s ∈ ca_instructions a ->
                                     dict_has s (cache ls) = true)
           (fun cs => disjoint_calls (ca_instructions <$> cs))).
  - tauto.
  - intros i j a b s _ Ha. done.
  - intros ls cs start items instrs Hs Hok [Hd Hc] Hprep Hm. done.
  - intros ls cs start items instrs Hs Hok [Hd Hc] Hprep Hm.
    assert (disjoint_calls
              (ca_instructions <$>
                 cs ++ [batch_args cfg lang_name instrs (scan_cache (cache ls) 0 instrs).2]))
      as Hd'.
    { rewrite fmap_app. apply disjoint_calls_snoc; [done|].
      intros a s Ha Hsa Hsn. apply list_elem_of_fmap in Ha as (a' & -> & Ha').
      destruct (batch_args_instructions cfg data lang_name _ ls start items instrs s
                  Hs Hprep Hsn) as (Hnone & _).
      specialize (Hc a' s Ha' Hsa). unfold dict_has in Hc. by rewrite Hnone in Hc. }
    split; [done|]. intros s bt Hcall. split; [done|].
    intros a x Ha Hx. unfold batch_apply. cbn [cache].
    apply elem_of_app in Ha as [Ha|Ha].
    + apply merge_translations_keeps. eauto.
    + apply list_elem_of_singleton in Ha as ->.
      unfold batch_args in Hx. cbn [ca_instructions] in Hx.
      apply list_elem_of_fmap in Hx as (m & -> & Hm').
      apply merge_translations_adds; [|done].
      apply Hlen in Hcall. rewrite Hcall. unfold batch_args. cbn [ca_instructions].
      by rewrite length_fmap.
  - intros ls0 _. split; [intros i j a b s _ Ha; done|]. intros a s Ha. inversion Ha.
Qed.

Lemma process_batch_calls_le {S} (cl : client S) cfg data lang lang_name total ls start
    (w : world S) :
  (length (call_log (log (process_batch cl cfg data lang lang_name total ls start w).2))
   <= length (call_log (log w)) + 1)%nat.
Proof.
  rewrite process_batch_eq.
  destruct (pending_of cfg total ls start) as [|i0 pend]; [cbn [snd]; lia|].
  destruct (batch_prep data (i0 :: pend)) as [[items instrs]|e]; [|cbn [snd]; lia].
  destruct (scan_cache (cache ls) 0 instrs).2 as [|m0 ms].
  - cbv zeta. cbn [snd]. rewrite call_log_persisted. lia.
  - cbv zeta. destruct (cl (cstate w) _) as [[bt|e] s']; cbn [snd].
    + rewrite call_log_persisted, call_log_called, length_app. simpl. lia.
    + rewrite call_log_called, length_app. simpl. lia.
Qed.

Lemma batch_loop_calls_le {S} (cl : client S) cfg data lang lang_name total starts :
  forall ls (w : world S),
  (length (call_log (log (foldM (process_batch cl cfg data lang lang_name total)
                            starts ls w).2))
   <= length (call_log (log w)) + length starts)%nat.
Proof.
  induction starts as [|start starts IH]; intros ls w; [simpl; lia|].
  cbn [foldM]. unfold bind.
  pose proof (process_batch_calls_le cl cfg data lang lang_name total ls start w) as Hb.
  destruct (process_batch _ _ _ _ _ _ ls start w) as [[ls1|e] w1]; cbn [snd] in *.
  - specialize (IH ls1 w1). simpl. lia.
  - simpl. lia.
Qed.

Lemma range_step_length total step :
  (length (range_step total step) <= Z.to_nat ((total + step - 1) `div` step))%nat.
Proof.
  unfold range_step. destruct (0 <? step); [|simpl; lia].
  rewrite length_fmap, length_seqZ. lia.
Qed.

(** X10.  A run calls the client at most once for each batch: the number
    of requests is at most the number of records divided by the batch size,
    rounded up. *)
Theorem requests_bounded_by_batches {PY : PyRuntime} {S} (cl : client S) cfg data lang
    (w : world S) :
  (length (call_log (log (translate_lang cl cfg data lang w).2))
   <= length (call_log (log w))
      + Z.to_nat ((Z.of_nat (length data) + batch_size cfg - 1) `div` batch_size cfg))%nat.
Proof.
  destruct (lang_name_of lang DEFAULT_LANGS) as [lang_name|] eqn:Hname.
  2:{ rewrite translate_lang_unknown by done. cbn [snd]. lia. }
  rewrite (translate_lang_eq _ _ _ _ _ _ Hname).
  destruct (start_state _ _ _ _ _) as [ls0|e0].
  2:{ cbn [snd]. rewrite call_log_after_restart. lia. }
  pose proof (batch_loop_calls_le cl cfg data lang lang_name (Z.of_nat (length data))
                (range_step (Z.of_nat (length data)) (batch_size cfg)) ls0
                (after_restart cfg lang w)) as Hloop.
  rewrite call_log_after_restart in Hloop.
  pose proof (range_step_length (Z.of_nat (length data)) (batch_size cfg)) as Hlen.
  destruct (foldM _ _ ls0 _) as [[ls|e] w1]; cbn [snd] in *; [|lia].
  destruct (negb (Z.of_nat (size (done_indices ls)) =? Z.of_nat (length data))
            || existsb is_none (out_items ls)) eqn:Ht.
  - rewrite finalize_err by done. cbn [snd]. lia.
  - rewrite finalize_ok by done. cbn [snd]. rewrite call_log_finalized. lia.
Qed.

(** ** Clients that translate each instruction on its own *)

Lemma scan_cache_hit c i instrs k s t :
  instrs !! k = Some s -> dict_get s c = Some t ->
  (scan_cache c i instrs).1 !! k = Some t.
Proof.
  revert i k. induction instrs as [|s0 instrs IH]; intros i k Hk Hs; [done|].
  simpl. specialize (IH (S i)).
  destruct (scan_cache c (S i) instrs) as [ts ms].
  destruct k as [|k]; simpl in Hk.
  - injection Hk as ->. rewrite Hs. done.
  - specialize (IH k Hk Hs). destruct (dict_get s0 c); done.
Qed.

Lemma dict_get_set_inv k v d s t :
  dict_get s (dict_set k v d) = Some t -> (s = k /\ t = v) \/ dict_get s d = Some t.
Proof.
  destruct (decide (k = s)) as [->|Hne].
  - rewrite dict_get_set_eq. intros [= <-]. by left.
  - rewrite dict_get_set_ne by done. by right.
Qed.

Lemma merge_fold_exact (g' : string -> json) instrs missing :
  forall acc,
  Forall (fun m => (m < length instrs)%nat) missing ->
  length acc.1 = length instrs ->
  (forall k s, instrs !! k = Some s -> acc.1 !! k = Some (g' s) \/ k ∈ missing) ->
  (forall s t, dict_get s acc.2 = Some t -> t = g' s) ->
  (forall k s, instrs !! k = Some s ->
     (fold_left (merge_step instrs)
        (zip missing ((fun m => g' (instrs !!! m)) <$> missing)) acc).1 !! k
     = Some (g' s)) /\
  (forall s t,
     dict_get s (fold_left (merge_step instrs)
                   (zip missing ((fun m => g' (instrs !!! m)) <$> missing)) acc).2 = Some t ->
     t = g' s).
Proof.
  induction missing as [|m missing IH]; intros acc Hr Hlen Hts Hc.
  - simpl. split; [|done]. intros k s Hk. destruct (Hts k s Hk) as [H|H]; [done|inversion H].
  - rewrite fmap_cons. cbn [zip zip_with fold_left].
    apply Forall_cons in Hr as [Hm Hr].
    apply IH; [done|..].
    + unfold merge_step. cbn [fst snd]. by rewrite length_insert.
    + intros k s Hk. unfold merge_step. cbn [fst snd].
      destruct (decide (k = m)) as [->|Hne].
      * left. rewrite list_lookup_insert_eq by lia.
        by rewrite (list_lookup_total_correct _ _ _ Hk).
      * rewrite list_lookup_insert_ne by done.
        destruct (Hts k s Hk) as [H|H]; [by left|].
        right. apply elem_of_cons in H as [H|H]; done.
    + intros s t. unfold merge_step. cbn [fst snd]. intros H.
      apply dict_get_set_inv in H as [[-> ->]|H]; [done|auto].
Qed.

Lemma commit_step_exact g lang_name (data : list pydict) total
    (acc : gset Z * list json) (p : Z * pydict * json) :
  (Z.of_nat (length acc.2) = total /\
   forall i, i ∈ acc.1 ->
     exists item, data !! Z.to_nat i = Some item /\
                  acc.2 !! Z.to_nat i = Some (translated_record g lang_name item)) ->
  (0 <= p.1.1 < total /\ data !! Z.to_nat p.1.1 = Some p.1.2 /\
   p.2 = g lang_name (instruction_text p.1.2)) ->
  Z.of_nat (length (commit_step acc p).2) = total /\
  forall i, i ∈ (commit_step acc p).1 ->
    exists item, data !! Z.to_nat i = Some item /\
                 (commit_step acc p).2 !! Z.to_nat i = Some (translated_record g lang_name item).
Proof.
  destruct acc as [d its]. destruct p as [[idx item] t]. cbn [fst snd].
  intros [Hlen Hinv] (Hr & Hdata & ->). unfold commit_step. cbn [fst snd].
  split; [by rewrite length_insert|].
  intros i Hi.
  destruct (decide (Z.to_nat i = Z.to_nat idx)) as [Heq|Hne].
  - exists item. rewrite Heq. split; [done|].
    rewrite list_lookup_insert_eq by lia. done.
  - rewrite list_lookup_insert_ne by done. apply Hinv.
    apply elem_of_union in Hi as [Hi|Hi]; [|done].
    apply elem_of_singleton in Hi. congruence.
Qed.

Lemma batch_apply_exact g lang_name cfg data ls start items instrs merged :
  0 <= start -> exact_state g lang_name data ls ->
  batch_prep data (pending_of cfg (Z.of_nat (length data)) ls start) = Ok (items, instrs) ->
  (forall k s, instrs !! k = Some s -> merged.1 !! k = Some (g lang_name s)) ->
  (forall s t, dict_get s merged.2 = Some t -> t = g lang_name s) ->
  exact_state g lang_name data
    (batch_apply ls (pending_of cfg (Z.of_nat (length data)) ls start) items merged).
Proof.
  intros Hs (Hok & Hitems & Hcache) Hprep Hm1 Hm2.
  set (total := Z.of_nat (length data)) in *.
  split; [by eapply batch_apply_state_ok|]. split; [|exact Hm2].
  unfold batch_apply, commit_batch. cbn [done_indices out_items].
  apply (fold_left_inv commit_step
           (fun acc => Z.of_nat (length acc.2) = total /\
              forall i, i ∈ acc.1 ->
                exists item, data !! Z.to_nat i = Some item /\
                             acc.2 !! Z.to_nat i = Some (translated_record g lang_name item))
           (fun p => 0 <= p.1.1 < total /\ data !! Z.to_nat p.1.1 = Some p.1.2 /\
                     p.2 = g lang_name (instruction_text p.1.2))).
  - intros acc p. apply commit_step_exact.
  - destruct (batch_prep_spec _ _ _ _ Hprep) as [H1 H2].
    apply Forall_lookup. intros k [[idx item] t] Hk. cbn [fst snd].
    apply lookup_zip_with_Some in Hk as (p & t' & [= <- <-] & Hp & Ht).
    apply lookup_zip_with_Some in Hp as (idx' & item' & [= <- <-] & Hidx & Hitem).
    pose proof (Forall2_lookup_lr _ _ _ _ _ _ H1 Hidx Hitem) as Hdata.
    destruct (Forall2_lookup_l _ _ _ _ _ H2 Hitem) as (s & Hsk & Hinstr).
    apply list_elem_of_lookup_2 in Hidx. apply pending_of_elem in Hidx.
    split; [lia|]. split; [done|].
    rewrite (Hm1 k s Hsk) in Ht. injection Ht as <-.
    unfold instruction_text. by rewrite Hinstr.
  - split; [apply Hok|]. exact Hitems.
Qed.

Lemma complete_exact_output g lang_name data ls :
  exact_state g lang_name data ls -> complete (Z.of_nat (length data)) ls ->
  out_items ls = translated_record g lang_name <$> data.
Proof.
  intros ((_ & Hlen & _) & Hitems & _) [Hall _].
  apply list_eq. intros k. rewrite list_lookup_fmap.
  destruct (data !! k) as [item|] eqn:Hk.
  - assert (Z.of_nat k ∈ done_indices ls) as Hd.
    { apply Hall. apply lookup_lt_Some in Hk. lia. }
    destruct (Hitems _ Hd) as (item' & H1 & H2). rewrite Nat2Z.id in H1, H2.
    rewrite H2. simpl. congruence.
  - simpl. apply lookup_ge_None. apply lookup_ge_None in Hk. lia.
Qed.

Lemma fresh_state_exact g lang_name data : exact_state g lang_name data (fresh_state data).
Proof.
  split; [apply fresh_state_ok|]. split.
  - intros i Hi. cbn [fresh_state done_indices] in Hi. by apply elem_of_empty in Hi.
  - intros s t H. done.
Qed.

(** X11.  With a client that translates every instruction on its own (its
    answer to an instruction does not depend on the request the
    instruction is sent in), batching, the cache and the progress file are
    not visible in the result: a successful run from a clean directory, or
    from a progress file that such a run left, writes for every record the
    record with its instruction replaced by the client's translation of
    it; and a run that raises leaves a progress file of that kind. *)
Theorem pointwise_client_pointwise_output {PY : PyRuntime} {S} (cl : client S)
    (g : string -> string -> json) cfg data lang lang_name (w : world S) :
  pointwise g cl ->
  lang_name_of lang DEFAULT_LANGS = Some lang_name ->
  (forall ls0, start_state cfg data lang (Z.of_nat (length data)) (fs w) = Ok ls0 ->
               exact_state g lang_name data ls0) ->
  match translate_lang cl cfg data lang w with
  | (Ok _, w') =>
      fs w' !! output_path (base_name cfg) lang
      = Some (JArr (translated_record g lang_name <$> data))
  | (Err _, w') =>
      resume cfg = true -> force_restart cfg = false ->
      forall ls, start_state cfg data lang (Z.of_nat (length data)) (fs w') = Ok ls ->
                 exact_state g lang_name data ls
  end.
Proof.
  intros Hpt Hname Hstart. rewrite (translate_lang_eq _ _ _ _ _ _ Hname).
  set (total := Z.of_nat (length data)) in *.
  destruct (start_state cfg data lang total (fs w)) as [ls0|e0] eqn:E0.
  2:{ intros Hr Hf ls. rewrite after_restart_keep by done. rewrite E0. done. }
  pose proof (batch_loop_trace cl cfg data lang lang_name total
                (fun ls w' => exact_state g lang_name data ls /\
                              reloads cfg data lang total (fs w') ls)
                (fun w' => exists ls, exact_state g lang_name data ls /\
                                      reloads cfg data lang total (fs w') ls))
    as Hloop.
  specialize (Hloop ltac:(intros ls w' H; exists ls; exact H)).
  assert (forall ls start items instrs,
            0 <= start -> exact_state g lang_name data ls ->
            batch_prep data (pending_of cfg total ls start) = Ok (items, instrs) ->
            forall k s, instrs !! k = Some s ->
              (scan_cache (cache ls) 0 instrs).1 !! k = Some (g lang_name s) \/
              k ∈ (scan_cache (cache ls) 0 instrs).2) as Hscan.
  { intros ls start items instrs Hs (_ & _ & Hc) Hprep k s Hk.
    destruct (scan_cache_cover (cache ls) 0 instrs k s Hk) as [H|H]; [left|by right].
    unfold dict_has in H. destruct (dict_get s (cache ls)) as [t|] eqn:Ht; [|done].
    rewrite (scan_cache_hit _ _ _ _ _ _ Hk Ht). f_equal. by eapply Hc. }
  specialize (Hloop ltac:(
    intros ls w' start items instrs Hs [Hex _] _ Hprep Hm;
    assert (exact_state g lang_name data
              (batch_apply ls (pending_of cfg total ls start) items
                 ((scan_cache (cache ls) 0 instrs).1, cache ls))) as Hex';
    [eapply batch_apply_exact; eauto; cbn [fst snd];
      [intros k s Hk; destruct (Hscan ls start items instrs Hs Hex Hprep k s Hk) as [H|H];
         [done|rewrite Hm in H; inversion H]
      |apply Hex]
    |split; [done|apply reloads_persisted, Hex']])).
  specialize (Hloop ltac:(
    intros ls w' start items instrs [bt|e] s' Hs [Hex Hre] _ Hprep Hm Hcall;
    [|exists ls; split; [done|exact Hre]];
    assert (bt = (fun m => g lang_name (instrs !!! m)) <$> (scan_cache (cache ls) 0 instrs).2)
      as ->;
    [pose proof (Hpt (cstate w') _ bt ltac:(by rewrite Hcall)) as Hbt;
     unfold batch_args in Hbt; cbn [ca_lang_name ca_instructions] in Hbt;
     by rewrite <- list_fmap_compose in Hbt|];
    assert (exact_state g lang_name data
              (batch_apply ls (pending_of cfg total ls start) items
                 (merge_translations instrs (scan_cache (cache ls) 0 instrs).2
                    ((fun m => g lang_name (instrs !!! m)) <$> (scan_cache (cache ls) 0 instrs).2)
                    (scan_cache (cache ls) 0 instrs).1 (cache ls)))) as Hex';
    [destruct (merge_fold_exact (g lang_name) instrs (scan_cache (cache ls) 0 instrs).2
                 ((scan_cache (cache ls) 0 instrs).1, cache ls)) as [H1 H2];
       [apply Forall_forall; intros m Hin;
        apply scan_cache_missing_range in Hin; lia
       |apply scan_cache_length
       |by eapply Hscan
       |apply Hex
       |eapply batch_apply_exact; eauto]
    |split; [done|apply reloads_persisted, Hex']])).
  specialize (Hloop (range_step total (batch_size cfg)) ls0 (after_restart cfg lang w)
                (range_step_nonneg _ _)).
  specialize (Hloop ltac:(split; [by apply Hstart|];
                          intros Hr Hf; by rewrite after_restart_keep)).
  destruct (foldM _ _ ls0 _) as [[ls|e] w1].
  - destruct Hloop as [Hex Hre].
    destruct (negb (Z.of_nat (size (done_indices ls)) =? total)
              || existsb is_none (out_items ls)) eqn:Ht.
    + rewrite finalize_err by done. intros Hr Hf ls' Hls'.
      rewrite (Hre Hr Hf) in Hls'. by injection Hls' as <-.
    + rewrite finalize_ok by done.
      rewrite (proj1 (finalized_output cfg lang ls w1)). do 2 f_equal.
      apply complete_exact_output; [done|]. apply finalize_test; [apply Hex|done].
  - destruct Hloop as (ls & Hex & Hre). intros Hr Hf ls' Hls'.
    rewrite (Hre Hr Hf) in Hls'. by injection Hls' as <-.
Qed.

(** ** The attempts of [call_api_batch] *)

Lemma seqZ_snoc_shift (attempt : Z) (k : nat) :
  [3 * attempt] ++ ((fun a => 3 * a) <$> seqZ (attempt + 1) (Z.of_nat k))
  = (fun a => 3 * a) <$> seqZ attempt (Z.of_nat (S k)).
Proof.
  rewrite (seqZ_cons attempt (Z.of_nat (S k))) by lia. rewrite fmap_cons.
  simpl. do 3 f_equal; lia.
Qed.

(** The call as a function of the answers of the endpoint: it returns at
    the first attempt that succeeds and raises when none of the
    [remaining] attempts does. *)
Lemma attempts_loop_trace {N} (ep : endpoint N) args remaining :
  forall attempt last s,
  (exists k c b l,
      post_trace ep args remaining (net_state s) !! k = Some (Response c b) /\
      transient_status c = false /\
      decode_response (length (ca_instructions args)) c b = Ok l /\
      (forall j o, (j < k)%nat ->
         post_trace ep args remaining (net_state s) !! j = Some o ->
         attempt_succeeds (length (ca_instructions args)) o = false) /\
      (attempts_loop ep args remaining attempt last s).1 = Ok l /\
      net_posts (attempts_loop ep args remaining attempt last s).2
        = (net_posts s + S k)%nat /\
      net_slept (attempts_loop ep args remaining attempt last s).2
        = net_slept s ++ ((fun a => 3 * a) <$> seqZ attempt (Z.of_nat k))) \/
  (Forall (fun o => attempt_succeeds (length (ca_instructions args)) o = false)
     (post_trace ep args remaining (net_state s)) /\
   (attempts_loop ep args remaining attempt last s).1
     = Err (TranslationFailure (ca_max_retries args)
              (last_raised (length (ca_instructions args)) last
                 (post_trace ep args remaining (net_state s)))) /\
   net_posts (attempts_loop ep args remaining attempt last s).2
     = (net_posts s + remaining)%nat /\
   net_slept (attempts_loop ep args remaining attempt last s).2
     = net_slept s ++ ((fun a => 3 * a) <$> seqZ attempt (Z.of_nat remaining))).
Proof.
  induction remaining as [|r IH]; intros attempt last s.
  - right. simpl. split; [constructor|]. split; [done|]. split; [lia|].
    by rewrite app_nil_r.
  - cbn [attempts_loop post_trace].
    destruct (post ep (net_state s) args) as [out n'] eqn:Hpost. cbn [fst snd].
    assert (forall last',
      attempt_succeeds (length (ca_instructions args)) out = false ->
      last_raised (length (ca_instructions args)) last (out :: post_trace ep args r n')
      = last_raised (length (ca_instructions args)) last' (post_trace ep args r n') ->
      let res := attempts_loop ep args r (attempt + 1) last'
                   (Net n' (net_slept s ++ [3 * attempt]) (S (net_posts s))) in
      (exists k c b l,
          (out :: post_trace ep args r n') !! k = Some (Response c b) /\
          transient_status c = false /\
          decode_response (length (ca_instructions args)) c b = Ok l /\
          (forall j o, (j < k)%nat ->
             (out :: post_trace ep args r n') !! j = Some o ->
             attempt_succeeds (length (ca_instructions args)) o = false) /\
          res.1 = Ok l /\
          net_posts res.2 = (net_posts s + S k)%nat /\
          net_slept res.2
            = net_slept s ++ ((fun a => 3 * a) <$> seqZ attempt (Z.of_nat k))) \/
      (Forall (fun o => attempt_succeeds (length (ca_instructions args)) o = false)
         (out :: post_trace ep args r n') /\
       res.1 = Err (TranslationFailure (ca_max_retries args)
                      (last_raised (length (ca_instructions args)) last
                         (out :: post_trace ep args r n'))) /\
       net_posts res.2 = (net_posts s + S r)%nat /\
       net_slept res.2
         = net_slept s ++ ((fun a => 3 * a) <$> seqZ attempt (Z.of_nat (S r))))) as Hfail.
    { intros last' Hout Hlast res. subst res.
      destruct (IH (attempt + 1) last'
                  (Net n' (net_slept s ++ [3 * attempt]) (S (net_posts s))))
        as [(k & c & b & l & H1 & H2 & H3 & H4 & H5 & H6 & H7)|(H1 & H2 & H3 & H4)];
        cbn [net_state net_posts net_slept] in *.
      - left. exists (S k), c, b, l. split; [done|]. split; [done|]. split; [done|].
        split.
        { intros [|j] o Hj Ho; simpl in Ho; [by injection Ho as <-|].
          eapply H4; [|done]. lia. }
        split; [done|]. split; [lia|].
        rewrite H7, <- app_assoc. f_equal. apply seqZ_snoc_shift.
      - right. split; [by constructor|]. split; [by rewrite Hlast|]. split; [lia|].
        rewrite H4, <- app_assoc. f_equal. apply seqZ_snoc_shift. }
    destruct out as [e|c b].
    + apply Hfail; done.
    + destruct (transient_status c) eqn:Ht.
      * apply Hfail; [by simpl; rewrite Ht|].
        unfold last_raised. simpl. by rewrite Ht.
      * destruct (decode_response (length (ca_instructions args)) c b) as [l|e] eqn:Hd.
        -- left. exists 0%nat, c, b, l. cbn [fst snd net_posts net_slept].
           split; [done|]. split; [done|]. split; [done|].
           split; [intros j o Hj; lia|]. split; [done|]. split; [lia|].
           simpl. by rewrite app_nil_r.
        -- apply Hfail; [by simpl; rewrite Ht, Hd|].
           unfold last_raised. simpl. by rewrite Ht, Hd.
Qed.

(** X12.  [call_api_batch] returns at the first attempt that is answered
    with a status that is neither transient nor an error and with an array
    of the length of the request: it returns that array, makes no further
    request, and has slept [1.5 * attempt] seconds after each attempt before
    it.  When none of the [max_retries] attempts is answered so, it raises
    [TranslationFailure] after exactly [max_retries] requests, having slept
    after each of them, the last one included.  With [max_retries] not
    positive it raises without any request. *)
Theorem call_api_batch_first_success {N} (ep : endpoint N) (s : net N) args :
  (exists k c b l,
      post_trace ep args (Z.to_nat (ca_max_retries args)) (net_state s) !! k
        = Some (Response c b) /\
      transient_status c = false /\
      decode_response (length (ca_instructions args)) c b = Ok l /\
      (forall j o, (j < k)%nat ->
         post_trace ep args (Z.to_nat (ca_max_retries args)) (net_state s) !! j = Some o ->
         attempt_succeeds (length (ca_instructions args)) o = false) /\
      (call_api_batch ep s args).1 = Ok l /\
      length l = length (ca_instructions args) /\
      net_posts (call_api_batch ep s args).2 = (net_posts s + S k)%nat /\
      net_slept (call_api_batch ep s args).2 = net_slept s ++ backoff k) \/
  (Forall (fun o => attempt_succeeds (length (ca_instructions args)) o = false)
     (post_trace ep args (Z.to_nat (ca_max_retries args)) (net_state s)) /\
   (exists last,
       (call_api_batch ep s args).1 = Err (TranslationFailure (ca_max_retries args) last)) /\
   net_posts (call_api_batch ep s args).2
     = (net_posts s + Z.to_nat (ca_max_retries args))%nat /\
   net_slept (call_api_batch ep s args).2
     = net_slept s ++ backoff (Z.to_nat (ca_max_retries args))).
Proof.
  unfold call_api_batch, backoff.
  destruct (attempts_loop_trace ep args (Z.to_nat (ca_max_retries args)) 1 None s)
    as [(k & c & b & l & H1 & H2 & H3 & H4 & H5 & H6 & H7)|(H1 & H2 & H3 & H4)].
  - left. exists k, c, b, l. repeat (split; [done|]).
    split; [by eapply decode_response_length|]. done.
  - right. split; [done|]. split; [eauto|]. done.
Qed.

(** X13.  The error that [TranslationFailure] carries is the exception of
    the last attempt that ended with one (a failed request, an error
    status that is not transient, a reply that cannot be decoded, is empty,
    is no array or has the wrong length), and nothing when no attempt did:
    attempts answered with a transient status leave it as it was. *)
Theorem call_api_batch_carries_last_exception {N} (ep : endpoint N) (s : net N) args e :
  (call_api_batch ep s args).1 = Err e ->
  e = TranslationFailure (ca_max_retries args)
        (last_raised (length (ca_instructions args)) None
           (post_trace ep args (Z.to_nat (ca_max_retries args)) (net_state s))).
Proof.
  unfold call_api_batch. intros H.
  destruct (attempts_loop_trace ep args (Z.to_nat (ca_max_retries args)) 1 None s)
    as [(k & c & b & l & _ & _ & _ & _ & H5 & _)|(_ & H2 & _)]; congruence.
Qed.

(** ** The progress store *)

(** X14.  [_atomic_write_json] leaves the payload in the file, no
    temporary file beside it (also when one was there before), and every
    other file as it was; it writes the temporary file first and renames
    it. *)
Theorem atomic_write_replaces_file {S} path payload (w : world S) :
  exists w',
    _atomic_write_json path payload w = (Ok tt, w') /\
    fs w' !! path = Some payload /\
    fs w' !! tmp_path path = None /\
    (forall x, x <> path -> x <> tmp_path path -> fs w' !! x = fs w !! x) /\
    cstate w' = cstate w /\
    log w' = log w ++ [EvWrite (tmp_path path) payload; EvReplace (tmp_path path) path].
Proof.
  exists (persisted path payload w). split; [apply atomic_write_spec|].
  split; [apply persisted_lookup|]. split; [apply lookup_delete_eq|].
  split; [|done]. intros x H1 H2. apply persisted_outside.
  rewrite !elem_of_cons. intros [?|[?|H]]; [done..|inversion H].
Qed.

(** X15.  Writing and reloading a progress state is the identity: the
    state built by [_build_progress_state] from a done set of positions of
    the dataset, a cache and an array with one slot per record whose done
    positions hold an item passes [_validate_progress_state] under the same
    configuration and gives back that done set, that cache and that
    array. *)
Theorem checkpoint_round_trip {PY : PyRuntime} cfg total lang d c its :
  state_ok total (LoopState d c its) ->
  _validate_progress_state (_build_progress_state cfg total lang d c its) cfg total lang
  = Ok (LoopState d c its).
Proof. intros H. by apply (validate_checkpoint cfg total lang (LoopState d c its)). Qed.

(** ** The reply: [_strip_code_fence] *)

Lemma lstrip_split (s : text) : exists ws, s = ws ++ lstrip s /\ all_space ws.
Proof.
  induction s as [|c s (ws & IH & Hws)]; [exists []; split; [done|constructor]|].
  simpl. destruct (is_space c) eqn:E.
  - exists (c :: ws). split; [simpl; by f_equal|by constructor].
  - exists []. split; [done|constructor].
Qed.

Lemma lstrip_head (s : text) c : head (lstrip s) = Some c -> is_space c = false.
Proof.
  induction s as [|c' s IH]; [done|]. simpl.
  destruct (is_space c') eqn:E; [done|]. simpl. by intros [= <-].
Qed.

Lemma lstrip_space_app (ws s : text) : all_space ws -> lstrip (ws ++ s) = lstrip s.
Proof. induction 1 as [|c ws Hc Hws IH]; [done|]. simpl. by rewrite Hc. Qed.

Lemma lstrip_keep (c : N) (s : text) : is_space c = false -> lstrip (c :: s) = c :: s.
Proof. intros H. simpl. by rewrite H. Qed.

Lemma all_space_rev (ws : text) : all_space ws -> all_space (rev ws).
Proof.
  unfold all_space. rewrite !Forall_forall. intros H c Hc. apply H.
  apply list_elem_of_In. by apply list_elem_of_In, in_rev in Hc.
Qed.

Lemma rstrip_split (s : text) : exists ws, s = rstrip s ++ ws /\ all_space ws.
Proof.
  unfold rstrip. destruct (lstrip_split (rev s)) as (ws & H & Hws).
  exists (rev ws). split; [|by apply all_space_rev].
  rewrite <- rev_app_distr, <- H. by rewrite rev_involutive.
Qed.

Lemma rstrip_last (s : text) c : last (rstrip s) = Some c -> is_space c = false.
Proof.
  unfold rstrip. intros H. apply (lstrip_head (rev s)).
  destruct (lstrip (rev s)) as [|c' l]; [done|]. simpl in *.
  rewrite last_snoc in H. done.
Qed.

(** What [strip] leaves neither begins nor ends with white space. *)
Lemma strip_ends (s : text) c :
  head (strip s) = Some c \/ last (strip s) = Some c -> is_space c = false.
Proof.
  unfold strip. intros [H|H]; [|by eapply rstrip_last].
  destruct (rstrip_split (lstrip s)) as (ws & Heq & _).
  apply (lstrip_head s). rewrite Heq.
  destruct (rstrip (lstrip s)); [done|]. done.
Qed.

(** White space around a text that begins and ends with other characters
    is all that [strip] removes. *)
Lemma strip_core (ws1 ws2 : text) (c c' : N) (mid : text) :
  all_space ws1 -> all_space ws2 -> is_space c = false -> is_space c' = false ->
  strip (ws1 ++ (c :: mid ++ [c']) ++ ws2) = c :: mid ++ [c'].
Proof.
  intros H1 H2 Hc Hc'. unfold strip. rewrite lstrip_space_app by done.
  cbn [app]. rewrite lstrip_keep by done. unfold rstrip.
  change (c :: (mid ++ [c']) ++ ws2) with ((c :: mid ++ [c']) ++ ws2).
  rewrite rev_app_distr. rewrite lstrip_space_app by by apply all_space_rev.
  change (c :: mid ++ [c']) with ((c :: mid) ++ [c']).
  rewrite rev_app_distr. change (rev [c']) with [c']. cbn [app].
  rewrite lstrip_keep by done.
  change (c' :: rev (c :: mid)) with ([c'] ++ rev (c :: mid)).
  by rewrite rev_app_distr, rev_involutive.
Qed.

Lemma splitlines_from_line (l rest : text) :
  no_linebreak l -> forall cur, splitlines_from cur (l ++ rest) = splitlines_from (cur ++ l) rest.
Proof.
  induction 1 as [|c l Hc Hl IH]; intros cur; [by rewrite app_nil_r|].
  cbn [app splitlines_from]. rewrite Hc, IH. by rewrite <- app_assoc.
Qed.

(** Lines without boundary characters, joined by line feeds, are split up
    again as they were, when the last one is not empty. *)
Lemma splitlines_from_join (rest : list text) :
  forall (l cur : text),
  Forall no_linebreak (l :: rest) ->
  last ((cur ++ l) :: rest) <> Some [] ->
  splitlines_from cur (join LF (l :: rest)) = (cur ++ l) :: rest.
Proof.
  induction rest as [|l' rest IH]; intros l cur Hnl Hlast.
  - cbn [join]. rewrite <- (app_nil_r l) at 1.
    rewrite splitlines_from_line by by inversion Hnl.
    simpl in *. destruct (cur ++ l); done.
  - change (join LF (l :: l' :: rest)) with (l ++ LF ++ join LF (l' :: rest)).
    rewrite splitlines_from_line by by inversion Hnl.
    unfold LF at 1. cbn [app splitlines_from]. simpl (is_linebreak 10).
    inversion Hnl as [|? ? _ Hnl']; subst.
    pose proof (IH l' [] Hnl') as IH'. cbn [app] in IH'.
    assert (last (l' :: rest) <> Some []) as Hlast'.
    { intros H. apply Hlast. by destruct rest. }
    specialize (IH' Hlast'). f_equal.
    destruct (join LF (l' :: rest)) as [|c' s''] eqn:Hj.
    + done.
    + exact IH'.
Qed.

Lemma splitlines_join (l : text) (rest : list text) :
  Forall no_linebreak (l :: rest) -> last (l :: rest) <> Some [] ->
  splitlines (join LF (l :: rest)) = l :: rest.
Proof. intros H1 H2. unfold splitlines. by rewrite splitlines_from_join. Qed.

Lemma join_snoc (sep : text) (l : text) (ls : list text) (x : text) :
  join sep ((l :: ls) ++ [x]) = join sep (l :: ls) ++ sep ++ x.
Proof.
  revert l. induction ls as [|l' ls IH]; intros l; [done|].
  change (join sep ((l :: l' :: ls) ++ [x])) with (l ++ sep ++ join sep ((l' :: ls) ++ [x])).
  rewrite IH. change (join sep (l :: l' :: ls)) with (l ++ sep ++ join sep (l' :: ls)).
  by rewrite <- !app_assoc.
Qed.

Lemma startswith_app (p s : text) : startswith p (p ++ s) = true.
Proof. induction p as [|a p IH]; [done|]. simpl. by rewrite N.eqb_refl. Qed.

Lemma no_linebreak_fence : no_linebreak fence.
Proof. repeat constructor. Qed.

(** X16.  What [_strip_code_fence] returns neither begins nor ends with
    white space, fenced or not. *)
Theorem strip_code_fence_is_stripped (t : text) c :
  head (_strip_code_fence t) = Some c \/ last (_strip_code_fence t) = Some c ->
  is_space c = false.
Proof.
  unfold _strip_code_fence. destruct (startswith fence (strip t)); apply strip_ends.
Qed.

(** X17.  A reply that consists of an opening fence line (three
    backquotes and a tag such as [json]), lines of content and a closing
    fence, with white space around it, is reduced to its content: the
    content lines joined by line feeds and stripped.  The lines are taken
    without line boundary characters. *)
Theorem strip_code_fence_unwraps (ws1 ws2 tag : text) (body : list text) :
  all_space ws1 -> all_space ws2 -> no_linebreak tag -> Forall no_linebreak body ->
  _strip_code_fence (ws1 ++ join LF ((fence ++ tag) :: body ++ [fence]) ++ ws2)
  = strip (join LF body).
Proof.
  intros H1 H2 Htag Hbody.
  assert (exists mid, join LF ((fence ++ tag) :: body ++ [fence]) = 96%N :: mid ++ [96%N])
    as [mid Hcore].
  { change ((fence ++ tag) :: body ++ [fence]) with (((fence ++ tag) :: body) ++ [fence]).
    rewrite join_snoc.
    assert (exists j, join LF ((fence ++ tag) :: body) = 96%N :: j) as [j ->].
    { destruct body; simpl; eauto. }
    exists (j ++ LF ++ [96; 96]%N). unfold fence. simpl. by rewrite <- !app_assoc. }
  unfold _strip_code_fence. rewrite Hcore, strip_core by done. rewrite <- Hcore.
  assert (startswith fence (join LF ((fence ++ tag) :: body ++ [fence])) = true) as ->.
  { destruct (body ++ [fence]) as [|t l] eqn:E; [by destruct body|].
    change (join LF ((fence ++ tag) :: t :: l)) with ((fence ++ tag) ++ LF ++ join LF (t :: l)).
    rewrite <- app_assoc. apply startswith_app. }
  rewrite splitlines_join.
  - rewrite startswith_app, last_snoc.
    change (startswith fence fence) with true. cbv iota.
    by rewrite removelast_last.
  - constructor.
    + apply Forall_app. split; [apply no_linebreak_fence|done].
    + apply Forall_app. split; [done|]. constructor; [apply no_linebreak_fence|constructor].
  - change ((fence ++ tag) :: body ++ [fence]) with (((fence ++ tag) :: body) ++ [fence]).
    rewrite last_snoc. done.
Qed.

(** ** The completeness check *)

Lemma process_batch_done {S} (cl : client S) cfg data lang lang_name total ls start
    (w w1 : world S) ls1 :
  0 <= start -> state_ok total ls ->
  process_batch cl cfg data lang lang_name total ls start w = (Ok ls1, w1) ->
  state_ok total ls1 /\ advanced ls ls1 /\ pending_of cfg total ls1 start = [].
Proof.
  intros Hs Hok. rewrite process_batch_eq.
  destruct (pending_of cfg total ls start) as [|i0 pend] eqn:Hp.
  { intros [= <- <-]. split; [done|]. split; [apply advanced_refl|done]. }
  rewrite <- Hp.
  destruct (batch_prep data (pending_of cfg total ls start)) as [[items instrs]|e] eqn:Hprep;
    [|done].
  assert (forall merged,
            batch_outcome cl cfg lang_name ls instrs merged ->
            state_ok total (batch_apply ls (pending_of cfg total ls start) items merged) /\
            advanced ls (batch_apply ls (pending_of cfg total ls start) items merged) /\
            pending_of cfg total
              (batch_apply ls (pending_of cfg total ls start) items merged) start = [])
    as Happly.
  { intros merged Hout.
    destruct (batch_outcome_advanced cl cfg data lang_name total ls start items instrs merged
                Hs Hok Hprep Hout) as [Hok' Hadv].
    split; [done|]. split; [done|].
    assert (length merged.1 = length instrs) as Hlen.
    { destruct Hout as [[_ ->]|(s & bt & s' & _ & ->)]; cbn [fst].
      - apply scan_cache_length.
      - rewrite merge_translations_length. apply scan_cache_length. }
    apply pending_of_nil. intros i Hi.
    rewrite (batch_apply_done cfg data total ls start items instrs merged Hprep Hlen).
    destruct (decide (i ∈ done_indices ls)) as [|Hn]; [apply elem_of_union; by right|].
    apply elem_of_union. left. apply elem_of_list_to_set.
    unfold pending_of. by apply list_elem_of_filter. }
  destruct (scan_cache (cache ls) 0 instrs).2 as [|m0 ms] eqn:Hm.
  - cbv zeta. intros [= <- <-]. apply Happly. by left.
  - cbv zeta. rewrite <- Hm.
    destruct (cl (cstate w) _) as [[bt|e] s'] eqn:Hcall; [|done].
    intros [= <- <-]. apply Happly. right. eauto.
Qed.

Lemma batch_loop_done {S} (cl : client S) cfg data lang lang_name total starts :
  forall ls (w w1 : world S) ls1,
  Forall (fun s => 0 <= s) starts -> state_ok total ls ->
  foldM (process_batch cl cfg data lang lang_name total) starts ls w = (Ok ls1, w1) ->
  state_ok total ls1 /\ advanced ls ls1 /\
  forall s, s ∈ starts -> pending_of cfg total ls1 s = [].
Proof.
  induction starts as [|start starts IH]; intros ls w w1 ls1 Hst Hok.
  - intros [= <- <-]. split; [done|]. split; [apply advanced_refl|].
    intros s Hs. inversion Hs.
  - apply Forall_cons in Hst as [Hs Hst]. cbn [foldM]. unfold bind.
    destruct (process_batch cl cfg data lang lang_name total ls start w) as [[ls'|e] w']
      eqn:Hb; [|done].
    intros Hrest.
    destruct (process_batch_done _ _ _ _ _ _ _ _ _ _ _ Hs Hok Hb) as (Hok' & Hadv' & Hp').
    destruct (IH ls' w' w1 ls1 Hst Hok' Hrest) as (Hok1 & Hadv1 & Hp1).
    split; [done|]. split; [by eapply advanced_trans|].
    intros s Hin. apply elem_of_cons in Hin as [->|Hin]; [|auto].
    eapply pending_of_nil_mono; [|exact Hp']. apply Hadv1.
Qed.

(** Every position lies in the batch that starts at the multiple of the
    batch size below it. *)
Lemma range_step_covers total step i :
  0 < step -> 0 <= i < total ->
  exists s, s ∈ range_step total step /\ i ∈ batch_range s step total.
Proof.
  intros Hstep Hi. exists (i `div` step * step). split.
  - unfold range_step. rewrite (proj2 (Z.ltb_lt 0 step)) by done.
    apply list_elem_of_fmap. exists (i `div` step). split; [done|].
    apply elem_of_seqZ.
    replace (total + step - 1) with (total - 1 + 1 * step) by lia.
    rewrite Z.div_add by lia.
    pose proof (Z.div_le_mono i (total - 1) step ltac:(lia) ltac:(lia)).
    pose proof (Z.div_pos i step ltac:(lia) ltac:(lia)). lia.
  - unfold batch_range. apply elem_of_seqZ.
    pose proof (Z.mod_pos_bound i step Hstep).
    pose proof (Z.div_mod i step ltac:(lia)). lia.
Qed.

Lemma batch_loop_complete {S} (cl : client S) cfg data lang lang_name total ls
    (w w1 : world S) ls1 :
  0 < batch_size cfg -> state_ok total ls ->
  foldM (process_batch cl cfg data lang lang_name total)
    (range_step total (batch_size cfg)) ls w = (Ok ls1, w1) ->
  state_ok total ls1 /\ complete total ls1.
Proof.
  intros Hbs Hok Hloop.
  destruct (batch_loop_done cl cfg data lang lang_name total _ ls w w1 ls1
              (range_step_nonneg _ _) Hok Hloop) as (Hok1 & _ & Hp).
  split; [done|].
  assert (forall i, 0 <= i < total -> i ∈ done_indices ls1) as Hall.
  { intros i Hi. destruct (range_step_covers total (batch_size cfg) i Hbs Hi) as (s & Hs & Hin).
    specialize (Hp s Hs). by eapply pending_of_nil. }
  split; [done|]. apply Forall_lookup. intros k it Hk.
  destruct Hok1 as (_ & Hlen & Hitems).
  destruct (Hitems (Z.of_nat k)) as (it' & H1 & H2).
  { apply Hall. apply lookup_lt_Some in Hk. lia. }
  rewrite Nat2Z.id in H1. congruence.
Qed.

Lemma mapR_py_int_err {PY : PyRuntime} l e :
  mapR py_int l = Err e -> e = ValueError \/ e = TypeError.
Proof.
  induction l as [|j l IH]; [done|]. cbn [mapR].
  destruct (py_int j) as [n|e'] eqn:Hj.
  - destruct (mapR py_int l); [done|]. intros [= <-]. auto.
  - intros [= <-]. unfold py_int in Hj.
    destruct j; try (injection Hj as <-; auto); try done.
    destruct (py_int_of_str s); [done|]. injection Hj as <-. auto.
Qed.

Lemma validate_err_kind {PY : PyRuntime} state cfg total lang e :
  _validate_progress_state state cfg total lang = Err e ->
  (exists f, e = ProgressMismatch f) \/ (exists f, e = InvalidProgressShape f) \/
  e = AttributeError \/ e = ValueError \/ e = TypeError.
Proof.
  unfold _validate_progress_state.
  destruct state as [| | | | |st]; try (intros [= <-]; tauto).
  destruct (run_key_mismatches st cfg total lang); [|intros [= <-]; eauto].
  destruct (dict_get "items" st) as [[| | | |items|]|];
    try (intros [= <-]; right; left; eauto).
  destruct (negb _); [intros [= <-]; right; left; eauto|].
  destruct (dict_get "done_indices" st) as [[| | | |dl|]|];
    try (intros [= <-]; right; left; eauto).
  destruct (mapR py_int dl) as [ints|e'] eqn:Hints.
  2:{ intros [= <-]. apply mapR_py_int_err in Hints. tauto. }
  destruct (existsb _ _); [intros [= <-]; right; left; eauto|].
  destruct (existsb _ _); [intros [= <-]; right; left; eauto|].
  destruct (dict_get "cache" st) as [[| | | | |c]|];
    try (intros [= <-]; right; left; eauto).
Qed.

Lemma batch_prep_err_kind data pending e :
  batch_prep data pending = Err e -> e = IndexError \/ exists idx, e = NonStringInstruction idx.
Proof.
  unfold batch_prep.
  destruct (mapR (data_item data) pending) as [items|e'] eqn:E1.
  - destruct (mapR _ (zip pending items)) as [instrs|e''] eqn:E2; [done|].
    intros [= <-]. right. clear E1. revert E2. generalize (zip pending items).
    intros l. induction l as [|[idx item] l IH]; [done|]. cbn [mapR].
    unfold source_text at 1.
    destruct (instruction_of item); try (intros [= <-]; eauto).
    destruct (mapR _ l); [done|]. intros [= <-]. by apply IH.
  - intros [= <-]. left. clear -E1. revert E1.
    induction pending as [|idx pending IH]; [done|]. cbn [mapR].
    unfold data_item at 1. destruct (data !! Z.to_nat idx); [|by intros [= <-]].
    destruct (mapR _ pending); [done|]. intros [= <-]. by apply IH.
Qed.

(** An exception of the batch loop is one of the preparation of a batch or
    one the client raised. *)
Lemma batch_loop_err_kind {S} (cl : client S) cfg data lang lang_name total starts :
  forall ls (w w1 : world S) e,
  foldM (process_batch cl cfg data lang lang_name total) starts ls w = (Err e, w1) ->
  e = IndexError \/ (exists idx, e = NonStringInstruction idx) \/
  exists s args, (cl s args).1 = Err e.
Proof.
  induction starts as [|start starts IH]; intros ls w w1 e; [done|].
  cbn [foldM]. unfold bind.
  destruct (process_batch cl cfg data lang lang_name total ls start w) as [[ls'|e'] w']
    eqn:Hb; [by apply IH|].
  intros [= <- <-]. rewrite process_batch_eq in Hb.
  destruct (pending_of cfg total ls start) as [|i0 pend]; [done|].
  destruct (batch_prep data (i0 :: pend)) as [[items instrs]|e] eqn:Hprep.
  2:{ injection Hb as <- _. apply batch_prep_err_kind in Hprep. tauto. }
  destruct (scan_cache (cache ls) 0 instrs).2 as [|m0 ms]; [done|].
  cbv zeta in Hb.
  destruct (cl (cstate w) _) as [[bt|e] s'] eqn:Hcall; [done|].
  injection Hb as <- _. right. right. eexists _, _. by rewrite Hcall.
Qed.

(** X18.  The completeness check at the end of a language's run never
    fires in a run of [translate_dataset]: when every batch went through,
    every position is done and holds an item, whatever the client
    returned.  [IncompleteRun] is raised only if the client itself raises
    it. *)
Theorem incomplete_run_is_never_raised {PY : PyRuntime} {S} (cl : client S) cfg data langs
    (w : world S) ndone total :
  (forall s args, (cl s args).1 <> Err (IncompleteRun ndone total)) ->
  (translate_dataset cl cfg data langs w).1 <> Err (IncompleteRun ndone total).
Proof.
  intros Hcl. unfold translate_dataset.
  destruct (Z.leb_spec (batch_size cfg) 0) as [|Hbs]; [done|].
  destruct (timeout cfg <=? 0); [done|].
  destruct (max_retries cfg <=? 0); [done|].
  revert w. induction langs as [|l langs IH]; intros w; [done|].
  rewrite forM_cons.
  destruct (translate_lang cl cfg data l w) as [[[]|e] w1] eqn:Hl; [apply IH|].
  cbn [fst]. intros [= ->].
  destruct (lang_name_of l DEFAULT_LANGS) as [lang_name|] eqn:Hname.
  2:{ rewrite translate_lang_unknown in Hl by done. done. }
  rewrite (translate_lang_eq _ _ _ _ _ _ Hname) in Hl.
  destruct (start_state cfg data l (Z.of_nat (length data)) (fs w)) as [ls0|e0] eqn:Hstart.
  2:{ injection Hl as -> _. unfold start_state in Hstart.
      destruct (force_restart cfg); [done|]. destruct (resume cfg); [|done].
      destruct (fs w !! _); [|done].
      apply validate_err_kind in Hstart as [[f H]|[[f H]|[H|[H|H]]]]; done. }
  destruct (foldM _ _ ls0 _) as [[ls|e] w2] eqn:Hloop.
  - destruct (batch_loop_complete cl cfg data l lang_name _ ls0 _ w2 ls Hbs
                (start_state_ok _ _ _ _ _ Hstart) Hloop) as [Hok Hc].
    rewrite finalize_ok in Hl by (by apply finalize_test). done.
  - injection Hl as -> _.
    apply batch_loop_err_kind in Hloop as [H|[[idx H]|(s & args & H)]]; [done..|].
    by apply (Hcl s args).
Qed.

(** ** How far a failed run got *)

Lemma batch_apply_done_iff cfg data total ls start items instrs merged i :
  batch_prep data (pending_of cfg total ls start) = Ok (items, instrs) ->
  length merged.1 = length instrs ->
  i ∈ done_indices (batch_apply ls (pending_of cfg total ls start) items merged) <->
  i ∈ done_indices ls \/ i ∈ batch_range start (batch_size cfg) total.
Proof.
  intros Hprep Hlen.
  rewrite (batch_apply_done cfg data total ls start items instrs merged Hprep Hlen).
  rewrite elem_of_union, elem_of_list_to_set. unfold pending_of.
  rewrite list_elem_of_filter.
  destruct (decide (i ∈ done_indices ls)); tauto.
Qed.

(** One batch: it marks the positions of the batch done and leaves a
    progress file that reloads to the new state, or raises and leaves the
    files as they were. *)
Lemma process_batch_step {PY : PyRuntime} {S} (cl : client S) cfg data lang lang_name ls start
    (w : world S) :
  0 <= start -> state_ok (Z.of_nat (length data)) ls ->
  reloads cfg data lang (Z.of_nat (length data)) (fs w) ls ->
  match process_batch cl cfg data lang lang_name (Z.of_nat (length data)) ls start w with
  | (Ok ls1, w1) =>
      state_ok (Z.of_nat (length data)) ls1 /\
      reloads cfg data lang (Z.of_nat (length data)) (fs w1) ls1 /\
      forall i, i ∈ done_indices ls1 <->
                i ∈ done_indices ls \/
                i ∈ batch_range start (batch_size cfg) (Z.of_nat (length data))
  | (Err _, w1) => reloads cfg data lang (Z.of_nat (length data)) (fs w1) ls
  end.
Proof.
  intros Hs Hok Hre. set (total := Z.of_nat (length data)) in *.
  rewrite process_batch_eq.
  destruct (pending_of cfg total ls start) as [|i0 pend] eqn:Hp.
  { split; [done|]. split; [done|]. intros i. split; [auto|].
    intros [H|H]; [done|]. by eapply pending_of_nil. }
  rewrite <- Hp.
  destruct (batch_prep data (pending_of cfg total ls start)) as [[items instrs]|e] eqn:Hprep;
    [|done].
  assert (forall merged (w' : world S),
            length merged.1 = length instrs ->
            state_ok total (batch_apply ls (pending_of cfg total ls start) items merged) /\
            reloads cfg data lang total
              (fs (persisted (_progress_path (base_name cfg) lang)
                     (checkpoint_of cfg total lang
                        (batch_apply ls (pending_of cfg total ls start) items merged)) w'))
              (batch_apply ls (pending_of cfg total ls start) items merged) /\
            forall i,
              i ∈ done_indices (batch_apply ls (pending_of cfg total ls start) items merged)
              <-> i ∈ done_indices ls \/ i ∈ batch_range start (batch_size cfg) total)
    as Happly.
  { intros merged w' Hlen.
    assert (state_ok total (batch_apply ls (pending_of cfg total ls start) items merged))
      as Hok' by (by eapply batch_apply_state_ok).
    split; [done|]. split; [by apply reloads_persisted|].
    intros i. by eapply batch_apply_done_iff. }
  destruct (scan_cache (cache ls) 0 instrs).2 as [|m0 ms] eqn:Hm.
  - cbv zeta. apply Happly. apply scan_cache_length.
  - cbv zeta. rewrite <- Hm.
    destruct (cl (cstate w) _) as [[bt|e] s'] eqn:Hcall; [|done].
    apply Happly. rewrite merge_translations_length. apply scan_cache_length.
Qed.

Lemma process_batch_err_files {PY : PyRuntime} {S} (cl : client S) cfg data lang lang_name
    total ls start (w w1 : world S) e :
  process_batch cl cfg data lang lang_name total ls start w = (Err e, w1) -> fs w1 = fs w.
Proof.
  rewrite process_batch_eq.
  destruct (pending_of cfg total ls start) as [|i0 pend]; [done|].
  destruct (batch_prep data (i0 :: pend)) as [[items instrs]|e0]; [|by intros [= _ <-]].
  destruct (scan_cache (cache ls) 0 instrs).2 as [|m0 ms]; [done|].
  cbv zeta. destruct (cl (cstate w) _) as [[bt|e0] s']; [done|]. by intros [= _ <-].
Qed.

Lemma batch_loop_prefix {PY : PyRuntime} {S} (cl : client S) cfg data lang lang_name
    (before : gset Z) (n : nat) :
  forall (k0 : Z) ls (w : world S),
  0 < batch_size cfg -> 0 <= k0 ->
  state_ok (Z.of_nat (length data)) ls ->
  reloads cfg data lang (Z.of_nat (length data)) (fs w) ls ->
  (forall i, i ∈ done_indices ls <->
             i ∈ before \/ 0 <= i < Z.min (k0 * batch_size cfg) (Z.of_nat (length data))) ->
  exists ls' k,
    k0 <= k /\
    state_ok (Z.of_nat (length data)) ls' /\
    (forall i, i ∈ done_indices ls' <->
               i ∈ before \/ 0 <= i < Z.min (k * batch_size cfg) (Z.of_nat (length data))) /\
    match foldM (process_batch cl cfg data lang lang_name (Z.of_nat (length data)))
            ((fun k => k * batch_size cfg) <$> seqZ k0 (Z.of_nat n)) ls w with
    | (Ok ls1, w1) =>
        ls1 = ls' /\ k = k0 + Z.of_nat n /\
        reloads cfg data lang (Z.of_nat (length data)) (fs w1) ls'
    | (Err e, w1) =>
        reloads cfg data lang (Z.of_nat (length data)) (fs w1) ls' /\
        k < k0 + Z.of_nat n /\
        exists wb,
          process_batch cl cfg data lang lang_name (Z.of_nat (length data)) ls'
            (k * batch_size cfg) wb = (Err e, w1) /\
          fs wb = fs w1
    end.
Proof.
  induction n as [|n IH]; intros k0 ls w Hbs Hk0 Hok Hre Hdone.
  - exists ls, k0. simpl. split; [lia|]. split; [done|]. split; [done|].
    split; [done|]. split; [lia|done].
  - rewrite (seqZ_cons k0 (Z.of_nat (Datatypes.S n))) by lia. rewrite fmap_cons.
    replace (Z.pred (Z.of_nat (Datatypes.S n))) with (Z.of_nat n) by lia.
    cbn [foldM]. unfold bind.
    pose proof (process_batch_step cl cfg data lang lang_name ls (k0 * batch_size cfg) w
                  ltac:(nia) Hok Hre) as Hstep.
    destruct (process_batch _ _ _ _ _ _ ls _ w) as [[ls1|e] w1] eqn:Hb.
    + destruct Hstep as (Hok1 & Hre1 & Hd1).
      destruct (IH (Z.succ k0) ls1 w1 Hbs ltac:(lia) Hok1 Hre1) as (ls' & k & Hk & H).
      { intros i. rewrite Hd1, Hdone. unfold batch_range. rewrite elem_of_seqZ.
        split.
        - intros [[H|H]|H]; [by left|right; nia|right; nia].
        - intros [H|H]; [by left; left|].
          destruct (decide (i < k0 * batch_size cfg)); [left; right; lia|right; nia]. }
      exists ls', k. split; [lia|].
      destruct H as (Hok' & Hd' & Hres). split; [done|]. split; [done|].
      destruct (foldM _ _ ls1 w1) as [[ls2|e2] w2].
      * destruct Hres as (-> & -> & Hre'). split; [done|]. split; [lia|done].
      * destruct Hres as (Hre' & Hlt & Hwb). split; [done|]. split; [lia|done].
    + exists ls, k0. split; [lia|]. split; [done|]. split; [done|].
      split; [done|]. split; [lia|]. exists w. split; [done|].
      symmetry. by eapply process_batch_err_files.
Qed.

(** X19.  A run that resumes and raises raised in one of its batches, say
    the one that starts at position [k * batch_size]: every position
    before that start is done, no position from that start on is done
    unless it was done when the run started, and the progress file the run
    leaves reloads to exactly the state in which that batch raised, so
    that nothing of the failing batch or of a later one counts as done.
    The failing batch wrote no file. *)
Theorem failed_run_keeps_whole_batches {PY : PyRuntime} {S} (cl : client S) cfg data lang
    lang_name (w w' : world S) ls0 e :
  lang_name_of lang DEFAULT_LANGS = Some lang_name ->
  0 < batch_size cfg ->
  resume cfg = true -> force_restart cfg = false ->
  start_state cfg data lang (Z.of_nat (length data)) (fs w) = Ok ls0 ->
  translate_lang cl cfg data lang w = (Err e, w') ->
  exists ls' k wb,
    0 <= k /\ k * batch_size cfg < Z.of_nat (length data) /\
    start_state cfg data lang (Z.of_nat (length data)) (fs w') = Ok ls' /\
    (forall i, i ∈ done_indices ls' <->
               i ∈ done_indices ls0 \/ 0 <= i < k * batch_size cfg) /\
    process_batch cl cfg data lang lang_name (Z.of_nat (length data)) ls'
      (k * batch_size cfg) wb = (Err e, w') /\
    fs wb = fs w'.
Proof.
  intros Hname Hbs Hr Hf Hstart Hrun.
  rewrite (translate_lang_eq _ _ _ _ _ _ Hname), Hstart in Hrun.
  rewrite after_restart_keep in Hrun by done.
  pose proof (start_state_ok _ _ _ _ _ Hstart) as Hok0.
  set (total := Z.of_nat (length data)) in *.
  set (n := (total + batch_size cfg - 1) `div` batch_size cfg) in *.
  assert (0 <= n) as Hn by (apply Z.div_pos; lia).
  assert (n * batch_size cfg <= total + batch_size cfg - 1) as Hnb.
  { pose proof (Z.mul_div_le (total + batch_size cfg - 1) (batch_size cfg) Hbs). lia. }
  destruct (foldM (process_batch cl cfg data lang lang_name total)
              (range_step total (batch_size cfg)) ls0 w) as [[ls1|e1] w1] eqn:Hloop.
  - destruct (batch_loop_complete cl cfg data lang lang_name total ls0 w w1 ls1 Hbs Hok0 Hloop)
      as [Hok1 Hc].
    rewrite finalize_ok in Hrun by (by apply finalize_test). done.
  - injection Hrun as -> ->.
    destruct (batch_loop_prefix cl cfg data lang lang_name (done_indices ls0) (Z.to_nat n)
                0 ls0 w Hbs ltac:(lia) Hok0 ltac:(intros _ _; done))
      as (ls' & k & Hk & Hok' & Hd' & Hres).
    { intros i. split; [auto|]. intros [H|H]; [done|lia]. }
    rewrite Z2Nat.id in Hres by done.
    unfold range_step in Hloop. rewrite (proj2 (Z.ltb_lt 0 (batch_size cfg))) in Hloop by done.
    unfold n, total in Hloop, Hres. rewrite Hloop in Hres. fold total in Hres. fold n in Hres.
    destruct Hres as (Hre & Hlt & wb & Hwb & Hfs).
    assert (k * batch_size cfg < total) as Hkt by nia.
    exists ls', k, wb. split; [lia|]. split; [done|]. split; [by apply Hre|].
    split; [|done]. intros i. rewrite Hd'. rewrite Z.min_l by lia. done.
Qed.

(** ** The translations a run writes *)

Lemma transcript_app {S} (cl : client S) a : forall st b,
  transcript cl st (a ++ b) = transcript cl st a ++ transcript cl (state_after cl st a) b.
Proof. induction a as [|x a IH]; intros st b; [done|]. simpl. by rewrite IH. Qed.

Lemma state_after_app {S} (cl : client S) a : forall st b,
  state_after cl st (a ++ b) = state_after cl (state_after cl st a) b.
Proof. induction a as [|x a IH]; intros st b; [done|]. simpl. by rewrite IH. Qed.

Lemma transcript_requests {S} (cl : client S) cs : forall st, (transcript cl st cs).*1 = cs.
Proof. induction cs as [|x cs IH]; intros st; [done|]. simpl. by rewrite IH. Qed.

Lemma answered_app_l {S} (cl : client S) st a b n s t :
  answered cl st a n s t -> answered cl st (a ++ b) n s t.
Proof.
  intros (j & args & bt & k & H1 & H). exists j, args, bt, k. split; [|done].
  rewrite transcript_app. by apply lookup_app_l_Some.
Qed.

Lemma answered_app_r {S} (cl : client S) st a b n s t :
  answered cl (state_after cl st a) b n s t -> answered cl st (a ++ b) n s t.
Proof.
  intros (j & args & bt & k & H1 & H).
  exists (length (transcript cl st a) + j)%nat, args, bt, k. split; [|done].
  rewrite transcript_app, lookup_app_r by lia.
  by replace (length (transcript cl st a) + j - length (transcript cl st a))%nat with j by lia.
Qed.

(** What was answered was asked. *)
Lemma answered_request {S} (cl : client S) st cs n s t :
  answered cl st cs n s t ->
  exists args, args ∈ cs /\ ca_lang_name args = n /\ s ∈ ca_instructions args.
Proof.
  intros (j & args & bt & k & H1 & H2 & H3 & _). exists args.
  split; [|split; [done|by eapply list_elem_of_lookup_2]].
  rewrite <- (transcript_requests cl cs st). apply list_elem_of_fmap.
  exists (args, Ok bt). split; [done|]. by eapply list_elem_of_lookup_2.
Qed.

Lemma translation_snoc {S} (cl : client S) st cs a c0 n s t :
  translation cl st cs c0 n s t -> translation cl st (cs ++ [a]) c0 n s t.
Proof. intros [H|H]; [by left|right; by apply answered_app_l]. Qed.

Lemma scan_cache_lookup c i instrs k s t :
  instrs !! k = Some s -> (scan_cache c i instrs).1 !! k = Some t ->
  dict_get s c = Some t \/ (i + k)%nat ∈ (scan_cache c i instrs).2.
Proof.
  revert i k. induction instrs as [|s0 instrs IH]; intros i k Hk; [done|].
  simpl. specialize (IH (S i)).
  destruct (scan_cache c (S i) instrs) as [ts ms] eqn:Hs.
  destruct k as [|k]; simpl in Hk.
  - injection Hk as ->. destruct (dict_get s c) eqn:E; simpl.
    + intros [= <-]. by left.
    + intros _. right. rewrite Nat.add_0_r. apply list_elem_of_here.
  - replace (i + S k)%nat with (S i + k)%nat by lia.
    destruct (dict_get s0 c); simpl; intros Ht; destruct (IH k Hk Ht) as [H|H];
      try (by left); right; [done|by right].
Qed.

Lemma merge_fold_sound (T : string -> json -> Prop) instrs (l : list (nat * json)) :
  forall acc,
  Forall (fun p => (p.1 < length instrs)%nat /\ T (instrs !!! p.1) p.2) l ->
  length acc.1 = length instrs ->
  (forall k s t, instrs !! k = Some s -> acc.1 !! k = Some t -> T s t \/ k ∈ l.*1) ->
  (forall s t, dict_get s acc.2 = Some t -> T s t) ->
  (forall k s t, instrs !! k = Some s ->
     (fold_left (merge_step instrs) l acc).1 !! k = Some t -> T s t) /\
  (forall s t, dict_get s (fold_left (merge_step instrs) l acc).2 = Some t -> T s t).
Proof.
  induction l as [|[m b] l IH]; intros acc Hl Hlen Hts Hc.
  - simpl. split; [|done]. intros k s t Hk Ht.
    destruct (Hts k s t Hk Ht) as [H|H]; [done|inversion H].
  - apply Forall_cons in Hl as [[Hm HT] Hl]. cbn [fst snd] in Hm, HT.
    cbn [fold_left]. apply IH; [done|..].
    + unfold merge_step. cbn [fst snd]. by rewrite length_insert.
    + intros k s t Hk. unfold merge_step. cbn [fst snd].
      destruct (decide (k = m)) as [->|Hne].
      * rewrite list_lookup_insert_eq by lia. intros [= <-]. left.
        by rewrite <- (list_lookup_total_correct _ _ _ Hk).
      * rewrite list_lookup_insert_ne by done. intros Ht.
        destruct (Hts k s t Hk Ht) as [H|H]; [by left|]. right.
        rewrite fmap_cons in H. apply elem_of_cons in H as [H|H]; done.
    + intros s t. unfold merge_step. cbn [fst snd]. intros H.
      apply dict_get_set_inv in H as [[-> ->]|H]; [done|auto].
Qed.

Lemma commit_step_sound (T : string -> json -> Prop) (data : list pydict) total
    (before : gset Z) (acc : gset Z * list json) (p : Z * pydict * json) :
  (Z.of_nat (length acc.2) = total /\
   forall i, i ∈ acc.1 -> i ∉ before ->
     exists item s t,
       data !! Z.to_nat i = Some item /\ instruction_of item = JStr s /\
       acc.2 !! Z.to_nat i = Some (JObj (dict_set "instruction" t item)) /\ T s t) ->
  (0 <= p.1.1 < total /\ data !! Z.to_nat p.1.1 = Some p.1.2 /\
   exists s, instruction_of p.1.2 = JStr s /\ T s p.2) ->
  Z.of_nat (length (commit_step acc p).2) = total /\
  forall i, i ∈ (commit_step acc p).1 -> i ∉ before ->
    exists item s t,
      data !! Z.to_nat i = Some item /\ instruction_of item = JStr s /\
      (commit_step acc p).2 !! Z.to_nat i = Some (JObj (dict_set "instruction" t item)) /\
      T s t.
Proof.
  destruct acc as [d its]. destruct p as [[idx item] t]. cbn [fst snd].
  intros [Hlen Hinv] (Hr & Hdata & s & Hs & HT). unfold commit_step. cbn [fst snd].
  split; [by rewrite length_insert|].
  intros i Hi Hb.
  destruct (decide (Z.to_nat i = Z.to_nat idx)) as [Heq|Hne].
  - exists item, s, t. rewrite Heq. split; [done|]. split; [done|].
    rewrite list_lookup_insert_eq by lia. done.
  - rewrite list_lookup_insert_ne by done. apply Hinv; [|done].
    apply elem_of_union in Hi as [Hi|Hi]; [|done].
    apply elem_of_singleton in Hi. congruence.
Qed.

Lemma batch_apply_translated (T : string -> json -> Prop) cfg data (before : gset Z) ls start
    items instrs merged :
  0 <= start -> state_ok (Z.of_nat (length data)) ls ->
  batch_prep data (pending_of cfg (Z.of_nat (length data)) ls start) = Ok (items, instrs) ->
  (forall k s t, instrs !! k = Some s -> merged.1 !! k = Some t -> T s t) ->
  (forall i, i ∈ done_indices ls -> i ∉ before ->
     exists item s t,
       data !! Z.to_nat i = Some item /\ instruction_of item = JStr s /\
       out_items ls !! Z.to_nat i = Some (JObj (dict_set "instruction" t item)) /\ T s t) ->
  forall i,
    i ∈ done_indices
          (batch_apply ls (pending_of cfg (Z.of_nat (length data)) ls start) items merged) ->
    i ∉ before ->
    exists item s t,
      data !! Z.to_nat i = Some item /\ instruction_of item = JStr s /\
      out_items (batch_apply ls (pending_of cfg (Z.of_nat (length data)) ls start) items merged)
        !! Z.to_nat i = Some (JObj (dict_set "instruction" t item)) /\
      T s t.
Proof.
  intros Hs Hok Hprep Hm Hitems. set (total := Z.of_nat (length data)) in *.
  unfold batch_apply, commit_batch. cbn [done_indices out_items].
  apply (fold_left_inv commit_step
           (fun acc => Z.of_nat (length acc.2) = total /\
              forall i, i ∈ acc.1 -> i ∉ before ->
                exists item s t,
                  data !! Z.to_nat i = Some item /\ instruction_of item = JStr s /\
                  acc.2 !! Z.to_nat i = Some (JObj (dict_set "instruction" t item)) /\ T s t)
           (fun p => 0 <= p.1.1 < total /\ data !! Z.to_nat p.1.1 = Some p.1.2 /\
                     exists s, instruction_of p.1.2 = JStr s /\ T s p.2)).
  - intros acc p. apply commit_step_sound.
  - destruct (batch_prep_spec _ _ _ _ Hprep) as [H1 H2].
    apply Forall_lookup. intros k [[idx item] t] Hk. cbn [fst snd].
    apply lookup_zip_with_Some in Hk as (p & t' & [= <- <-] & Hp & Ht).
    apply lookup_zip_with_Some in Hp as (idx' & item' & [= <- <-] & Hidx & Hitem).
    pose proof (Forall2_lookup_lr _ _ _ _ _ _ H1 Hidx Hitem) as Hdata.
    destruct (Forall2_lookup_l _ _ _ _ _ H2 Hitem) as (s & Hsk & Hinstr).
    apply list_elem_of_lookup_2 in Hidx. apply pending_of_elem in Hidx.
    split; [lia|]. split; [done|]. exists s. split; [done|]. by eapply Hm.
  - split; [apply Hok|]. exact Hitems.
Qed.

(** A successful run: the requests it made, the state it ended in, and
    what that state holds at the positions the run marked done. *)
Lemma lang_translations {PY : PyRuntime} {S} (cl : client S) cfg data lang lang_name
    (w w' : world S) ls0 :
  lang_name_of lang DEFAULT_LANGS = Some lang_name ->
  length_contract cl ->
  start_state cfg data lang (Z.of_nat (length data)) (fs w) = Ok ls0 ->
  translate_lang cl cfg data lang w = (Ok tt, w') ->
  exists cs ls,
    call_log (log w') = call_log (log w) ++ cs /\
    cstate w' = state_after cl (cstate w) cs /\
    fs w' !! output_path (base_name cfg) lang = Some (JArr (out_items ls)) /\
    fs w' !! _progress_path (base_name cfg) lang = None /\
    state_ok (Z.of_nat (length data)) ls /\
    complete (Z.of_nat (length data)) ls /\
    advanced ls0 ls /\
    translated_since cl (cstate w) cs (cache ls0) lang_name data (done_indices ls0) ls.
Proof.
  intros Hname Hlen Hstart. rewrite (translate_lang_eq _ _ _ _ _ _ Hname), Hstart.
  set (total := Z.of_nat (length data)) in *.
  set (T := fun cs => translation cl (cstate w) cs (cache ls0) lang_name).
  set (K := fun ls (w1 : world S) =>
              state_ok total ls /\ advanced ls0 ls /\
              exists cs,
                call_log (log w1) = call_log (log w) ++ cs /\
                cstate w1 = state_after cl (cstate w) cs /\
                cache_sound cl (cstate w) cs (cache ls0) lang_name ls /\
                translated_since cl (cstate w) cs (cache ls0) lang_name data
                  (done_indices ls0) ls).
  assert (forall ls w1 start items instrs,
            0 <= start -> K ls w1 ->
            pending_of cfg total ls start <> [] ->
            batch_prep data (pending_of cfg total ls start) = Ok (items, instrs) ->
            (scan_cache (cache ls) 0 instrs).2 = [] ->
            K (batch_apply ls (pending_of cfg total ls start) items
                 ((scan_cache (cache ls) 0 instrs).1, cache ls))
              (persisted (_progress_path (base_name cfg) lang)
                 (checkpoint_of cfg total lang
                    (batch_apply ls (pending_of cfg total ls start) items
                       ((scan_cache (cache ls) 0 instrs).1, cache ls))) w1)) as Hcached.
  { intros ls w1 start items instrs Hs (Hok & Hadv & cs & H1 & H2 & Hc & Ht) _ Hprep Hm.
    destruct (batch_outcome_advanced cl cfg data lang_name total ls start items instrs
                ((scan_cache (cache ls) 0 instrs).1, cache ls) Hs Hok Hprep)
      as [Hok' Hadv']; [by left|].
    split; [done|]. split; [by eapply advanced_trans|].
    exists cs. rewrite call_log_persisted. split; [done|]. split; [done|].
    split; [exact Hc|].
    intros i.
    apply (batch_apply_translated (T cs) cfg data (done_indices ls0) ls start items instrs
             ((scan_cache (cache ls) 0 instrs).1, cache ls));
      [done|done|done| |exact Ht].
    cbn [fst]. intros k s t Hk Hkt.
    destruct (scan_cache_lookup _ _ _ _ _ _ Hk Hkt) as [H|H]; [by apply Hc|].
    rewrite Hm in H. inversion H. }
  assert (forall ls w1 start items instrs r s',
    0 <= start -> K ls w1 ->
    pending_of cfg total ls start <> [] ->
    batch_prep data (pending_of cfg total ls start) = Ok (items, instrs) ->
    (scan_cache (cache ls) 0 instrs).2 <> [] ->
    cl (cstate w1) (batch_args cfg lang_name instrs (scan_cache (cache ls) 0 instrs).2)
      = (r, s') ->
    match r with
    | Err _ => True
    | Ok bt =>
        K (batch_apply ls (pending_of cfg total ls start) items
             (merge_translations instrs (scan_cache (cache ls) 0 instrs).2 bt
                (scan_cache (cache ls) 0 instrs).1 (cache ls)))
          (persisted (_progress_path (base_name cfg) lang)
             (checkpoint_of cfg total lang
                (batch_apply ls (pending_of cfg total ls start) items
                   (merge_translations instrs (scan_cache (cache ls) 0 instrs).2 bt
                      (scan_cache (cache ls) 0 instrs).1 (cache ls))))
             (called (batch_args cfg lang_name instrs (scan_cache (cache ls) 0 instrs).2)
                s' w1))
    end) as Hcall.
  { intros ls w1 start items instrs [bt|e] s' Hs (Hok & Hadv & cs & H1 & H2 & Hc & Ht)
      _ Hprep Hm Hcl; [|done].
    set (args := batch_args cfg lang_name instrs (scan_cache (cache ls) 0 instrs).2) in *.
    destruct (batch_outcome_advanced cl cfg data lang_name total ls start items instrs
                (merge_translations instrs (scan_cache (cache ls) 0 instrs).2 bt
                   (scan_cache (cache ls) 0 instrs).1 (cache ls)) Hs Hok Hprep)
      as [Hok' Hadv'].
    { right. exists (cstate w1), bt, s'. done. }
    assert (length bt = length (scan_cache (cache ls) 0 instrs).2) as Hbt.
    { rewrite (Hlen (cstate w1) args bt) by (by rewrite Hcl).
      unfold args, batch_args. cbn [ca_instructions]. apply length_fmap. }
    assert (Forall (fun p : nat * json =>
                      (p.1 < length instrs)%nat /\ T (cs ++ [args]) (instrs !!! p.1) p.2)
              (zip (scan_cache (cache ls) 0 instrs).2 bt)) as HQ.
    { apply Forall_lookup. intros j [m b] Hj. cbn [fst snd].
      apply lookup_zip_with_Some in Hj as (m' & b' & [= <- <-] & Hmj & Hbj).
      split.
      - apply list_elem_of_lookup_2, scan_cache_missing_range in Hmj. lia.
      - right. exists (length (transcript cl (cstate w) cs)), args, bt, j.
        split; [|split; [done|split; [|done]]].
        + rewrite transcript_app, lookup_app_r by lia. rewrite Nat.sub_diag.
          simpl. rewrite <- H2, Hcl. done.
        + unfold args, batch_args. cbn [ca_instructions].
          rewrite list_lookup_fmap, Hmj. done. }
    destruct (merge_fold_sound (T (cs ++ [args])) instrs
                (zip (scan_cache (cache ls) 0 instrs).2 bt)
                ((scan_cache (cache ls) 0 instrs).1, cache ls) HQ) as [Hm1 Hm2].
    { apply scan_cache_length. }
    { cbn [fst]. intros k s t Hk Hkt.
      destruct (scan_cache_lookup _ _ _ _ _ _ Hk Hkt) as [H|H].
      - left. apply translation_snoc. by apply Hc.
      - right. rewrite fst_zip by lia. done. }
    { cbn [snd]. intros s t H. apply translation_snoc. by apply Hc. }
    split; [done|]. split; [by eapply advanced_trans|].
    exists (cs ++ [args]).
    rewrite call_log_persisted, call_log_called, H1, app_assoc.
    split; [done|]. split.
    { rewrite state_after_app. unfold persisted, called. cbn [cstate state_after].
      by rewrite <- H2, Hcl. }
    split.
    - intros s t. unfold batch_apply. cbn [cache]. apply Hm2.
    - intros i.
      apply (batch_apply_translated (T (cs ++ [args])) cfg data (done_indices ls0) ls start
               items instrs
               (merge_translations instrs (scan_cache (cache ls) 0 instrs).2 bt
                  (scan_cache (cache ls) 0 instrs).1 (cache ls)));
        [done|done|done|exact Hm1|].
      clear i.
      intros i Hi Hb. destruct (Ht i Hi Hb) as (item & s & t & Ha & Hb' & Hc' & Hd).
      exists item, s, t. repeat (split; [done|]). by apply translation_snoc. }
  pose proof (batch_loop_trace cl cfg data lang lang_name total K (fun _ => True)
                ltac:(done) Hcached Hcall
                (range_step total (batch_size cfg)) ls0 (after_restart cfg lang w)
                (range_step_nonneg _ _)) as Hloop.
  assert (K ls0 (after_restart cfg lang w)) as HK0.
  { split; [by eapply start_state_ok|]. split; [apply advanced_refl|].
    exists []. rewrite call_log_after_restart, app_nil_r.
    split; [done|]. split; [unfold after_restart; by destruct (_ && _)|].
    split; [intros s t H; by left|intros i Hi Hn; done]. }
  specialize (Hloop HK0).
  destruct (foldM _ _ ls0 _) as [[ls|e] w1]; [|done].
  destruct Hloop as (Hok & Hadv & cs & H1 & H2 & Hc & Ht).
  destruct (negb (Z.of_nat (size (done_indices ls)) =? total)
            || existsb is_none (out_items ls)) eqn:Htest.
  { rewrite finalize_err by done. done. }
  rewrite finalize_ok by done. intros [= <-].
  exists cs, ls. rewrite call_log_finalized.
  destruct (finalized_output cfg lang ls w1) as [Ho Hp].
  repeat (split; [done|]). split; [by apply finalize_test|]. done.
Qed.

(** C8, as the code has it.  Take a run that starts from a state
    which holds, at every done position, a copy of the record with
    [instruction] assigned (as it does when no progress file is loaded).  If
    the run succeeds, the output array has one element per record, in the
    order of the records, each a copy of its record in which only
    [instruction] is assigned.  When the client returns one translation per
    instruction, as [call_api_batch] does, the value assigned is the
    translation: at a position that was done when the run started the
    element is the item the run loaded; at every other position the value
    is what the client answered for the record's instruction, at the
    position it had in one of the requests of this run, or the entry of the
    loaded cache for it.  Every checkpoint the run writes reloads to a state
    of copies. *)
Theorem output_copies_records {PY : PyRuntime} {S} (cl : client S) cfg data lang lang_name
    (w : world S) ls0 :
  lang_name_of lang DEFAULT_LANGS = Some lang_name ->
  start_state cfg data lang (Z.of_nat (length data)) (fs w) = Ok ls0 ->
  frame_ok data ls0 ->
  ((translate_lang cl cfg data lang w).1 = Ok tt ->
   exists items,
     fs (translate_lang cl cfg data lang w).2 !! output_path (base_name cfg) lang
       = Some (JArr items) /\
     Forall2 copy_with_translation data items /\
     (length_contract cl ->
      exists cs,
        call_log (log (translate_lang cl cfg data lang w).2) = call_log (log w) ++ cs /\
        forall i item, data !! i = Some item ->
          (Z.of_nat i ∈ done_indices ls0 -> items !! i = out_items ls0 !! i) /\
          (Z.of_nat i ∉ done_indices ls0 ->
           exists s t,
             instruction_of item = JStr s /\
             items !! i = Some (JObj (dict_set "instruction" t item)) /\
             translation cl (cstate w) cs (cache ls0) lang_name s t))) /\
  (exists evs,
      log (translate_lang cl cfg data lang w).2 = log w ++ evs /\
      forall payload,
        EvWrite (tmp_path (_progress_path (base_name cfg) lang)) payload ∈ evs ->
        exists ls,
          _validate_progress_state payload cfg (Z.of_nat (length data)) lang = Ok ls /\
          frame_ok data ls).
Proof.
  intros Hname Hstart Hframe.
  destruct (output_frame cl cfg data lang lang_name w Hname) as [Hcopy Hcheck].
  { intros ls0' H. rewrite Hstart in H. by injection H as <-. }
  split; [|exact Hcheck].
  intros Hrun. destruct (Hcopy Hrun) as (items & Hout & Hall).
  exists items. split; [done|]. split; [done|]. intros Hlen.
  destruct (translate_lang cl cfg data lang w) as [r w'] eqn:Heq. cbn [fst snd] in *.
  subst r.
  destruct (lang_translations cl cfg data lang lang_name w w' ls0 Hname Hlen Hstart Heq)
    as (cs & ls & H1 & H2 & H3 & H4 & Hok & Hc & Hadv & Ht).
  rewrite Hout in H3. injection H3 as ->.
  exists cs. split; [done|].
  intros i item Hi.
  assert (Z.of_nat i ∈ done_indices ls) as Hd.
  { apply Hc. apply lookup_lt_Some in Hi. lia. }
  split.
  - intros H0. destruct Hadv as (_ & _ & Hkeep). specialize (Hkeep _ H0).
    by rewrite Nat2Z.id in Hkeep.
  - intros H0. destruct (Ht _ Hd H0) as (item' & s & t & Ha & Hb & Hc' & Hd').
    rewrite Nat2Z.id in Ha, Hc'. assert (item' = item) as -> by congruence.
    by exists s, t.
Qed.

(** ** Runs that cannot fail *)

Lemma mapR_is_ok {A B} (f : A -> result B) (l : list A) :
  (forall a, a ∈ l -> exists b, f a = Ok b) -> exists bs, mapR f l = Ok bs.
Proof.
  induction l as [|a l IH]; intros H; [by exists []|].
  destruct (H a) as [b Hb]; [by left|].
  destruct IH as [bs Hbs]; [intros a' Ha'; apply H; by right|].
  exists (b :: bs). cbn [mapR]. by rewrite Hb, Hbs.
Qed.

Lemma batch_prep_ok data pending :
  string_instructions data ->
  (forall idx, idx ∈ pending -> 0 <= idx < Z.of_nat (length data)) ->
  exists items instrs, batch_prep data pending = Ok (items, instrs).
Proof.
  intros Hdata Hr. unfold batch_prep.
  destruct (mapR_is_ok (data_item data) pending) as [items Hitems].
  { intros idx Hidx. specialize (Hr idx Hidx). unfold data_item.
    destruct (data !! Z.to_nat idx) as [item|] eqn:E; [by eexists|].
    apply lookup_ge_None in E. lia. }
  rewrite Hitems.
  destruct (mapR_is_ok (fun '(idx, item) => source_text idx item) (zip pending items))
    as [instrs Hinstrs].
  { intros [idx item] Hin. apply list_elem_of_lookup in Hin as [k Hk].
    apply lookup_zip_with_Some in Hk as (idx' & item' & [= <- <-] & Hidx & Hitem).
    apply mapR_Forall2 in Hitems.
    pose proof (Forall2_lookup_lr _ _ _ _ _ _ Hitems Hidx Hitem) as Hd.
    unfold data_item in Hd. destruct (data !! Z.to_nat idx) as [it|] eqn:E; [|done].
    injection Hd as ->. destruct (Hdata item) as [s Hs]; [by eapply list_elem_of_lookup_2|].
    exists s. unfold source_text. by rewrite Hs. }
  rewrite Hinstrs. eauto.
Qed.

Lemma batch_loop_ok {S} (cl : client S) cfg data lang lang_name starts :
  forall ls (w : world S),
  string_instructions data -> always_answers cl ->
  Forall (fun s => 0 <= s) starts -> state_ok (Z.of_nat (length data)) ls ->
  exists ls' w',
    foldM (process_batch cl cfg data lang lang_name (Z.of_nat (length data))) starts ls w
    = (Ok ls', w').
Proof.
  induction starts as [|start starts IH]; intros ls w Hdata Hcl Hst Hok; [by eexists _, _|].
  apply Forall_cons in Hst as [Hs Hst]. cbn [foldM]. unfold bind.
  destruct (process_batch cl cfg data lang lang_name (Z.of_nat (length data)) ls start w)
    as [[ls1|e] w1] eqn:Hb.
  - destruct (process_batch_done _ _ _ _ _ _ _ _ _ _ _ Hs Hok Hb) as (Hok1 & _).
    by apply IH.
  - exfalso. rewrite process_batch_eq in Hb.
    destruct (pending_of cfg (Z.of_nat (length data)) ls start) as [|i0 pend] eqn:Hp; [done|].
    destruct (batch_prep_ok data (i0 :: pend) Hdata) as (items & instrs & Hprep).
    { intros idx Hidx. rewrite <- Hp in Hidx. apply pending_of_elem in Hidx. lia. }
    rewrite Hprep in Hb.
    destruct (scan_cache (cache ls) 0 instrs).2 as [|m0 ms]; [done|].
    cbv zeta in Hb.
    pose proof (Hcl (cstate w) (batch_args cfg lang_name instrs (m0 :: ms))) as Ha.
    destruct (cl (cstate w) _) as [[bt|e'] s']; done.
Qed.

Lemma lang_succeeds {PY : PyRuntime} {S} (cl : client S) cfg data lang lang_name
    (w : world S) ls0 :
  lang_name_of lang DEFAULT_LANGS = Some lang_name ->
  0 < batch_size cfg ->
  string_instructions data -> always_answers cl ->
  start_state cfg data lang (Z.of_nat (length data)) (fs w) = Ok ls0 ->
  exists w', translate_lang cl cfg data lang w = (Ok tt, w').
Proof.
  intros Hname Hbs Hdata Hcl Hstart.
  rewrite (translate_lang_eq _ _ _ _ _ _ Hname), Hstart.
  pose proof (start_state_ok _ _ _ _ _ Hstart) as Hok0.
  destruct (batch_loop_ok cl cfg data lang lang_name
              (range_step (Z.of_nat (length data)) (batch_size cfg)) ls0
              (after_restart cfg lang w) Hdata Hcl (range_step_nonneg _ _) Hok0)
    as (ls & w1 & Hloop).
  rewrite Hloop.
  destruct (batch_loop_complete cl cfg data lang lang_name _ ls0 _ w1 ls Hbs Hok0 Hloop)
    as [Hok Hc].
  rewrite finalize_ok by (by apply finalize_test). eauto.
Qed.

Lemma start_state_clean {PY : PyRuntime} cfg data lang total files :
  files !! _progress_path (base_name cfg) lang = None ->
  start_state cfg data lang total files = Ok (fresh_state data).
Proof.
  intros H. unfold start_state. rewrite H.
  destruct (force_restart cfg); [done|]. by destruct (resume cfg).
Qed.

(** A run of several languages from a directory without progress files,
    with a client that always answers. *)
Lemma languages_translations {PY : PyRuntime} {S} (cl : client S) cfg data langs :
  forall (w : world S),
  0 < batch_size cfg -> length_contract cl -> always_answers cl ->
  string_instructions data ->
  (forall l, l ∈ langs -> known l) ->
  (forall l, l ∈ langs -> fs w !! _progress_path (base_name cfg) l = None) ->
  exists w' cs,
    forM_ (translate_lang cl cfg data) langs w = (Ok tt, w') /\
    call_log (log w') = call_log (log w) ++ cs /\
    cstate w' = state_after cl (cstate w) cs /\
    forall l lang_name, l ∈ langs -> lang_name_of l DEFAULT_LANGS = Some lang_name ->
      exists items,
        fs w' !! output_path (base_name cfg) l = Some (JArr items) /\
        forall i item, data !! i = Some item ->
          exists s t,
            instruction_of item = JStr s /\
            items !! i = Some (JObj (dict_set "instruction" t item)) /\
            answered cl (cstate w) cs lang_name s t.
Proof.
  induction langs as [|h langs IH]; intros w Hbs Hlen Hcl Hdata Hknown Hclean.
  - exists w, []. split; [done|]. split; [by rewrite app_nil_r|]. split; [done|].
    intros l n Hl. inversion Hl.
  - destruct (Hknown h ltac:(left)) as [hname Hh].
    pose proof (start_state_clean cfg data h (Z.of_nat (length data)) (fs w)
                  (Hclean h ltac:(left))) as Hstart.
    destruct (lang_succeeds cl cfg data h hname w _ Hh Hbs Hdata Hcl Hstart) as [w1 Hrun].
    destruct (lang_translations cl cfg data h hname w w1 _ Hh Hlen Hstart Hrun)
      as (cs1 & ls & H1 & H2 & H3 & H4 & Hok & Hc & Hadv & Ht).
    pose proof (lang_frame cl cfg data h w) as Hframe. rewrite Hrun in Hframe.
    cbn [snd] in Hframe.
    destruct (IH w1 Hbs Hlen Hcl Hdata) as (w' & cs2 & Hrest & G1 & G2 & G3).
    { intros l Hl. apply Hknown. by right. }
    { intros l Hl. destruct (decide (l = h)) as [->|Hne]; [done|].
      rewrite Hframe; [apply Hclean; by right|].
      apply progress_untouched; [apply Hknown; by right|by eexists|done]. }
    exists w', (cs1 ++ cs2). rewrite forM_cons, Hrun.
    split; [done|]. split; [by rewrite G1, H1, app_assoc|].
    split; [by rewrite G2, H2, state_after_app|].
    intros l lname Hl Hlname.
    destruct (decide (l ∈ langs)) as [Hin|Hnin].
    + destruct (G3 l lname Hin Hlname) as (items & Ho & Hi).
      exists items. split; [done|]. intros i item Hitem.
      destruct (Hi i item Hitem) as (s & t & Ha & Hb & Hans).
      exists s, t. split; [done|]. split; [done|].
      apply answered_app_r. by rewrite <- H2.
    + apply elem_of_cons in Hl as [->|Hl]; [|done].
      assert (lname = hname) as -> by congruence.
      exists (out_items ls). split.
      * pose proof (languages_frame cl cfg data langs w1 (output_path (base_name cfg) h))
          as Hf.
        rewrite Hrest in Hf. cbn [snd] in Hf. rewrite Hf; [done|].
        intros k Hk. apply output_untouched; [by eexists|apply Hknown; by right|].
        intros ->. done.
      * intros i item Hitem.
        assert (Z.of_nat i ∈ done_indices ls) as Hd.
        { apply Hc. apply lookup_lt_Some in Hitem. lia. }
        destruct (Ht _ Hd) as (item' & s & t & Ha & Hb & Hc' & Hd').
        { cbn [fresh_state done_indices]. apply not_elem_of_empty. }
        rewrite Nat2Z.id in Ha, Hc'. assert (item' = item) as -> by congruence.
        exists s, t. split; [done|]. split; [done|].
        destruct Hd' as [Hd'|Hd']; [done|]. by apply answered_app_l.
Qed.

Lemma dict_set_absent k v d : dict_get k d = None -> dict_set k v d = d ++ [(k, v)].
Proof.
  induction d as [|[k0 v0] d IH]; simpl; [done|].
  destruct (String.eqb k k0); [done|]. intros H. by rewrite IH.
Qed.

(** C10.  A record without an [instruction] key does not make a run
    fail: its source text is the empty string, and a run treats it as the
    same record with the key present and set to the empty string (the same
    result, client calls and files, whatever the client does).  With
    positive batch size, timeout and retry count, records whose
    [instruction], where present, is a string, and a client that answers
    every request with as many translations as instructions,
    [translate_dataset] on known languages from a directory without
    progress files succeeds; some request of every language holds
    the empty string, and the output record is the record with the key
    [instruction] added last, holding what the client answered for the
    empty string in that request or, when an earlier batch had put it in
    the cache, in the earlier request. *)
Theorem missing_instruction_is_empty {PY : PyRuntime} {S} (cl : client S) cfg data langs
    (w : world S) i item :
  data !! i = Some item ->
  dict_get "instruction" item = None ->
  source_text (Z.of_nat i) item = Ok "" /\
  with_empty_instruction item = item ++ [("instruction", JStr "")] /\
  translate_dataset cl cfg data langs w
  = translate_dataset cl cfg (with_empty_instruction <$> data) langs w /\
  (0 < batch_size cfg -> 0 < timeout cfg -> 0 < max_retries cfg ->
   length_contract cl -> always_answers cl -> string_instructions data ->
   (forall l, l ∈ langs -> known l) ->
   (forall l, l ∈ langs -> fs w !! _progress_path (base_name cfg) l = None) ->
   exists w' cs,
     translate_dataset cl cfg data langs w = (Ok tt, w') /\
     call_log (log w') = call_log (log w) ++ cs /\
     forall l lang_name, l ∈ langs -> lang_name_of l DEFAULT_LANGS = Some lang_name ->
       exists items t args,
         fs w' !! output_path (base_name cfg) l = Some (JArr items) /\
         items !! i = Some (JObj (item ++ [("instruction", t)])) /\
         answered cl (cstate w) cs lang_name "" t /\
         args ∈ cs /\ ca_lang_name args = lang_name /\ "" ∈ ca_instructions args).
Proof.
  intros Hi Hnone.
  destruct (missing_instruction_same_run cl cfg data langs w) as (Hsrc & _ & Hsame).
  split; [by apply Hsrc|].
  split; [unfold with_empty_instruction; by rewrite Hnone|].
  split; [exact Hsame|].
  intros Hbs Hto Hre Hlen Hcl Hdata Hknown Hclean.
  destruct (languages_translations cl cfg data langs w Hbs Hlen Hcl Hdata Hknown Hclean)
    as (w' & cs & Hrun & H1 & _ & H3).
  exists w', cs. split.
  { unfold translate_dataset.
    rewrite (proj2 (Z.leb_gt (batch_size cfg) 0)) by done.
    rewrite (proj2 (Z.leb_gt (timeout cfg) 0)) by done.
    rewrite (proj2 (Z.leb_gt (max_retries cfg) 0)) by done. done. }
  split; [done|].
  intros l lname Hl Hlname.
  destruct (H3 l lname Hl Hlname) as (items & Ho & Hitems).
  destruct (Hitems i item Hi) as (s & t & Hs & Hit & Hans).
  assert (s = "") as ->.
  { unfold instruction_of in Hs. rewrite Hnone in Hs. by injection Hs as <-. }
  destruct (answered_request _ _ _ _ _ _ Hans) as (args & Ha1 & Ha2 & Ha3).
  exists items, t, args. rewrite <- (dict_set_absent "instruction" t item Hnone).
  done.
Qed.

(** ** Instances and counterexamples *)

#[local] Existing Instance plain_runtime.

Lemma mismatch_rejected_witness :
  exists fields,
    "model" ∈ fields /\
    _validate_progress_state (JObj other_model_fields) sample_config 1 "ru"
      = Err (ProgressMismatch fields) /\
    translate_lang prefix_client sample_config one_record "ru"
      (World {[ ".translate_progress_source_ru.json" := JObj other_model_fields ]} 0%nat [])
    = (Err (ProgressMismatch fields),
       World {[ ".translate_progress_source_ru.json" := JObj other_model_fields ]} 0%nat []).
Proof.
  apply (mismatch_rejected_without_calls prefix_client sample_config
           one_record "ru" "Russian" other_model_fields "model" (JStr "m")).
  - reflexivity.
  - reflexivity.
  - reflexivity.
  - vm_compute. reflexivity.
  - vm_compute. do 3 constructor; apply list_elem_of_here.
  - reflexivity.
Defined.

Lemma config_errors_witness :
  (exists msg,
      main prefix_client (Some "k")
        (Config "/abs/source.json" "source" "m" "https://example.com/v1" "" 0 60 6 true false)
        "zh,ar" one_record (World ∅ 0%nat [])
      = (Err (ConfigError msg), World ∅ 0%nat [])) /\
  (0 <= 0 \/ 60 <= 0 \/ 6 <= 0 ->
   exists msg,
     translate_dataset prefix_client
       (Config "/abs/source.json" "source" "m" "https://example.com/v1" "" 0 60 6 true false)
       one_record ["zh"; "ar"] (World ∅ 0%nat [])
     = (Err (ConfigError msg), World ∅ 0%nat [])).
Proof.
  apply (config_errors_before_any_work prefix_client (Some "k")
           (Config "/abs/source.json" "source" "m" "https://example.com/v1" "" 0 60 6
              true false)
           "zh,ar" one_record ["zh"; "ar"] (World ∅ 0%nat [])).
  left. simpl. lia.
Defined.

(** C7, as stated, fails: a progress state whose [done_indices] repeats an
    index and whose [cache] holds a number is accepted. *)
Lemma validation_accepts_improper_state :
  dict_get "done_indices" lenient_fields = Some (JArr (JNum <$> [0; 0])) /\
  ~ proper_index_set 1 (JArr (JNum <$> [0; 0])) /\
  dict_get "cache" lenient_fields = Some (JObj [("a", JNum 1)]) /\
  ~ flat_string_map (JObj [("a", JNum 1)]) /\
  _validate_progress_state (JObj lenient_fields) sample_config 1 "ru"
    = Ok (LoopState {[0]} [("a", JNum 1)] [JObj [("instruction", JStr "x")]]).
Proof.
  split; [reflexivity|]. split.
  { intros (l & E & Hnd & _).
    destruct l as [|a [|b [|c l]]]; try discriminate.
    injection E as -> ->.
    apply NoDup_cons in Hnd as [H _]. apply H, list_elem_of_here. }
  split; [reflexivity|]. split.
  { intros (o & [= <-] & H).
    destruct (H "a" (JNum 1) (list_elem_of_here _ _)) as [s Hs]. discriminate. }
  vm_compute. reflexivity.
Qed.

Lemma shape_faults_witness :
  exists f,
    _validate_progress_state
      (JObj [ ("version", JNum 1); ("source_path", JStr "/abs/source.json");
              ("source_size", JNum 1); ("model", JStr "m");
              ("base_url", JStr "https://example.com/v1"); ("lang_code", JStr "ru");
              ("done_indices", JArr [JNum 0]); ("cache", JObj []);
              ("items", JArr [JNull]) ])
      sample_config 1 "ru"
    = Err (InvalidProgressShape f).
Proof.
  apply shape_faults_rejected.
  - reflexivity.
  - intros l [= <-]. reflexivity.
  - right. right. right. left.
    exists [JNum 0], [0], [JNull], 0.
    repeat split; try reflexivity. apply list_elem_of_here.
Defined.

(** C2, as stated, fails: with a forced restart the progress file is
    removed first, and when the client then fails no output is written. *)
Lemma restart_discards_before_output :
  (translate_lang failing_client restart_config one_record "ru"
     (World stale_files 0%nat [])).1 = Err (MockError "simulated timeout") /\
  fs (translate_lang failing_client restart_config one_record "ru"
        (World stale_files 0%nat [])).2 !! ".translate_progress_source_ru.json" = None /\
  fs (translate_lang failing_client restart_config one_record "ru"
        (World stale_files 0%nat [])).2 !! "source_ru.json" = None /\
  ~ unlink_strictly_after_output restart_config "ru"
      (log (translate_lang failing_client restart_config one_record "ru"
              (World stale_files 0%nat [])).2).
Proof.
  split; [vm_compute; reflexivity|].
  split; [vm_compute; reflexivity|].
  split; [vm_compute; reflexivity|].
  intros H.
  destruct (H [] [EvCall (CallArgs ["x"] "Russian" "m" "https://example.com/v1" "k" 1 1)])
    as [payload Hin].
  - vm_compute. reflexivity.
  - inversion Hin.
Qed.

Lemma completion_witness :
  exists evs,
    log (translate_lang prefix_client sample_config one_record "ru"
           (World ∅ 0%nat [])).2 = [] ++ evs /\
    ((translate_lang prefix_client sample_config one_record "ru"
        (World ∅ 0%nat [])).1 = Ok tt <->
     exists payload, EvWrite (output_path (base_name sample_config) "ru") payload ∈ evs) /\
    ((translate_lang prefix_client sample_config one_record "ru"
        (World ∅ 0%nat [])).1 = Ok tt ->
     exists items,
       fs (translate_lang prefix_client sample_config one_record "ru"
             (World ∅ 0%nat [])).2
         !! output_path (base_name sample_config) "ru" = Some (JArr items) /\
       length items = length one_record /\
       Forall (fun it => is_none it = false) items /\
       fs (translate_lang prefix_client sample_config one_record "ru"
             (World ∅ 0%nat [])).2
         !! _progress_path (base_name sample_config) "ru" = None) /\
    unlink_only_after_output sample_config "ru" (Z.of_nat (length one_record)) evs.
Proof.
  apply (completion_writes_then_discards prefix_client sample_config
           one_record "ru" "Russian" (World ∅ 0%nat [])).
  reflexivity.
Defined.

(** C8, as stated, fails: a run is interrupted after its first batch, the
    first record of the source file is edited, and the run that resumes
    succeeds with an output whose first element is a copy of the record as
    it was before the edit. *)
Lemma resumed_output_not_a_copy :
  (translate_lang flaky_client single_config before_edit "ru" (World ∅ 0%nat [])).1
    = Err (MockError "simulated timeout") /\
  (translate_lang prefix_client single_config after_edit "ru"
     (World (fs (translate_lang flaky_client single_config before_edit "ru"
                   (World ∅ 0%nat [])).2) 0%nat [])).1 = Ok tt /\
  fs (translate_lang prefix_client single_config after_edit "ru"
        (World (fs (translate_lang flaky_client single_config before_edit "ru"
                      (World ∅ 0%nat [])).2) 0%nat [])).2 !! "source_ru.json"
    = Some (JArr [ JObj [("index", JStr "s0"); ("instruction", JStr "Russian:a")];
                   JObj [("index", JStr "s1"); ("instruction", JStr "Russian:b")] ]) /\
  ~ Forall2 copy_with_translation after_edit
      [ JObj [("index", JStr "s0"); ("instruction", JStr "Russian:a")];
        JObj [("index", JStr "s1"); ("instruction", JStr "Russian:b")] ].
Proof.
  split; [vm_compute; reflexivity|].
  split; [vm_compute; reflexivity|].
  split; [vm_compute; reflexivity|].
  intros H. apply Forall2_cons_1 in H as [[t Ht] _].
  vm_compute in Ht. discriminate.
Qed.

Lemma prefix_client_length_contract : length_contract prefix_client.
Proof. intros s args l [= <-]. apply length_fmap. Qed.

Lemma persisted_progress_witness :
  exists evs,
    log (translate_lang prefix_client sample_config two_same "ru"
           (World ∅ 0%nat [])).2 = [] ++ evs /\
    forall name payload,
      EvWrite name payload ∈ evs ->
      name = output_path (base_name sample_config) "ru" \/
      (name = tmp_path (_progress_path (base_name sample_config) "ru") /\
       progress_payload_ok two_same (done_at_start sample_config two_same "ru" ∅) payload).
Proof.
  apply (persisted_progress_valid prefix_client sample_config two_same "ru"
           (World ∅ 0%nat [])).
  exact prefix_client_length_contract.
Defined.

(** C6.  Two records of one batch with the same instruction are both sent
    to the client, in one call, and each gets the answer for its own
    position: the cache is filled only after the call. *)
Theorem duplicate_in_batch_sent_twice :
  (translate_lang positional_client sample_config two_same "ru"
     (World ∅ 0%nat [])).1 = Ok tt /\
  calls_of (log (translate_lang positional_client sample_config two_same "ru"
                   (World ∅ 0%nat [])).2) = [["a"; "a"]] /\
  fs (translate_lang positional_client sample_config two_same "ru"
        (World ∅ 0%nat [])).2 !! "source_ru.json"
    = Some (JArr [ JObj [("index", JStr "s0"); ("instruction", JStr "a-1")];
                   JObj [("index", JStr "s1"); ("instruction", JStr "a-2")] ]).
Proof. repeat split; vm_compute; reflexivity. Qed.

Lemma idempotent_resume_witness :
  (translate_dataset flaky_client sample_config five_records ["ru"]
     (World ∅ 0%nat [])).1 = Err (MockError "simulated timeout") /\
  (translate_dataset prefix_client sample_config five_records ["ru"]
     (World (fs (translate_dataset flaky_client sample_config five_records ["ru"]
                   (World ∅ 0%nat [])).2) 0%nat [])).1 = Ok tt /\
  forall l, l ∈ ["ru"] ->
    exists items,
      fs (translate_dataset prefix_client sample_config five_records ["ru"]
            (World ∅ 0%nat [])).2
        !! output_path (base_name sample_config) l = Some (JArr items) /\
      fs (translate_dataset prefix_client sample_config five_records ["ru"]
            (World (fs (translate_dataset flaky_client sample_config five_records ["ru"]
                          (World ∅ 0%nat [])).2) 0%nat [])).2
        !! output_path (base_name sample_config) l = Some (JArr items).
Proof.
  split; [vm_compute; reflexivity|].
  apply (idempotent_resume prefix_answer prefix_client flaky_client prefix_client
           sample_config five_records ["ru"]
           (World ∅ 0%nat []) (World ∅ 0%nat [])).
  - intros s args. reflexivity.
  - intros s args. unfold flaky_client. destruct (Nat.eqb s 1).
    + right. eexists. reflexivity.
    + left. reflexivity.
  - intros s args. reflexivity.
  - intros l _. apply lookup_empty.
  - reflexivity.
  - vm_compute. reflexivity.
  - reflexivity.
Defined.

(** ** Further instances *)

Lemma run_pair {A B} (p : A * B) (a : A) : p.1 = a -> p = (a, p.2).
Proof. intros <-. apply surjective_pairing. Qed.

Lemma touches_own_files_witness :
  fs (translate_dataset prefix_client sample_config one_record ["ru"]
        (World {[ "notes.txt" := JStr "keep" ]} 0%nat [])).2 !! "notes.txt"
  = fs (World {[ "notes.txt" := JStr "keep" ]} 0%nat []) !! "notes.txt".
Proof.
  apply (translate_dataset_touches_own_files prefix_client sample_config one_record ["ru"]
           (World {[ "notes.txt" := JStr "keep" ]} 0%nat []) "notes.txt").
  intros l Hl. apply list_elem_of_singleton in Hl as ->.
  unfold touched. rewrite !elem_of_cons, elem_of_nil.
  intros [H|[H|[H|[]]]]; vm_compute in H; discriminate.
Defined.

Lemma failed_run_witness :
  exists ls',
    start_state sample_config five_records "ru" (Z.of_nat (length five_records))
      (fs (translate_lang failing_client sample_config five_records "ru"
             (World (fs interrupted_run) 0%nat [])).2) = Ok ls' /\
    state_ok (Z.of_nat (length five_records)) ls' /\
    advanced interrupted_state ls'.
Proof.
  apply (failed_run_can_be_resumed failing_client sample_config five_records "ru"
           (World (fs interrupted_run) 0%nat [])
           (translate_lang failing_client sample_config five_records "ru"
              (World (fs interrupted_run) 0%nat [])).2
           interrupted_state (MockError "simulated timeout")).
  - reflexivity.
  - reflexivity.
  - vm_compute. reflexivity.
  - apply run_pair. vm_compute. reflexivity.
Defined.

Lemma loaded_items_witness :
  exists items,
    fs (translate_lang prefix_client sample_config five_records "ru"
          (World (fs interrupted_run) 0%nat [])).2
      !! output_path (base_name sample_config) "ru" = Some (JArr items) /\
    forall i, i ∈ done_indices interrupted_state ->
      items !! Z.to_nat i = out_items interrupted_state !! Z.to_nat i.
Proof.
  apply (loaded_items_reach_output prefix_client sample_config five_records "ru"
           (World (fs interrupted_run) 0%nat [])
           (translate_lang prefix_client sample_config five_records "ru"
              (World (fs interrupted_run) 0%nat [])).2
           interrupted_state).
  - vm_compute. reflexivity.
  - apply run_pair. vm_compute. reflexivity.
Defined.

Lemma finished_state_complete : complete (Z.of_nat (length one_record)) finished_state.
Proof.
  split.
  - intros i Hi. simpl in Hi. replace i with 0 by lia.
    unfold finished_state. cbn [done_indices]. by apply elem_of_singleton.
  - repeat constructor.
Qed.

Lemma complete_progress_witness :
  exists w',
    translate_lang failing_client sample_config one_record "ru" (World finished_files 0%nat [])
      = (Ok tt, w') /\
    call_log (log w') = call_log (log (World finished_files 0%nat [])) /\
    cstate w' = cstate (World finished_files 0%nat []) /\
    fs w' !! output_path (base_name sample_config) "ru"
      = Some (JArr (out_items finished_state)) /\
    fs w' !! _progress_path (base_name sample_config) "ru" = None.
Proof.
  apply (complete_progress_is_only_finalized failing_client sample_config one_record
           "ru" "Russian" (World finished_files 0%nat []) finished_state).
  - reflexivity.
  - vm_compute. reflexivity.
  - exact finished_state_complete.
Defined.

Lemma empty_dataset_witness :
  exists w',
    translate_lang failing_client sample_config [] "ru" (World ∅ 0%nat []) = (Ok tt, w') /\
    call_log (log w') = call_log (log (World ∅ 0%nat [])) /\
    fs w' !! output_path (base_name sample_config) "ru" = Some (JArr []) /\
    fs w' !! _progress_path (base_name sample_config) "ru" = None.
Proof.
  apply (empty_dataset_completes failing_client sample_config "ru" "Russian"
           (World ∅ 0%nat [])).
  - reflexivity.
  - vm_compute. reflexivity.
Defined.

Lemma all_languages_witness :
  exists items,
    fs (translate_dataset prefix_client sample_config one_record ["ru"; "ja"]
          (World ∅ 0%nat [])).2
      !! output_path (base_name sample_config) "ru" = Some (JArr items) /\
    length items = length one_record /\
    Forall (fun it => is_none it = false) items /\
    fs (translate_dataset prefix_client sample_config one_record ["ru"; "ja"]
          (World ∅ 0%nat [])).2
      !! _progress_path (base_name sample_config) "ru" = None.
Proof.
  apply (all_languages_written prefix_client sample_config one_record ["ru"; "ja"]
           (World ∅ 0%nat [])
           (translate_dataset prefix_client sample_config one_record ["ru"; "ja"]
              (World ∅ 0%nat [])).2 "ru").
  - apply run_pair. vm_compute. reflexivity.
  - apply list_elem_of_here.
Defined.

Lemma unknown_language_witness :
  translate_dataset prefix_client sample_config one_record (["ru"] ++ "xx" :: ["ja"])
    (World ∅ 0%nat [])
  = (Err (KeyError "xx"),
     (translate_dataset prefix_client sample_config one_record ["ru"] (World ∅ 0%nat [])).2).
Proof.
  apply (unknown_language_stops_the_run prefix_client sample_config one_record
           ["ru"] "xx" ["ja"] (World ∅ 0%nat [])).
  - apply run_pair. vm_compute. reflexivity.
  - reflexivity.
Defined.

Lemma no_repeated_instruction_witness :
  exists cs,
    call_log (log (translate_lang prefix_client sample_config five_records "ru"
                     (World ∅ 0%nat [])).2)
      = call_log (log (World ∅ 0%nat [])) ++ cs /\
    disjoint_calls (ca_instructions <$> cs).
Proof.
  apply (no_instruction_sent_in_two_requests prefix_client sample_config five_records "ru"
           (World ∅ 0%nat [])).
  exact prefix_client_length_contract.
Defined.

Lemma prefix_client_pointwise : pointwise colon_translation prefix_client.
Proof. intros s args l [= <-]. reflexivity. Qed.

Lemma pointwise_output_witness :
  match translate_lang prefix_client sample_config five_records "ru" (World ∅ 0%nat []) with
  | (Ok _, w') =>
      fs w' !! output_path (base_name sample_config) "ru"
      = Some (JArr (translated_record colon_translation "Russian" <$> five_records))
  | (Err _, w') =>
      resume sample_config = true -> force_restart sample_config = false ->
      forall ls,
        start_state sample_config five_records "ru" (Z.of_nat (length five_records)) (fs w')
          = Ok ls ->
        exact_state colon_translation "Russian" five_records ls
  end.
Proof.
  apply (pointwise_client_pointwise_output prefix_client colon_translation sample_config
           five_records "ru" "Russian" (World ∅ 0%nat [])).
  - exact prefix_client_pointwise.
  - reflexivity.
  - intros ls0 H. vm_compute in H. injection H as <-.
    exact (fresh_state_exact colon_translation "Russian" five_records).
Defined.

Lemma last_exception_witness :
  TranslationFailure 2 (Some (TransportError "timed out"))
  = TranslationFailure (ca_max_retries (sample_args ["a"] 2))
      (last_raised (length (ca_instructions (sample_args ["a"] 2))) None
         (post_trace timeout_then_429 (sample_args ["a"] 2)
            (Z.to_nat (ca_max_retries (sample_args ["a"] 2)))
            (net_state (Net 0%nat [] 0)))).
Proof.
  apply (call_api_batch_carries_last_exception timeout_then_429 (Net 0%nat [] 0)
           (sample_args ["a"] 2)).
  reflexivity.
Defined.

Lemma finished_state_ok : state_ok 1 finished_state.
Proof.
  unfold finished_state, state_ok. cbn [done_indices out_items].
  split; [|split; [reflexivity|]].
  - intros i Hi. apply elem_of_singleton in Hi. lia.
  - intros i Hi. apply elem_of_singleton in Hi as ->. eexists. split; reflexivity.
Qed.

Lemma round_trip_witness :
  _validate_progress_state
    (_build_progress_state sample_config 1 "ru" {[0]} [("x", JStr "Russian:x")]
       [JObj [("instruction", JStr "Russian:x")]]) sample_config 1 "ru"
  = Ok (LoopState {[0]} [("x", JStr "Russian:x")] [JObj [("instruction", JStr "Russian:x")]]).
Proof.
  apply (checkpoint_round_trip sample_config 1 "ru" {[0]} [("x", JStr "Russian:x")]
           [JObj [("instruction", JStr "Russian:x")]]).
  exact finished_state_ok.
Defined.

Lemma stripped_witness :
  head (_strip_code_fence fenced_reply) = Some 91%N /\ is_space 91 = false.
Proof.
  split; [reflexivity|].
  apply (strip_code_fence_is_stripped fenced_reply 91%N). left. reflexivity.
Defined.

Lemma unwraps_witness :
  _strip_code_fence ([32%N] ++ join LF ((fence ++ json_tag) :: [array_of_a] ++ [fence])
                       ++ [32%N])
  = strip (join LF [array_of_a]).
Proof.
  apply (strip_code_fence_unwraps [32%N] [32%N] json_tag [array_of_a]).
  - repeat constructor.
  - repeat constructor.
  - repeat constructor.
  - repeat constructor.
Defined.

Lemma incomplete_run_witness :
  (translate_dataset flaky_client sample_config five_records ["ru"] (World ∅ 0%nat [])).1
  <> Err (IncompleteRun 2 5).
Proof.
  apply (incomplete_run_is_never_raised flaky_client sample_config five_records ["ru"]
           (World ∅ 0%nat []) 2 5).
  intros s args. unfold flaky_client, prefix_client. by destruct (Nat.eqb s 1).
Defined.

Lemma whole_batches_witness :
  exists ls' k wb,
    0 <= k /\ k * batch_size sample_config < Z.of_nat (length five_records) /\
    start_state sample_config five_records "ru" (Z.of_nat (length five_records))
      (fs (translate_lang flaky_client sample_config five_records "ru"
             (World ∅ 0%nat [])).2) = Ok ls' /\
    (forall i, i ∈ done_indices ls' <->
               i ∈ done_indices (fresh_state five_records) \/
               0 <= i < k * batch_size sample_config) /\
    process_batch flaky_client sample_config five_records "ru" "Russian"
      (Z.of_nat (length five_records)) ls' (k * batch_size sample_config) wb
    = (Err (MockError "simulated timeout"),
       (translate_lang flaky_client sample_config five_records "ru" (World ∅ 0%nat [])).2) /\
    fs wb
    = fs (translate_lang flaky_client sample_config five_records "ru" (World ∅ 0%nat [])).2.
Proof.
  apply (failed_run_keeps_whole_batches flaky_client sample_config five_records "ru"
           "Russian" (World ∅ 0%nat [])
           (translate_lang flaky_client sample_config five_records "ru"
              (World ∅ 0%nat [])).2
           (fresh_state five_records) (MockError "simulated timeout")).
  - reflexivity.
  - reflexivity.
  - reflexivity.
  - reflexivity.
  - reflexivity.
  - apply run_pair. vm_compute. reflexivity.
Defined.

(** ** Instances of the translations a run writes *)

Lemma interrupted_done i : i ∈ done_indices interrupted_state -> i = 0 \/ i = 1.
Proof.
  intros Hi. apply elem_of_elements in Hi.
  assert (elements (done_indices interrupted_state) = [1; 0]) as E
    by (vm_compute; reflexivity).
  rewrite E in Hi. apply elem_of_cons in Hi as [->|Hi]; [by right|].
  apply elem_of_cons in Hi as [->|Hi]; [by left|]. inversion Hi.
Qed.

Lemma interrupted_frame_ok : frame_ok five_records interrupted_state.
Proof.
  intros i Hi. destruct (interrupted_done i Hi) as [->| ->].
  - eexists _, _. split; [reflexivity|]. split; [vm_compute; reflexivity|].
    eexists. vm_compute. reflexivity.
  - eexists _, _. split; [reflexivity|]. split; [vm_compute; reflexivity|].
    eexists. vm_compute. reflexivity.
Qed.

Lemma output_copies_witness :
  (translate_lang prefix_client sample_config five_records "ru"
     (World (fs interrupted_run) 0%nat [])).1 = Ok tt /\
  length_contract prefix_client /\
  ((translate_lang prefix_client sample_config five_records "ru"
      (World (fs interrupted_run) 0%nat [])).1 = Ok tt ->
   exists items,
     fs (translate_lang prefix_client sample_config five_records "ru"
           (World (fs interrupted_run) 0%nat [])).2
       !! output_path (base_name sample_config) "ru" = Some (JArr items) /\
     Forall2 copy_with_translation five_records items /\
     (length_contract prefix_client ->
      exists cs,
        call_log (log (translate_lang prefix_client sample_config five_records "ru"
                         (World (fs interrupted_run) 0%nat [])).2)
        = call_log (log (World (fs interrupted_run) 0%nat [])) ++ cs /\
        forall i item, five_records !! i = Some item ->
          (Z.of_nat i ∈ done_indices interrupted_state ->
           items !! i = out_items interrupted_state !! i) /\
          (Z.of_nat i ∉ done_indices interrupted_state ->
           exists s t,
             instruction_of item = JStr s /\
             items !! i = Some (JObj (dict_set "instruction" t item)) /\
             translation prefix_client (cstate (World (fs interrupted_run) 0%nat [])) cs
               (cache interrupted_state) "Russian" s t))) /\
  (exists evs,
      log (translate_lang prefix_client sample_config five_records "ru"
             (World (fs interrupted_run) 0%nat [])).2
      = log (World (fs interrupted_run) 0%nat []) ++ evs /\
      forall payload,
        EvWrite (tmp_path (_progress_path (base_name sample_config) "ru")) payload ∈ evs ->
        exists ls,
          _validate_progress_state payload sample_config
            (Z.of_nat (length five_records)) "ru" = Ok ls /\
          frame_ok five_records ls).
Proof.
  split; [vm_compute; reflexivity|].
  split; [exact prefix_client_length_contract|].
  apply (output_copies_records prefix_client sample_config five_records "ru" "Russian"
           (World (fs interrupted_run) 0%nat []) interrupted_state).
  - reflexivity.
  - vm_compute. reflexivity.
  - exact interrupted_frame_ok.
Defined.

Lemma prefix_client_always_answers : always_answers prefix_client.
Proof. intros st args. reflexivity. Qed.

Lemma unlabelled_records_strings : string_instructions unlabelled_records.
Proof.
  intros item Hin. apply elem_of_cons in Hin as [->|Hin]; [by exists ""|].
  apply elem_of_cons in Hin as [->|Hin]; [by exists "x"|]. inversion Hin.
Qed.

Lemma missing_instruction_witness :
  source_text 0 unlabelled_record = Ok "" /\
  exists w' cs,
    translate_dataset prefix_client sample_config unlabelled_records ["ru"]
      (World ∅ 0%nat []) = (Ok tt, w') /\
    call_log (log w') = call_log (log (World ∅ 0%nat [])) ++ cs /\
    forall l lang_name, l ∈ ["ru"] -> lang_name_of l DEFAULT_LANGS = Some lang_name ->
      exists items t args,
        fs w' !! output_path (base_name sample_config) l = Some (JArr items) /\
        items !! 0%nat = Some (JObj (unlabelled_record ++ [("instruction", t)])) /\
        answered prefix_client (cstate (World ∅ 0%nat [])) cs lang_name "" t /\
        args ∈ cs /\ ca_lang_name args = lang_name /\ "" ∈ ca_instructions args.
Proof.
  destruct (missing_instruction_is_empty prefix_client sample_config unlabelled_records
              ["ru"] (World ∅ 0%nat []) 0%nat unlabelled_record)
    as (Hsrc & _ & _ & Hrun).
  - reflexivity.
  - reflexivity.
  - split; [exact Hsrc|]. apply Hrun.
    + reflexivity.
    + reflexivity.
    + reflexivity.
    + exact prefix_client_length_contract.
    + exact prefix_client_always_answers.
    + exact unlabelled_records_strings.
    + intros l Hl. apply list_elem_of_singleton in Hl as ->. by exists "Russian".
    + intros l Hl. apply list_elem_of_singleton in Hl as ->. reflexivity.
Defined.
